(** * bjsonrpc: the connection engine (connection.py, proxies.py)

    A shallow embedding of the dispatcher, the proxy call surface and the
    JSON class-hinting hooks of [bjsonrpc.connection.Connection] and
    [bjsonrpc.proxies.Proxy], with the properties of the design document
    stated and proved (or refuted) over it.

    Conventions of the embedding.
    - Python values that travel through the dispatcher are the type [value]:
      the JSON data types plus the three kinds of runtime object that the
      decode hook [load_object] can produce and the encode hook
      [dump_object] inspects.  Tuples and lists are both [VList]; a [dict]
      is an association list in insertion order (its keys are strings, as
      JSON object keys and Python keyword names are).
    - Finite floats are rationals ([VFloat]); nothing is computed on them.
    - Exceptions are [ServerError] or any other subclass of [Exception],
      given by the name of its type and its message.  Exceptions outside
      [Exception] (KeyboardInterrupt, SystemExit) are not modelled.
    - Methods mutate the connection and the user objects: they are
      computations in the monad [M], state passing over [world] with
      exceptions; the state reached when an exception is raised is kept,
      as in Python.
    - Handler methods are user code: a method is given by what it yields,
      returns or raises on its arguments.  It does not touch the
      connection.
    - The text of the JSON codec is not modelled: [read_and_dispatch]
      starts from the outcome of [read] + [json.loads], and the write queue
      holds the encoded frame as a JSON tree rather than as text.
    - The socket is what its calls of [recv] and [send] come to, one after
      the other; the methods that use it ([_readn], [write_line],
      [settimeout], [write_thread], [close], [serve]) are computations in
      the monad [T] over an [endpoint], the state of the dispatcher
      together with the socket and the two buffers.  A text is kept as the
      bytes of its UTF-8 encoding.
    - Messages that the program writes itself are kept; messages that the
      interpreter composes (of a TypeError, KeyError, NameError and the
      like) are given in short, and format strings are not filled in.
      [repr] and [str] of values are taken not to fail.
    - [assert] statements are executed (no [-O]).
    - Locks are not modelled: a method of the embedding is one
      uninterrupted run of the method, and the writer thread is a run of
      its loop on the queue as it stands. *)

From Stdlib Require Import QArith Ascii String HexadecimalString DecimalString
  HexadecimalN.
From stdpp Require Import base gmap strings list fin_maps.

Local Open Scope string_scope.
Local Open Scope Z_scope.

#[local] Set Warnings "-register-all".

(** ** Values *)

Definition obj_id := nat.
Definition conn_id := nat.

Inductive value : Type :=
| VNone
| VBool (b : bool)
| VInt (n : Z)
| VFloat (q : Q)
| VStr (s : string)
| VList (l : list value)
| VDict (d : list (string * value))
| VFunction (name : string) (_conn : option conn_id)
    (* FunctionType or MethodType: its __name__ and its _conn attribute *)
| VRemoteObject (_conn : conn_id) (name : option string)
    (* a RemoteObject stub; name is None once it was closed *)
| VObject (ref : obj_id).
    (* any other instance, by identity; see [instance] *)

Abbreviation dict := (list (string * value)).

(** Induction over [value] that reaches the elements of lists and dicts. *)
Section value_induction.
Variable P : value → Prop.
Hypothesis HNone : P VNone.
Hypothesis HBool : ∀ b, P (VBool b).
Hypothesis HInt : ∀ n, P (VInt n).
Hypothesis HFloat : ∀ q, P (VFloat q).
Hypothesis HStr : ∀ s, P (VStr s).
Hypothesis HList : ∀ l, Forall P l → P (VList l).
Hypothesis HDict : ∀ d, Forall (λ kv, P kv.2) d → P (VDict d).
Hypothesis HFunction : ∀ n c, P (VFunction n c).
Hypothesis HRemoteObject : ∀ c n, P (VRemoteObject c n).
Hypothesis HObject : ∀ r, P (VObject r).

Fixpoint value_ind' (v : value) : P v :=
  match v with
  | VNone => HNone
  | VBool b => HBool b
  | VInt n => HInt n
  | VFloat q => HFloat q
  | VStr s => HStr s
  | VList l =>
      HList l ((fix go (l : list value) : Forall P l :=
                  match l with
                  | [] => List.Forall_nil _
                  | x :: xs => @List.Forall_cons _ _ x xs (value_ind' x) (go xs)
                  end) l)
  | VDict d =>
      HDict d ((fix go (d : dict) : Forall (λ kv, P kv.2) d :=
                  match d with
                  | [] => List.Forall_nil _
                  | kv :: xs => @List.Forall_cons _ _ kv xs (value_ind' kv.2) (go xs)
                  end) d)
  | VFunction n c => HFunction n c
  | VRemoteObject c n => HRemoteObject c n
  | VObject r => HObject r
  end.
End value_induction.

(** ** Exceptions and results *)

Inductive exn : Type :=
| ServerError (msg : string)
| Exc (etype : string) (msg : string).

Definition exn_type (e : exn) : string :=
  match e with ServerError _ => "ServerError" | Exc t _ => t end.

(** [str(e)] *)
Definition exn_str (e : exn) : string :=
  match e with ServerError m => m | Exc _ m => m end.

Inductive result (A : Type) : Type :=
| Ok (a : A)
| Raise (e : exn).
Arguments Ok {A} a.
Arguments Raise {A} e.

#[global] Instance result_ret : MRet result := λ A a, Ok a.
#[global] Instance result_bind : MBind result :=
  λ A B f r, match r with Ok a => f a | Raise e => Raise e end.

Definition TypeError (msg : string) : exn := Exc "TypeError" msg.
Definition AttributeError (msg : string) : exn := Exc "AttributeError" msg.

(** ** The Python operations the dispatcher applies to values *)

Module Py.

(** [bool(v)] *)
Definition truthy (v : value) : bool :=
  match v with
  | VNone => false
  | VBool b => b
  | VInt n => negb (n =? 0)
  | VFloat q => negb (Qeq_bool q 0)
  | VStr s => negb (String.eqb s EmptyString)
  | VList l => negb (Nat.eqb (length l) 0)
  | VDict d => negb (Nat.eqb (length d) 0)
  | VFunction _ _ | VRemoteObject _ _ | VObject _ => true
  end.

(** [d.get(k)] *)
Fixpoint get (k : string) (d : dict) : option value :=
  match d with
  | [] => None
  | (k', v) :: d' => if String.eqb k k' then Some v else get k d'
  end.

(** [k in d] *)
Definition has (k : string) (d : dict) : bool :=
  match get k d with Some _ => true | None => false end.

(** [d[k] = v] *)
Fixpoint set (k : string) (v : value) (d : dict) : dict :=
  match d with
  | [] => [(k, v)]
  | (k', v') :: d' =>
      if String.eqb k k' then (k, v) :: d' else (k', v') :: set k v d'
  end.

(** [del d[k]], for a key that is there *)
Fixpoint del (k : string) (d : dict) : dict :=
  match d with
  | [] => []
  | (k', v') :: d' => if String.eqb k k' then del k d' else (k', v') :: del k d'
  end.

(** [d.setdefault(k, v)] *)
Definition setdefault (k : string) (v : value) (d : dict) : dict :=
  if has k d then d else set k v d.

(** The characters of a string, each as a string. *)
Fixpoint chars (s : string) : list value :=
  match s with
  | EmptyString => []
  | String c s' => VStr (String c EmptyString) :: chars s'
  end.

(** [for x in v]: lists give their elements, strings their characters,
    dicts their keys; nothing else here is iterable. *)
Definition iter (v : value) : result (list value) :=
  match v with
  | VList l => Ok l
  | VStr s => Ok (chars s)
  | VDict d => Ok (map (λ kv, VStr kv.1) d)
  | _ => Raise (TypeError "object is not iterable")
  end.

(** An integer (or bool) used as an index. *)
Definition index (k : value) : option Z :=
  match k with
  | VInt n => Some n
  | VBool b => Some (if b then 1 else 0)
  | _ => None
  end.

(** [l[i]] for a sequence of length [length l], negative [i] counting
    from the end. *)
Definition nth_item {A} (l : list A) (i : Z) : option A :=
  let n := Z.of_nat (length l) in
  if (0 <=? i) && (i <? n) then l !! Z.to_nat i
  else if (- n <=? i) && (i <? 0) then l !! Z.to_nat (n + i)
  else None.

(** [c[k]] *)
Definition getitem (c k : value) : result value :=
  match c with
  | VDict d =>
      match k with
      | VStr s =>
          match get s d with
          | Some v => Ok v
          | None => Raise (Exc "KeyError" s)
          end
      | VList _ | VDict _ => Raise (TypeError "unhashable type")
      | _ => Raise (Exc "KeyError" EmptyString)
      end
  | VList l =>
      match index k with
      | Some i =>
          match nth_item l i with
          | Some v => Ok v
          | None => Raise (Exc "IndexError" "list index out of range")
          end
      | None => Raise (TypeError "list indices must be integers")
      end
  | VStr s =>
      match index k with
      | Some i =>
          match nth_item (chars s) i with
          | Some v => Ok v
          | None => Raise (Exc "IndexError" "string index out of range")
          end
      | None => Raise (TypeError "string indices must be integers")
      end
  | _ => Raise (TypeError "object is not subscriptable")
  end.

(** [str(n)] for an integer. *)
Definition str_int (n : Z) : string :=
  DecimalString.NilZero.string_of_int (Z.to_int n).

(** [s.lower()] on ASCII letters. *)
Definition lower_ascii (c : ascii) : ascii :=
  let n := nat_of_ascii c in
  if (Nat.leb 65 n && Nat.leb n 90)%bool then ascii_of_nat (n + 32) else c.

Fixpoint lower (s : string) : string :=
  match s with
  | EmptyString => EmptyString
  | String c s' => String (lower_ascii c) (lower s')
  end.

(** ['.' in s] *)
Fixpoint contains_dot (s : string) : bool :=
  match s with
  | EmptyString => false
  | String c s' => if Ascii.eqb c "." then true else contains_dot s'
  end.

(** [s.split('.')] *)
Fixpoint split_dot (s : string) : list string :=
  match s with
  | EmptyString => [EmptyString]
  | String c s' =>
      if Ascii.eqb c "." then EmptyString :: split_dot s'
      else match split_dot s' with
           | h :: t => String c h :: t
           | [] => [String c EmptyString]
           end
  end.

(** ["%04x" % n]: lower-case hexadecimal, zero-padded to four
    characters, the sign taking one of them. *)
Definition hex (n : N) : string :=
  HexadecimalString.NilZero.string_of_uint (N.to_hex_uint n).

Fixpoint zeros (n : nat) : string :=
  match n with O => EmptyString | S n' => String "0" (zeros n') end.

Definition pad (width : nat) (s : string) : string :=
  zeros (width - String.length s) ++ s.

Definition format_04x (n : Z) : string :=
  if n <? 0 then String "-" (pad 3 (hex (Z.to_N (- n))))
  else pad 4 (hex (Z.to_N n)).

End Py.

(** ** The connection, the user objects and the state *)

(** What [get_method] hands back and the dispatcher then tests with
    [inspect.isgeneratorfunction] and [callable].  A generator function is
    given by the values it yields on its arguments and the exception that
    ends it, if one does; a callable by what it returns or raises. *)
Inductive method : Type :=
| GeneratorFunction (body : list value → dict → list value * option exn)
| Callable (body : list value → dict → result value)
| NotCallable (v : value).

(** A user object, as far as the connection looks at it. *)
Record instance : Type := mkInstance {
  has_class : bool;                              (* hasattr(obj, '__class__') *)
  classname : string;                            (* obj.__class__.__name__ *)
  to_float : result Q;                           (* float(obj) *)
  get_method : option (value → result method);   (* None: no such attribute *)
  _shutdown : option (result unit);              (* None: no such attribute *)
}.

(** Modelled from the spec: the Request handle of bjsonrpc/request.py, which
    is not among the sources.  "Fields: request id, owning connection, raw
    request payload, optional user callback, a response slot, an auto_close
    flag".  The response slot keeps the frames in arrival order; the
    connection is the one of the state, and no callback is modelled. *)
Record Request : Type := mkRequest {
  request_id : option Z;
  payload : value;
  responses : list value;
  auto_close : bool;
}.

(** Request handles are shared between the pending map and the caller:
    both hold a reference. *)
Definition req_ref := nat.

(** An item of the writer's queue: [{'write_data': d}] or
    [{'abort': True, 'event': e}]. *)
Inductive queue_item : Type :=
| WriteData (d : value)
| Abort.

Inductive level : Type := DEBUG | WARNING | ERROR.

Record Connection : Type := mkConnection {
  self : conn_id;                         (* the identity of the object *)
  handler : option obj_id;                (* set only with a handler_factory *)
  _id : Z;
  _requests : gmap Z req_ref;
  _objects : gmap string obj_id;
  threaded : bool;
  write_thread_queue : list queue_item;
}.

Record world : Type := mkWorld {
  conn : Connection;
  objs : obj_id → instance;               (* the user objects, by identity *)
  remoteobjects : gmap obj_id (gmap conn_id string);
                                          (* obj.__remoteobjects__, where set *)
  handles : gmap req_ref Request;         (* the Request objects *)
  threads : list value;                   (* items handed to started threads *)
  shutdowns : list obj_id;                (* objects whose _shutdown was called *)
  log : list (level * string);            (* calls to _log, by format string;
                                             a traceback is "%s" *)
}.

Definition with_conn (f : Connection → Connection) (w : world) : world :=
  mkWorld (f (conn w)) (objs w) (remoteobjects w) (handles w) (threads w)
    (shutdowns w) (log w).

Definition set_id (n : Z) (c : Connection) : Connection :=
  mkConnection (self c) (handler c) n (_requests c) (_objects c) (threaded c)
    (write_thread_queue c).

Definition set_requests (r : gmap Z req_ref) (c : Connection) : Connection :=
  mkConnection (self c) (handler c) (_id c) r (_objects c) (threaded c)
    (write_thread_queue c).

Definition set_objects (o : gmap string obj_id) (c : Connection) : Connection :=
  mkConnection (self c) (handler c) (_id c) (_requests c) o (threaded c)
    (write_thread_queue c).

Definition set_queue (q : list queue_item) (c : Connection) : Connection :=
  mkConnection (self c) (handler c) (_id c) (_requests c) (_objects c)
    (threaded c) q.

Definition set_remoteobjects (h : gmap obj_id (gmap conn_id string))
    (w : world) : world :=
  mkWorld (conn w) (objs w) h (handles w) (threads w) (shutdowns w) (log w).

Definition set_handles (h : gmap req_ref Request) (w : world) : world :=
  mkWorld (conn w) (objs w) (remoteobjects w) h (threads w) (shutdowns w) (log w).

Definition set_threads (t : list value) (w : world) : world :=
  mkWorld (conn w) (objs w) (remoteobjects w) (handles w) t (shutdowns w)
    (log w).

Definition set_shutdowns (s : list obj_id) (w : world) : world :=
  mkWorld (conn w) (objs w) (remoteobjects w) (handles w) (threads w) s
    (log w).

Definition set_log (l : list (level * string)) (w : world) : world :=
  mkWorld (conn w) (objs w) (remoteobjects w) (handles w) (threads w)
    (shutdowns w) l.

(** [Connection.__init__]: the fields the embedding keeps. *)
Definition Connection__init__ (cid : conn_id) (h : option obj_id)
    (thr : bool) : Connection :=
  mkConnection cid h 0 ∅ ∅ thr [].

(** ** The monad of methods *)

Definition M (A : Type) : Type := world → result A * world.

#[global] Instance M_ret : MRet M := λ A a w, (Ok a, w).
#[global] Instance M_bind : MBind M :=
  λ A B f m w,
    match m w with
    | (Ok a, w') => f a w'
    | (Raise e, w') => (Raise e, w')
    end.

Definition raise {A} (e : exn) : M A := λ w, (Raise e, w).
Definition lift {A} (r : result A) : M A := λ w, (r, w).
Definition gets {A} (f : world → A) : M A := λ w, (Ok (f w), w).
Definition modify (f : world → world) : M unit := λ w, (Ok tt, f w).

(** [try: m  except Exception as e: h e] *)
Definition try_except {A} (m : M A) (h : exn → M A) : M A :=
  λ w,
    match m w with
    | (Ok a, w') => (Ok a, w')
    | (Raise e, w') => h e w'
    end.

(** [for x in l: f x] *)
Fixpoint for_each {A} (f : A → M unit) (l : list A) : M unit :=
  match l with
  | [] => mret tt
  | x :: l' => _ ← f x; for_each f l'
  end.

(** [_log.<level>(fmt, ...)] *)
Definition _log (lv : level) (fmt : string) : M unit :=
  modify (λ w, set_log (log w ++ [(lv, fmt)]) w).

(** The frames enqueued for writing, in queue order. *)
Definition written (w : world) : list value :=
  omap (λ i, match i with WriteData d => Some d | Abort => None end)
    (write_thread_queue (conn w)).

(** ** Connection: ids and pending requests *)

(** [get_id] *)
Definition get_id : M Z :=
  n ← gets (λ w, _id (conn w));
  _ ← modify (with_conn (set_id (n + 1)));
  mret (n + 1).

(** The key under which a value finds a pending request.  The keys of
    [_requests] are the integers of [get_id]; an integer, a bool and an
    integral float hash and compare equal to them, lists and dicts are
    unhashable, and no other value equals an integer. *)
Definition requests_key (v : value) : result (option Z) :=
  match v with
  | VInt n => Ok (Some n)
  | VBool b => Ok (Some (if b then 1 else 0))
  | VFloat q =>
      Ok (if Pos.eqb (Qden (Qred q)) 1 then Some (Qnum (Qred q)) else None)
  | VList _ | VDict _ => Raise (TypeError "unhashable type")
  | _ => Ok None
  end.

(** [addrequest], the request's id (an integer of [get_id]) passed along
    with the reference to the handle. *)
Definition addrequest (rid : Z) (request : req_ref) : M unit :=
  reqs ← gets (λ w, _requests (conn w));
  match reqs !! rid with
  | Some _ => raise (Exc "AssertionError" EmptyString)
  | None => modify (with_conn (set_requests (<[rid := request]> reqs)))
  end.

(** [delrequest] *)
Definition delrequest (req_id : Z) : M unit :=
  reqs ← gets (λ w, _requests (conn w));
  match reqs !! req_id with
  | Some _ => modify (with_conn (set_requests (delete req_id reqs)))
  | None => raise (Exc "KeyError" (Py.str_int req_id))
  end.

(** ** Connection: the encode hook *)

Definition _dump_functionreference (name : string) : value :=
  VDict [("__functionreference__", VStr name)].

Definition _dump_objectreference (name : option string) : value :=
  VDict [("__objectreference__",
          match name with Some n => VStr n | None => VNone end)].

(** ["%s_%04x" % (classname.lower(), id)] *)
Definition instancename (classname : string) (id : Z) : string :=
  Py.lower classname ++ "_" ++ Py.format_04x id.

(** [_dump_remoteobject]: [obj.__remoteobjects__] is an attribute of the
    user object, shared by every connection that serializes it. *)
Definition _dump_remoteobject (obj : obj_id) : M value :=
  me ← gets (λ w, self (conn w));
  attr ← gets (λ w, remoteobjects w !! obj);
  ro ← match attr with
       | Some ro => mret ro
       | None =>
           _ ← modify (λ w, set_remoteobjects (<[obj := ∅]> (remoteobjects w)) w);
           mret ∅
       end;
  name ← match ro !! me with
         | Some name => mret name
         | None =>
             i ← gets (λ w, objs w obj);
             n ← get_id;
             let name := instancename (classname i) n in
             _ ← modify (with_conn (λ c,
                   set_objects (<[name := obj]> (_objects c)) c));
             _ ← modify (λ w,
                   set_remoteobjects
                     (<[obj := <[me := name]> ro]> (remoteobjects w)) w);
             mret name
         end;
  mret (VDict [("__remoteobject__", VStr name)]).

(** [dump_object].  [isinstance(obj, object)] holds of every value, so the
    first of the three TypeErrors after the callable case cannot be raised;
    messages keep their format string. *)
Definition dump_object (obj : value) : M value :=
  match obj with
  | VFunction name c =>
      me ← gets (λ w, self (conn w));
      if decide (c = Some me) then mret (_dump_functionreference name)
      else raise (TypeError
             "Tried to serialize as JSON a handler for another connection!")
  | VRemoteObject _ name => mret (_dump_objectreference name)
  | VObject o =>
      i ← gets (λ w, objs w o);
      if negb (has_class i) then
        raise (TypeError "JSON objects must be instances, not types")
      else if String.eqb (classname i) "Decimal" then
        q ← lift (to_float i); mret (VFloat q)
      else match get_method i with
           | Some _ => _dump_remoteobject o
           | None =>
               raise (TypeError
                 "Python object %s laks a 'get_method' and is not serializable!")
           end
  | _ =>
      raise (TypeError
        "Python object %s laks a 'get_method' and is not serializable!")
  end.

(** Modelled from the spec: [json.dumps(value, conn)] of bjsonrpc/jsonlib.py,
    which is not among the sources.  "Encode hook (dump_object): invoked for
    any value the codec doesn't know natively."  The codec walks the value
    in order and replaces every value that is not JSON data by what the
    hook returns for it (a hint or a float, which are JSON data); the
    result is kept as a tree, the text is not modelled. *)
Fixpoint json_dumps (v : value) : M value :=
  match v with
  | VNone | VBool _ | VInt _ | VFloat _ | VStr _ => mret v
  | VList l =>
      l' ← (fix go (l : list value) : M (list value) :=
              match l with
              | [] => mret []
              | x :: xs => x' ← json_dumps x; xs' ← go xs; mret (x' :: xs')
              end) l;
      mret (VList l')
  | VDict d =>
      d' ← (fix go (d : dict) : M dict :=
              match d with
              | [] => mret []
              | (k, x) :: xs =>
                  x' ← json_dumps x; xs' ← go xs; mret ((k, x') :: xs')
              end) d;
      mret (VDict d')
  | VFunction _ _ | VRemoteObject _ _ | VObject _ => dump_object v
  end.

(** [write]: the frame is queued for the writer thread. *)
Definition write (data : value) : M unit :=
  modify (with_conn (λ c,
    set_queue (write_thread_queue c ++ [WriteData data]) c)).

(** ** Connection: replies *)

(** [_send].  The handler of a failed [json.dumps] builds a substitute
    response from [item['id']], and [item] is not a name of this scope:
    evaluating it raises NameError, which leaves [_send]. *)
Definition _send (response : value) : M unit :=
  txtResponse ← try_except (json_dumps response) (λ e,
    _ ← _log ERROR
          "An unexpected error ocurred when trying to create the message: %r";
    raise (Exc "NameError" "name 'item' is not defined"));
  write txtResponse.

(** [item.get('id') is not None] *)
Definition reply_id (item : dict) : option value :=
  match Py.get "id" item with
  | Some VNone | None => None
  | Some id => Some id
  end.

(** [_send_response] *)
Definition _send_response (item : dict) (response : value) : M unit :=
  match reply_id item with
  | Some id => _send (VDict [("result", response); ("error", VNone); ("id", id)])
  | None => mret tt
  end.

(** [_send_error] *)
Definition _send_error (item : dict) (err : value) : M unit :=
  match reply_id item with
  | Some id => _send (VDict [("result", VNone); ("error", err); ("id", id)])
  | None => mret tt
  end.

(** [_format_exception]: the arguments are walked for the log line (which
    fails on arguments that cannot be iterated or indexed), three lines are
    logged, and the text of the error is returned. *)
Definition _format_exception (obj : obj_id) (method args kw : value)
    (exc : exn) : M string :=
  _ ← lift (Py.iter args);
  ks ← lift (Py.iter kw);
  _ ← lift (mapM (M := result) (Py.getitem kw) ks);
  _ ← _log ERROR "(%s) In Handler method %s.%s(%s) ";
  _ ← _log DEBUG "%s::%s:%d %s";
  _ ← _log ERROR "Unhandled error: %s: %s";
  mret (exn_type exc ++ ": " ++ exn_str exc).

(** ** Connection: the dispatcher *)

(** [_dispatch_delete] *)
Definition _dispatch_delete (objectname : string) : M unit :=
  _ ← try_except
        (objects ← gets (λ w, _objects (conn w));
         match objects !! objectname with
         | None => raise (Exc "KeyError" objectname)
         | Some o =>
             i ← gets (λ w, objs w o);
             match _shutdown i with
             | None => raise (AttributeError "_shutdown")
             | Some r =>
                 _ ← modify (λ w, set_shutdowns (shutdowns w ++ [o]) w);
                 lift r
             end
         end)
        (λ e,
           objects ← gets (λ w, _objects (conn w));
           match objects !! objectname with
           | None => raise (Exc "KeyError" objectname)
           | Some _ =>
               _ ← _log ERROR "Error when shutting down the object %s:";
               _log DEBUG "%s"
           end);
  objects ← gets (λ w, _objects (conn w));
  match objects !! objectname with
  | None => raise (Exc "KeyError" objectname)
  | Some _ =>
      modify (with_conn (set_objects (delete objectname objects)))
  end.

(** One pair of [dict((str(k), req_kwargs[k]) for k in req_kwargs)].  Only
    a string, an integer or a bool can index a dict, a list or a string, so
    [str] is needed of these alone. *)
Definition kwargs_item (req_kwargs k : value) : result (string * value) :=
  v ← Py.getitem req_kwargs k;
  match k with
  | VStr s => Ok (s, v)
  | VInt n => Ok (Py.str_int n, v)
  | VBool b => Ok (if b then "True" else "False", v)
  | _ => Raise (TypeError "indices must be integers")
  end.

(** [dict((str(k), req_kwargs[k]) for k in req_kwargs)] *)
Definition str_keys (req_kwargs : value) : result value :=
  ks ← Py.iter req_kwargs;
  items ← mapM (kwargs_item req_kwargs) ks;
  Ok (VDict (foldl (λ d kv, Py.set kv.1 kv.2 d) [] items)).

(** [_extract_params] *)
Definition _extract_params (request : dict)
    : result (value * value * value) :=
  let req_method := default VNone (Py.get "method" request) in
  let req_args := default (VList []) (Py.get "params" request) in
  let '(req_args, req_kwargs) :=
    match req_args with
    | VDict _ => (VList [], req_args)
    | _ => (req_args, default (VDict []) (Py.get "kwparams" request))
    end in
  req_kwargs ←
    (if Py.truthy req_kwargs then str_keys req_kwargs else Ok req_kwargs);
  Ok (req_method, req_args, req_kwargs).

(** ['.' in req_method], for whatever the frame carries as its method. *)
Definition method_has_dot (req_method : value) : result bool :=
  match req_method with
  | VStr s => Ok (Py.contains_dot s)
  | VList l =>
      Ok (existsb (λ x, match x with VStr s => String.eqb s "." | _ => false end) l)
  | VDict d => Ok (Py.has "." d)
  | _ => Raise (TypeError "argument is not iterable")
  end.

(** [_find_object].  Its result is [None] after a deletion. *)
Definition _find_object (req_method req_args req_kwargs : value)
    : M (option obj_id) :=
  dotted ← lift (method_has_dot req_method);
  if dotted : bool then
    match req_method with
    | VStr s =>
        match take 2 (Py.split_dot s) with
        | [objectname; req_method] =>
            objects ← gets (λ w, _objects (conn w));
            match objects !! objectname with
            | None => raise (Exc "ValueError" "Invalid object identifier")
            | Some o =>
                if String.eqb req_method "__delete__" then
                  _ ← _dispatch_delete objectname; mret None
                else mret (Some o)
            end
        | _ => raise (Exc "ValueError" "need more than 1 value to unpack")
        end
    | _ => raise (AttributeError "split")
    end
  else
    h ← gets (λ w, handler (conn w));
    match h with
    | Some o => mret (Some o)
    | None => raise (AttributeError "handler")
    end.

(** [_find_method] *)
Definition _find_method (req_object : obj_id)
    (req_method req_args req_kwargs : value) : M method :=
  try_except
    (i ← gets (λ w, objs w req_object);
     match get_method i with
     | None => raise (AttributeError "get_method")
     | Some gm => lift (gm req_method)
     end)
    (λ e,
       match e with
       | ServerError msg => mret (NotCallable (VStr msg))
       | _ =>
           err ← _format_exception req_object req_method req_args req_kwargs e;
           mret (NotCallable (VStr err))
       end).

(** The arguments of [fn] as a call with star-args and star-star-kw hands them over. *)
Definition star_args (args kw : value) : result (list value * dict) :=
  a ← Py.iter args;
  match kw with
  | VDict d => Ok (a, d)
  | _ => Raise (TypeError "argument after ** must be a mapping")
  end.

(** Modelled from the spec: [Request.setresponse] of bjsonrpc/request.py,
    which is not among the sources.  "stores result/error and wakes
    waiters; unregisters from the pending map if auto_close". *)
Definition setresponse (request : req_ref) (frame : value) : M unit :=
  hs ← gets handles;
  match hs !! request with
  | None => raise (Exc "ReferenceError" "no such request")
  | Some r =>
      _ ← modify (set_handles
            (<[request := mkRequest (request_id r) (payload r)
                            (responses r ++ [frame]) (auto_close r)]> hs));
      match auto_close r, request_id r with
      | true, Some id => delrequest id
      | _, _ => mret tt
      end
  end.

(** [dispatch_item_single]: the result is [True], or [None] after a
    deletion. *)
Definition dispatch_item_single (item : value) : M value :=
  match item with
  | VDict item =>
      let item := Py.setdefault "id" VNone item in
      if Py.has "method" item then
        '(method, args, kw) ← lift (_extract_params item);
        obj ← _find_object method args kw;
        match obj with
        | None => mret VNone
        | Some obj =>
            fn ← _find_method obj method args kw;
            _ ← try_except
                  (match fn with
                   | GeneratorFunction body =>
                       '(a, k) ← lift (star_args args kw);
                       let '(yielded, failure) := body a k in
                       _ ← for_each (_send_response item) yielded;
                       match failure with
                       | Some e => raise e
                       | None => mret tt
                       end
                   | Callable body =>
                       '(a, k) ← lift (star_args args kw);
                       response ← lift (body a k);
                       _send_response item response
                   | NotCallable v =>
                       if Py.truthy v then _send_error item v else mret tt
                   end)
                  (λ exc,
                     match exc with
                     | ServerError msg => _send_error item (VStr msg)
                     | _ =>
                         err ← _format_exception obj method args kw exc;
                         _send_error item (VStr err)
                     end);
            mret (VBool true)
        end
      else if Py.has "result" item then
        id ← lift (Py.getitem (VDict item) (VStr "id"));
        key ← lift (requests_key id);
        reqs ← gets (λ w, _requests (conn w));
        match key ≫= (reqs !!.) with
        | None => raise (Exc "AssertionError" EmptyString)
        | Some request =>
            _ ← setresponse request (VDict item);
            mret (VBool true)
        end
      else
        _ ← _send_error item (VStr "Unknown format");
        mret (VBool true)
  | _ => raise (Exc "AssertionError" EmptyString)
  end.

(** [dispatch_item_threaded]: a started thread is the item it will
    dispatch; it runs [dispatch_item_single] on it later, on its own. *)
Definition dispatch_item_threaded (item : value) : M value :=
  thr ← gets (λ w, threaded (conn w));
  if thr : bool then
    _ ← modify (λ w, set_threads (threads w ++ [item]) w);
    mret (VBool true)
  else dispatch_item_single item.

(** What [self.read(timeout)] and [json.loads(data, self)] come to.  The
    call of [read] stands before the try statement: what it raises leaves
    [read_and_dispatch], be it the EofError of [_readn] or another
    exception (the UnicodeDecodeError of [read_line] on a line that is not
    UTF-8, the ValueError of [settimeout] on a negative timeout).  What
    [json.loads] raises is caught. *)
Inductive inbound : Type :=
| ReadEof (unconsumed : nat)     (* read raises EofError *)
| ReadError (e : exn)            (* read raises another exception *)
| ReadNothing                    (* read returns an empty line *)
| DecodeError (e : exn)          (* json.loads raises *)
| Decoded (item : value).

(** [read_and_dispatch]; [condition] is what the call of the condition
    returns, when one is given. *)
Definition read_and_dispatch (thread : bool) (condition : option bool)
    (inp : inbound) : M bool :=
  match condition with
  | Some false => mret false
  | _ =>
      let dispatch_item :=
        if thread then dispatch_item_threaded else dispatch_item_single in
      match inp with
      | ReadEof n => raise (Exc "EofError" (Py.str_int (Z.of_nat n)))
      | ReadError e => raise e
      | ReadNothing => mret false
      | DecodeError e => _ ← _log DEBUG "%s"; mret false
      | Decoded item =>
          try_except
            (match item with
             | VList l =>
                 _ ← for_each (λ i, _ ← dispatch_item i; mret tt) l;
                 mret true
             | VDict d =>
                 _ ← (if Py.has "result" d then dispatch_item_single item
                      else dispatch_item item);
                 mret true
             | _ =>
                 _ ← _log DEBUG "Received message with unknown format type: %s";
                 mret false
             end)
            (λ e, _ ← _log DEBUG "%s"; mret false)
      end
  end.

(** ** Connection: outgoing calls *)

(** Modelled from the spec: [Request(conn, data, callback)] of
    bjsonrpc/request.py, which is not among the sources.  "created when
    Proxy emits a non-notification call; registered in pending-requests":
    a new handle is made for the payload, registered under the payload's id
    when it has one, and the payload is written. *)
Definition Request__init__ (data : dict) : M req_ref :=
  hs ← gets handles;
  let request := fresh (dom hs) in
  let rid := match Py.get "id" data with Some (VInt n) => Some n | _ => None end in
  _ ← modify (set_handles (<[request := mkRequest rid (VDict data) [] true]> hs));
  _ ← match rid with Some n => addrequest n request | None => mret tt end;
  txt ← json_dumps (VDict data);
  _ ← write txt;
  mret request.

(** The frame [proxy] builds: lines 653 to 666, [id] being the result of
    [get_id] for the sync types that ask for one. *)
Definition proxy_data (name : string) (id : option Z) (args : list value)
    (kwargs : dict) : dict :=
  let data := [("method", VStr name)] in
  let data := match id with Some n => Py.set "id" (VInt n) data | None => data end in
  let data :=
    if Nat.ltb 0 (length args) then Py.set "params" (VList args) data else data in
  if Nat.ltb 0 (length kwargs) then
    if Nat.eqb (length args) 0 then Py.set "params" (VDict kwargs) data
    else Py.set "kwparams" (VDict kwargs) data
  else data.

(** What [proxy] returns: [None], [req.value] (the caller then waits on the
    handle) or the handle. *)
Inductive proxy_result : Type :=
| ProxyNone
| ProxyValue (req : req_ref)
| ProxyRequest (req : req_ref).

(** [proxy], without a callback. *)
Definition proxy (sync_type : Z) (name : string) (args : list value)
    (kwargs : dict) : M proxy_result :=
  id ← (if bool_decide (sync_type ∈ [0; 1; 3]) then n ← get_id; mret (Some n)
        else mret None);
  let data := proxy_data name id args kwargs in
  if sync_type =? 2 then
    txt ← json_dumps (VDict data);
    _ ← write txt;
    mret ProxyNone
  else
    req ← Request__init__ data;
    if sync_type =? 0 then mret (ProxyValue req)
    else
      _ ← (if sync_type =? 3 then
             modify (λ w, set_handles
               (alter (λ r, mkRequest (request_id r) (payload r) (responses r) false)
                  req (handles w)) w)
           else mret tt);
      mret (ProxyRequest req).

(** The names a Connection answers to: those of the class body and those
    [__init__] sets (besides the ones every object has). *)
Definition Connection_attributes : list string :=
  [ "_maxtimeout"; "_SOCKET_COMM_ERRORS"; "call"; "method"; "notify"; "pipe";
    "setmaxtimeout"; "getmaxtimeout"; "__init__"; "socket"; "get_id";
    "load_object"; "addrequest"; "delrequest"; "dump_object";
    "_dump_functionreference"; "_dump_objectreference"; "_dump_remoteobject";
    "_format_exception"; "_dispatch_delete"; "_extract_params";
    "_find_object"; "_find_method"; "dispatch_until_empty";
    "read_and_dispatch"; "dispatch_item_threaded"; "_send"; "_send_response";
    "_send_error"; "dispatch_item_single"; "proxy"; "close"; "write_line";
    "read_line"; "settimeout"; "write_thread"; "write"; "write_now"; "read";
    "_readn"; "serve";
    "_debug_socket"; "_debug_dispatch"; "_buffer"; "_sck"; "_address";
    "_handler"; "connection_status"; "handler"; "_id"; "_requests";
    "_objects"; "scklock"; "_wbuffer"; "write_lock"; "read_lock";
    "getid_lock"; "reading_event"; "threaded"; "write_thread_queue";
    "write_thread_semaphore" ].

(** [getattr(conn, name)], as far as a call with
    [(sync_type, name, args, kwargs)] tells the attributes apart. *)
Inductive attribute : Type :=
| AttrProxy      (* the bound method [proxy] *)
| AttrOther.     (* any other attribute *)

Definition Connection_getattr (name : string) : result attribute :=
  if String.eqb name "proxy" then Ok AttrProxy
  else if bool_decide (name ∈ Connection_attributes) then Ok AttrOther
  else Raise (AttributeError name).

(** ** Proxy *)

(** A Proxy of the connection of the state: its object name and its
    synchronization type. *)
Record Proxy : Type := mkProxy {
  _obj : option string;
  sync_type : Z;
}.

(** The name [__getattr__] gives the callable: [if self._obj] holds of a
    name that is neither [None] nor empty. *)
Definition qualified_name (p : Proxy) (name : string) : string :=
  match _obj p with
  | Some o => if Py.truthy (VStr o) then o ++ "." ++ name else name
  | None => name
  end.

(** [Proxy.__getattr__(name)] called with [args] and [kwargs]: the callable
    it returns forwards to [self._conn._proxy]. *)
Definition Proxy__getattr__ (p : Proxy) (name : string) (args : list value)
    (kwargs : dict) : M proxy_result :=
  let name := qualified_name p name in
  attr ← lift (Connection_getattr "_proxy");
  match attr with
  | AttrProxy => proxy (sync_type p) name args kwargs
  | AttrOther => raise (TypeError "object is not callable")
  end.

(** ** Notions used in the statements *)

(** A method leaves a component of the state as it found it, whatever it
    returns or raises. *)
Definition keeps {A B} (f : world → B) (m : M A) : Prop :=
  ∀ w, f (m w).2 = f w.

(** JSON data: values the codec encodes without the hook. *)
Fixpoint plain (v : value) : bool :=
  match v with
  | VNone | VBool _ | VInt _ | VFloat _ | VStr _ => true
  | VList l => forallb plain l
  | VDict d => forallb (λ kv, plain kv.2) d
  | VFunction _ _ | VRemoteObject _ _ | VObject _ => false
  end.

(** Values [json.dumps] encodes on the connection [me]: JSON data, the
    callables of [me], remote stubs, objects of a class named Decimal that
    convert to float and objects with a [get_method]. *)
Fixpoint serializable (me : conn_id) (os : obj_id → instance) (v : value)
    : bool :=
  match v with
  | VNone | VBool _ | VInt _ | VFloat _ | VStr _ => true
  | VList l => forallb (serializable me os) l
  | VDict d => forallb (λ kv, serializable me os kv.2) d
  | VFunction _ c => bool_decide (c = Some me)
  | VRemoteObject _ _ => true
  | VObject o =>
      has_class (os o) &&
      (if String.eqb (classname (os o)) "Decimal" then
         match to_float (os o) with Ok _ => true | Raise _ => false end
       else match get_method (os o) with Some _ => true | None => false end)
  end.

(** [r] is what [json.dumps] makes of [v] in some state of the connection. *)
Definition encodes (v r : value) : Prop :=
  ∃ w w', json_dumps v w = (Ok r, w').

(** The response frame for a result. *)
Definition response_frame (result id : value) : value :=
  VDict [("result", result); ("error", VNone); ("id", id)].

(** The error frame for a message. *)
Definition error_frame (err id : value) : value :=
  VDict [("result", VNone); ("error", err); ("id", id)].

(** What the encode hook never touches: the write queue, the identity of
    the connection and the user objects' own attributes. *)
Definition outside (w : world) : list value * conn_id * (obj_id → instance) :=
  (written w, self (conn w), objs w).

(** What the handling of a request never touches: the pending requests
    and their handles, and the threads. *)
Definition pending (w : world) : gmap Z req_ref * gmap req_ref Request * list value :=
  (_requests (conn w), handles w, threads w).

(** Two frames that differ in the 'result' key only. *)
Definition same_request (d1 d2 : dict) : Prop :=
  ∀ k, k ≠ "result" → Py.get k d1 = Py.get k d2.

(** ** Synthetic names *)

(** The name under which an object was serialized on the connection. *)
Definition registered_name (o : obj_id) (w : world) : option string :=
  remoteobjects w !! o ≫= λ ro, ro !! self (conn w).

Fixpoint has_underscore (s : string) : bool :=
  match s with
  | EmptyString => false
  | String c s' => if Ascii.eqb c "_" then true else has_underscore s'
  end.

(** The text after the last underscore of a name. *)
Fixpoint after_underscore (s : string) : string :=
  match s with
  | EmptyString => EmptyString
  | String c s' =>
      if has_underscore s' then after_underscore s'
      else if Ascii.eqb c "_" then s' else String c s'
  end.

(** The number a synthetic name ends with. *)
Definition instance_number (name : string) : option N :=
  N.of_hex_uint <$> HexadecimalString.NilEmpty.uint_of_string (after_underscore name).

(** The names of the table come from ids the connection has handed out. *)
Definition names_bounded (c : Connection) : Prop :=
  0 ≤ _id c ∧
  ∀ name o, _objects c !! name = Some o →
    ∃ n, instance_number name = Some n ∧ Z.of_N n ≤ _id c.

(** A method maintains a property of the state, whatever it returns or
    raises. *)
Definition preserves {A} (I : world → Prop) (m : M A) : Prop :=
  ∀ w, I w → I (m w).2.

(** [names_bounded], of the connection of a state. *)
Definition bounded (w : world) : Prop := names_bounded (conn w).

(** ** The claims of the design document that the code does not meet,
       as the document words them *)

(** The pending request that the id of a frame stands for. *)
Definition pending_request (item : dict) (w : world) : option req_ref :=
  match requests_key (default VNone (Py.get "id" item)) with
  | Ok key => key ≫= (_requests (conn w) !!.)
  | Raise _ => None
  end.

(** "Object with result key: look up id in pending, call setresponse;
    missing id is a silent drop": every frame with a 'result' key is handed
    to the handle its id stands for, and when there is none nothing is
    raised and neither the connection nor the handles change. *)
Definition response_claim (item : dict) (w : world) : Prop :=
  Py.has "result" item = true →
  let r := dispatch_item_single (VDict item) w in
  match pending_request item w with
  | Some request =>
      r = (_ ← setresponse request (VDict (Py.setdefault "id" VNone item));
           mret (VBool true)) w
  | None => (∃ v, r.1 = Ok v) ∧ conn r.2 = conn w ∧ handles r.2 = handles w
  end.



(** ** Example objects, connections and frames *)

Module Ex.

(** A root handler with the methods of the document's scenarios. *)
Definition handler_get_method (m : value) : result method :=
  match m with
  | VStr "echo" =>
      Ok (Callable (λ a k,
            match a with
            | [x] => Ok x
            | _ => Raise (TypeError "echo() takes exactly 1 argument")
            end))
  | VStr "boom" => Ok (Callable (λ a k, Raise (Exc "RuntimeError" "x")))
  | VStr "count" =>
      Ok (GeneratorFunction (λ a k, ([VInt 1; VInt 2; VInt 3], None)))
  | VStr "ping" => Ok (Callable (λ a k, Ok (VStr "pong")))
  | _ => Raise (ServerError "Unknown method")
  end.

Definition the_handler : instance :=
  mkInstance true "Handler" (Raise (TypeError "float() argument"))
    (Some handler_get_method) (Some (Ok tt)).

(** An object to host, whose [_shutdown] raises. *)
Definition a_list : instance :=
  mkInstance true "MyList" (Raise (TypeError "float() argument"))
    (Some (λ _, Raise (ServerError "Unknown method")))
    (Some (Raise (Exc "RuntimeError" "busy"))).

Definition objects (o : obj_id) : instance :=
  match o with
  | O => the_handler
  | _ => a_list
  end.

(** A fresh connection with the root handler. *)
Definition w0 : world :=
  mkWorld (Connection__init__ 1%nat (Some 0%nat) false) objects ∅ ∅ [] [] [].

(** The same with threaded dispatch. *)
Definition w_threaded : world :=
  mkWorld (Connection__init__ 1%nat (Some 0%nat) true) objects ∅ ∅ [] [] [].

(** The object 1 hosted as [mylist_0001]. *)
Definition w_hosted : world :=
  mkWorld
    (mkConnection 1%nat (Some 0%nat) 1 ∅ {[ "mylist_0001" := 1%nat ]} false [])
    objects {[ 1%nat := {[ 1%nat := "mylist_0001" ]} ]} ∅ [] [] [].

(** A call with id 5 is pending. *)
Definition w_pending : world :=
  mkWorld
    (mkConnection 1%nat (Some 0%nat) 5 {[ 5 := 0%nat ]} ∅ false [])
    objects ∅
    {[ 0%nat := mkRequest (Some 5) (VDict [("method", VStr "ping"); ("id", VInt 5)])
                  [] true ]}
    [] [] [].

Definition count_request : dict :=
  [("method", VStr "count"); ("id", VInt 7); ("params", VList [VInt 3])].

Definition boom_notification : dict := [("method", VStr "boom")].

Definition delete_request : dict :=
  [("method", VStr "mylist_0001.__delete__"); ("id", VInt 99)].

Definition both_keys : dict :=
  [("method", VStr "ping"); ("result", VInt 1); ("id", VInt 5)].

Definition stray_response : dict :=
  [("result", VInt 1); ("error", VNone); ("id", VInt 7)].

Definition dotted_request : dict :=
  [("method", VStr "a.b.c"); ("id", VInt 99)].

End Ex.

(** ** The handling of a resolved request *)

(** The frame names a method that the dispatcher resolves: to the object
    [obj] and to what its [get_method] gives, or to the diagnostic of the
    failed lookup.  [w2] is the state after the resolution. *)
Definition resolves (item : dict) (w : world) (req_method args kw : value)
    (obj : obj_id) (fn : method) (w2 : world) : Prop :=
  Py.has "method" item = true ∧
  _extract_params (Py.setdefault "id" VNone item) = Ok (req_method, args, kw) ∧
  ∃ w1, _find_object req_method args kw w = (Ok (Some obj), w1) ∧
        _find_method obj req_method args kw w1 = (Ok fn, w2).

(** The try statement of [dispatch_item_single] (lines 618 to 637), for the
    frame with its 'id' key and the resolved method. *)
Definition call_handler (item : dict) (obj : obj_id)
    (req_method args kw : value) (fn : method) : M unit :=
  try_except
    (match fn with
     | GeneratorFunction body =>
         '(a, k) ← lift (star_args args kw);
         let '(yielded, failure) := body a k in
         _ ← for_each (_send_response item) yielded;
         match failure with
         | Some e => raise e
         | None => mret tt
         end
     | Callable body =>
         '(a, k) ← lift (star_args args kw);
         response ← lift (body a k);
         _send_response item response
     | NotCallable v =>
         if Py.truthy v then _send_error item v else mret tt
     end)
    (λ exc,
       match exc with
       | ServerError msg => _send_error item (VStr msg)
       | _ =>
           err ← _format_exception obj req_method args kw exc;
           _send_error item (VStr err)
       end).

(** The text of the error reply for an exception of a handler: the message
    of a ServerError, the type and the message of any other. *)
Definition error_text (e : exn) : string :=
  match e with
  | ServerError msg => msg
  | Exc _ _ => exn_type e ++ ": " ++ exn_str e
  end.

(** ** Connection: the decode hook *)

(** What [load_object] returns: a new stub (its [name] is whatever the hint
    carries), a hosted object, what a [get_method] gave, or the dict as it
    came. *)
Inductive loaded : Type :=
| LoadedRemoteObject (_conn : conn_id) (name : value)
| LoadedObject (o : obj_id)
| LoadedMethod (m : method)
| LoadedDict (d : dict).

(** [self._objects[key]]: the keys of the table are strings. *)
Definition objects_getitem (key : value) : M obj_id :=
  match key with
  | VStr s =>
      objects ← gets (λ w, _objects (conn w));
      match objects !! s with
      | Some o => mret o
      | None => raise (Exc "KeyError" s)
      end
  | VList _ | VDict _ => raise (TypeError "unhashable type")
  | _ => raise (Exc "KeyError" "%r")
  end.

(** [load_object] *)
Definition load_object (obj : dict) : M loaded :=
  if Py.has "__remoteobject__" obj then
    me ← gets (λ w, self (conn w));
    mret (LoadedRemoteObject me (default VNone (Py.get "__remoteobject__" obj)))
  else if Py.has "__objectreference__" obj then
    o ← objects_getitem (default VNone (Py.get "__objectreference__" obj));
    mret (LoadedObject o)
  else if Py.has "__functionreference__" obj then
    let name := default VNone (Py.get "__functionreference__" obj) in
    dotted ← lift (method_has_dot name);
    '(obj, methodname) ←
      (if dotted : bool then
         match name with
         | VStr s =>
             match Py.split_dot s with
             | [objname; methodname] =>
                 o ← objects_getitem (VStr objname);
                 mret (o, VStr methodname)
             | _ => raise (Exc "ValueError" "too many values to unpack")
             end
         | _ => raise (AttributeError "split")
         end
       else
         h ← gets (λ w, handler (conn w));
         match h with
         | Some o => mret (o, name)
         | None => raise (AttributeError "handler")
         end);
    i ← gets (λ w, objs w obj);
    match get_method i with
    | None => raise (AttributeError "get_method")
    | Some gm => m ← lift (gm methodname); mret (LoadedMethod m)
    end
  else mret (LoadedDict obj).

(** The stub of [RemoteObject.__init__] as a value, for the names that are
    strings. *)
Definition stub (l : loaded) : option value :=
  match l with
  | LoadedRemoteObject c (VStr n) => Some (VRemoteObject c (Some n))
  | LoadedRemoteObject c VNone => Some (VRemoteObject c None)
  | _ => None
  end.

(** The number of dots of a name. *)
Fixpoint dots (s : string) : nat :=
  match s with
  | EmptyString => O
  | String c s' => if Ascii.eqb c "." then S (dots s') else dots s'
  end.

(** ** The life of a connection *)

(** The calls that act on a connection: the dispatch of a decoded item (in
    the reader or in a thread of its own), [read_and_dispatch] on what was
    read, a call through a proxy, and the two hooks as the codec calls
    them. *)
Inductive call : Type :=
| Dispatch (item : value)
| ReadAndDispatch (thread : bool) (condition : option bool) (inp : inbound)
| ProxyCall (sync_type : Z) (name : string) (args : list value) (kwargs : dict)
| Dumps (v : value)
| Loads (obj : dict).

(** The state a call leaves, whether it returns or raises. *)
Definition run (c : call) (w : world) : world :=
  match c with
  | Dispatch item => (dispatch_item_single item w).2
  | ReadAndDispatch thread condition inp =>
      (read_and_dispatch thread condition inp w).2
  | ProxyCall st name args kwargs => (proxy st name args kwargs w).2
  | Dumps v => (json_dumps v w).2
  | Loads obj => (load_object obj w).2
  end.

(** The state after a sequence of calls. *)
Definition after (calls : list call) (w : world) : world :=
  foldl (λ w c, run c w) w calls.

(** The id counter has reached [n]. *)
Definition reached (n : Z) (w : world) : Prop := n ≤ _id (conn w).

(** ** The socket and the buffers *)

Abbreviation bytes := (list Byte.byte).

(** [b'\n'] *)
Definition newline : Byte.byte := Byte.x0a.

(** [data.encode('utf-8')]: a text is kept as the bytes of its UTF-8
    encoding, one character of the string for each. *)
Definition encode (data : string) : bytes := list_byte_of_string data.

(** ['\n' in data] *)
Fixpoint has_newline (data : string) : bool :=
  match data with
  | EmptyString => false
  | String c s => if Ascii.eqb c "010" then true else has_newline s
  end.

(** [buffer.find(b'\n')], [None] for -1. *)
Fixpoint find_newline (buffer : bytes) : option nat :=
  match buffer with
  | [] => None
  | c :: buffer' =>
      if Byte.eqb c newline then Some O else S <$> find_newline buffer'
  end.

(** The error numbers that [_readn] tells apart; [EOTHER] is any other
    number, or none (as in a timeout). *)
Inductive errno : Type :=
| EAGAIN | EWOULDBLOCK
| ECONNABORTED | ECONNREFUSED | ECONNRESET | ENETDOWN | ENETRESET | ENETUNREACH
| EOTHER.

Definition is_again (e : errno) : bool :=
  match e with EAGAIN | EWOULDBLOCK => true | _ => false end.

(** [inst.errno in self._SOCKET_COMM_ERRORS] *)
Definition is_comm_error (e : errno) : bool :=
  match e with
  | ECONNABORTED | ECONNREFUSED | ECONNRESET | ENETDOWN | ENETRESET
  | ENETUNREACH => true
  | _ => false
  end.

(** What a call of [recv] comes to: the bytes received (none when the peer
    has closed), or an IOError. *)
Inductive recv_result : Type :=
| RecvData (data : bytes)
| RecvError (e : errno).

(** What a call of [send] comes to: the socket takes up to [n] of the bytes
    it is given, or raises an IOError. *)
Inductive send_result : Type :=
| Sent (n : nat)
| SendError.

(** The socket: its timeout ([None] when it blocks), what its coming calls
    of [recv] and [send] come to, the bytes it has sent, and whether it is
    closed. *)
Record Socket : Type := mkSocket {
  gettimeout : option Q;
  recvs : list recv_result;
  sends : list send_result;
  wire : bytes;
  closed : bool;
}.

(** A connection with its socket: the state of the dispatcher, and the
    fields of the transport.  [_maxtimeout] is an attribute of the class,
    shared by the connections. *)
Record endpoint : Type := mkEndpoint {
  dispatcher : world;
  _sck : Socket;
  _buffer : bytes;
  _wbuffer : bytes;
  connection_status : string;
  _maxtimeout : gmap string (option Q);
}.

(** [Connection._maxtimeout] as the class body sets it. *)
Definition default_maxtimeout : gmap string (option Q) :=
  {[ "read" := Some (60 : Q); "write" := Some (60 : Q) ]}.

Definition set_dispatcher (w : world) (ep : endpoint) : endpoint :=
  mkEndpoint w (_sck ep) (_buffer ep) (_wbuffer ep) (connection_status ep)
    (_maxtimeout ep).

Definition set_sck (s : Socket) (ep : endpoint) : endpoint :=
  mkEndpoint (dispatcher ep) s (_buffer ep) (_wbuffer ep)
    (connection_status ep) (_maxtimeout ep).

Definition set_buffer (b : bytes) (ep : endpoint) : endpoint :=
  mkEndpoint (dispatcher ep) (_sck ep) b (_wbuffer ep) (connection_status ep)
    (_maxtimeout ep).

Definition set_wbuffer (b : bytes) (ep : endpoint) : endpoint :=
  mkEndpoint (dispatcher ep) (_sck ep) (_buffer ep) b (connection_status ep)
    (_maxtimeout ep).

Definition set_status (s : string) (ep : endpoint) : endpoint :=
  mkEndpoint (dispatcher ep) (_sck ep) (_buffer ep) (_wbuffer ep) s
    (_maxtimeout ep).

Definition set_maxtimeout (m : gmap string (option Q)) (ep : endpoint)
    : endpoint :=
  mkEndpoint (dispatcher ep) (_sck ep) (_buffer ep) (_wbuffer ep)
    (connection_status ep) m.

(** The socket after a call of [recv], and after a call of [send] that
    took the bytes [sent]. *)
Definition set_recvs (rs : list recv_result) (ep : endpoint) : endpoint :=
  set_sck (mkSocket (gettimeout (_sck ep)) rs (sends (_sck ep))
             (wire (_sck ep)) (closed (_sck ep))) ep.

Definition set_sends (ss : list send_result) (sent : bytes) (ep : endpoint)
    : endpoint :=
  set_sck (mkSocket (gettimeout (_sck ep)) (recvs (_sck ep)) ss
             (wire (_sck ep) ++ sent) (closed (_sck ep))) ep.

(** ** The monad of the methods that use the socket *)

(** A method returns, raises, or waits on the socket or on the queue for
    something that does not come. *)
Inductive outcome (A : Type) : Type :=
| Returns (a : A)
| Raises (e : exn)
| Blocks.
Arguments Returns {A} a.
Arguments Raises {A} e.
Arguments Blocks {A}.

Definition T (A : Type) : Type := endpoint → outcome A * endpoint.

#[global] Instance T_ret : MRet T := λ A a ep, (Returns a, ep).
#[global] Instance T_bind : MBind T :=
  λ A B f m ep,
    match m ep with
    | (Returns a, ep') => f a ep'
    | (Raises e, ep') => (Raises e, ep')
    | (Blocks, ep') => (Blocks, ep')
    end.

Definition raises {A} (e : exn) : T A := λ ep, (Raises e, ep).
Definition blocks {A} : T A := λ ep, (Blocks, ep).
Definition reads {A} (f : endpoint → A) : T A := λ ep, (Returns (f ep), ep).
Definition updates (f : endpoint → endpoint) : T unit :=
  λ ep, (Returns tt, f ep).

(** A method of the dispatcher, run on the connection of the endpoint. *)
Definition on_dispatcher {A} (m : M A) : T A :=
  λ ep,
    match m (dispatcher ep) with
    | (Ok a, w) => (Returns a, set_dispatcher w ep)
    | (Raise e, w) => (Raises e, set_dispatcher w ep)
    end.

(** [try: m  finally: f] *)
Definition try_finally {A} (m : T A) (f : T unit) : T A :=
  λ ep,
    match m ep with
    | (Returns a, ep') =>
        match f ep' with
        | (Returns _, ep2) => (Returns a, ep2)
        | (Raises e, ep2) => (Raises e, ep2)
        | (Blocks, ep2) => (Blocks, ep2)
        end
    | (Raises e, ep') =>
        match f ep' with
        | (Returns _, ep2) => (Raises e, ep2)
        | (Raises e', ep2) => (Raises e', ep2)
        | (Blocks, ep2) => (Blocks, ep2)
        end
    | (Blocks, ep') => (Blocks, ep')
    end.

(** ** Connection: timeouts *)

(** [self._sck.settimeout(value)] *)
Definition sck_settimeout (value : option Q) : T unit :=
  match value with
  | Some t =>
      if Qlt_le_dec t 0 then raises (Exc "ValueError" "Timeout value out of range")
      else updates (λ ep, set_sck (mkSocket value (recvs (_sck ep))
                     (sends (_sck ep)) (wire (_sck ep)) (closed (_sck ep))) ep)
  | None =>
      updates (λ ep, set_sck (mkSocket None (recvs (_sck ep))
                (sends (_sck ep)) (wire (_sck ep)) (closed (_sck ep))) ep)
  end.

(** [setmaxtimeout] *)
Definition setmaxtimeout (operation : string) (value : option Q) : T unit :=
  if bool_decide (operation ∈ ["read"; "write"]) then
    updates (λ ep, set_maxtimeout (<[operation := value]> (_maxtimeout ep)) ep)
  else raises (Exc "AssertionError" EmptyString).

(** [getmaxtimeout] *)
Definition getmaxtimeout (operation : string) : T (option Q) :=
  m ← reads _maxtimeout;
  match m !! operation with
  | None => mret None
  | Some value => mret value
  end.

(** [settimeout] *)
Definition settimeout (operation : string) (timeout : option Q) : T unit :=
  m ← reads _maxtimeout;
  let maxtimeout :=
    match m !! operation with Some value => value | None => None end in
  let timeout :=
    match maxtimeout with
    | Some maxtimeout =>
        match timeout with
        | None => Some maxtimeout
        | Some t => if Qlt_le_dec maxtimeout t then Some maxtimeout else Some t
        end
    | None => timeout
    end in
  sck_settimeout timeout.

(** ** Connection: lines on the socket *)

(** [_log.<level>(fmt, ...)] from a method of the transport. *)
Definition logs (lv : level) (fmt : string) : T unit :=
  on_dispatcher (_log lv fmt).

(** [self._sck.recv(2048)] and [self._sck.send(buffer)] take the next
    result of the socket; with none left the call does not return. *)
Definition next_recvs (rs : list recv_result) : T unit :=
  updates (set_recvs rs).

Definition next_sends (ss : list send_result) (sent : bytes) : T unit :=
  updates (set_sends ss sent).

(** The endpoint after a line of the log. *)
Definition logged (lv : level) (fmt : string) (ep : endpoint) : endpoint :=
  set_dispatcher
    (set_log (log (dispatcher ep) ++ [(lv, fmt)]) (dispatcher ep)) ep.

(** [raise EofError(n)] *)
Definition EofError (n : nat) : exn := Exc "EofError" (Py.str_int (Z.of_nat n)).

(** The loop of [_readn], on the results of [recv] that are to come.  An
    error of the socket is an IOError (socket.error is one), so that the
    second handler of the loop is never entered. *)
Fixpoint _readn_loop (rs : list recv_result) (streambuffer : bytes) : T bytes :=
  match find_newline streambuffer with
  | Some pos =>
      _ ← updates (set_buffer (drop (S pos) streambuffer));
      mret (take pos streambuffer)
  | None =>
      match rs with
      | [] => blocks
      | r :: rs' =>
          _ ← next_recvs rs';
          match r with
          | RecvError e =>
              _ ← logs DEBUG "Read socket error: IOError%r (timeout: %r)";
              t ← reads (λ ep, gettimeout (_sck ep));
              if is_again e
                 && match t with Some t => Qeq_bool t 0 | None => false end
              then _ ← sck_settimeout (Some (5 : Q)); _readn_loop rs' streambuffer
              else if is_comm_error e then raises (EofError (length streambuffer))
              else mret []
          | RecvData [] => raises (EofError (length streambuffer))
          | RecvData data => _readn_loop rs' (streambuffer ++ data)
          end
      end
  end.

(** [_readn] *)
Definition _readn : T bytes :=
  rs ← reads (λ ep, recvs (_sck ep));
  streambuffer ← reads _buffer;
  _readn_loop rs streambuffer.

(** The loop of [write_line], on the results of [send] that are to come,
    and what follows it. *)
Fixpoint write_line_loop (ss : list send_result) : T nat :=
  wbuffer ← reads _wbuffer;
  match wbuffer with
  | [] => mret O
  | _ :: _ =>
      match ss with
      | [] => blocks
      | SendError :: ss' =>
          _ ← next_sends ss' [];
          _ ← logs DEBUG "Read socket error: IOError (timeout: %r)";
          _ ← logs DEBUG "%s";
          mret O
      | Sent n :: ss' =>
          _ ← next_sends ss' (take n wbuffer);
          match n with
          | O =>
              _ ← logs WARNING "%d bytes left in write buffer";
              mret (length wbuffer)
          | S _ =>
              _ ← updates (set_wbuffer (drop n wbuffer));
              write_line_loop ss'
          end
      end
  end.

(** [write_line] *)
Definition write_line (data : string) : T nat :=
  if has_newline data then raises (Exc "AssertionError" EmptyString)
  else
    _ ← updates (λ ep, set_wbuffer (_wbuffer ep ++ encode data ++ [newline]) ep);
    ss ← reads (λ ep, sends (_sck ep));
    write_line_loop ss.

(** [write_now] *)
Definition write_now (data : string) (timeout : option Q) : T nat :=
  _ ← settimeout "write" timeout;
  write_line data.

(** Some calls of [_readn], one after the other. *)
Fixpoint _readn_times (n : nat) : T (list bytes) :=
  match n with
  | O => mret []
  | S n' => line ← _readn; lines ← _readn_times n'; mret (line :: lines)
  end.

(** A line as it travels. *)
Definition frame (data : string) : bytes := encode data ++ [newline].

(** ** Connection: the writer thread, closing and serving *)

(** The loop of [write_thread], on the items of the queue.  The semaphore
    counts the items, so that the thread waits when the queue is empty.
    The queue of the embedding keeps the frames as trees: [text] is the
    text that [json.dumps] makes of a frame. *)
Fixpoint write_thread_loop (text : value → string) (items : list queue_item)
    : T unit :=
  match items with
  | [] => blocks
  | item :: items' =>
      _ ← on_dispatcher (modify (with_conn (set_queue items')));
      match item with
      | Abort => mret tt
      | WriteData d =>
          _ ← (if Py.truthy (VStr (text d)) then
                 _ ← write_now (text d) None; mret tt
               else mret tt);
          write_thread_loop text items'
      end
  end.

(** [write_thread] *)
Definition write_thread (text : value → string) : T unit :=
  items ← reads (λ ep, write_thread_queue (conn (dispatcher ep)));
  write_thread_loop text items.

(** The texts that the items of a queue ask to write, up to the first
    abort. *)
Fixpoint lines (text : value → string) (items : list queue_item)
    : list string :=
  match items with
  | [] => []
  | Abort :: _ => []
  | WriteData d :: items' =>
      if Py.truthy (VStr (text d)) then text d :: lines text items'
      else lines text items'
  end.

(** [self.handler._shutdown()] *)
Definition handler_shutdown : M unit :=
  h ← gets (λ w, handler (conn w));
  match h with
  | None => raise (AttributeError "handler")
  | Some o =>
      i ← gets (λ w, objs w o);
      match _shutdown i with
      | None => raise (AttributeError "_shutdown")
      | Some r =>
          _ ← modify (λ w, set_shutdowns (shutdowns w ++ [o]) w);
          lift r
      end
  end.

(** [close]; [acknowledged] tells whether the writer thread sets the event
    of the abort item within the second that [close] waits for it. *)
Definition close (acknowledged : bool) : T unit :=
  status ← reads connection_status;
  if String.eqb status "closed" then mret tt
  else
    _ ← on_dispatcher (modify (with_conn (λ c,
          set_queue (write_thread_queue c ++ [Abort]) c)));
    _ ← (if acknowledged then mret tt
         else logs WARNING "write thread doesn't process our abort command");
    _ ← on_dispatcher (try_except handler_shutdown (λ e,
          _log ERROR "Error when shutting down the handler: %s"));
    _ ← updates (λ ep, set_sck (mkSocket (gettimeout (_sck ep))
            (recvs (_sck ep)) (sends (_sck ep)) (wire (_sck ep)) true) ep);
    updates (set_status "closed").

(** What the call of [read] raises on an input, when it raises. *)
Definition read_raises (inp : inbound) : option exn :=
  match inp with
  | ReadEof n => Some (EofError n)
  | ReadError e => Some e
  | ReadNothing | DecodeError _ | Decoded _ => None
  end.

(** The loop of [serve], on what the reads that are to come and their
    decoding come to.  The endpoint follows the dispatcher; what the reads
    do to the socket, its timeout and its buffer is in [inputs]. *)
Fixpoint serve_loop (inputs : list inbound) : T unit :=
  match inputs with
  | [] => blocks
  | inp :: inputs' =>
      _ ← on_dispatcher (read_and_dispatch true None inp);
      serve_loop inputs'
  end.

(** [serve] *)
Definition serve (inputs : list inbound) (acknowledged : bool) : T unit :=
  try_finally (serve_loop inputs) (close acknowledged).

(** ** More example objects, frames and endpoints *)

Module Ex2.

(** A root handler with, besides the methods of the scenarios, a generator
    that fails after two values and a method whose result has no
    encoding. *)
Definition handler_get_method (m : value) : result method :=
  match m with
  | VStr "stream" =>
      Ok (GeneratorFunction (λ a k,
            ([VInt 1; VInt 2], Some (Exc "ValueError" "bad"))))
  | VStr "leak" => Ok (Callable (λ a k, Ok (VFunction "f" None)))
  | _ => Ex.handler_get_method m
  end.

Definition the_handler : instance :=
  mkInstance true "Handler" (Raise (TypeError "float() argument"))
    (Some handler_get_method) (Some (Ok tt)).

Definition objects (o : obj_id) : instance :=
  match o with
  | O => the_handler
  | _ => Ex.a_list
  end.

Definition w0 : world :=
  mkWorld (Connection__init__ 1%nat (Some 0%nat) false) objects ∅ ∅ [] [] [].

(** A threaded connection on which a call with id 5 is pending. *)
Definition w_pending_threaded : world :=
  mkWorld
    (mkConnection 1%nat (Some 0%nat) 5 {[ 5 := 0%nat ]} ∅ true [])
    objects ∅
    {[ 0%nat := mkRequest (Some 5) (VDict [("method", VStr "ping"); ("id", VInt 5)])
                  [] true ]}
    [] [] [].

(** The peer of [w0]. *)
Definition w_peer : world :=
  mkWorld (Connection__init__ 2%nat None false) objects ∅ ∅ [] [] [].

Definition echo_request : dict :=
  [("method", VStr "echo"); ("id", VInt 1); ("params", VList [VStr "hi"])].

Definition boom_request : dict := [("method", VStr "boom"); ("id", VInt 3)].

Definition stream_request : dict := [("method", VStr "stream"); ("id", VInt 9)].

Definition unknown_request : dict := [("method", VStr "nope"); ("id", VInt 4)].

Definition no_method_frame : dict := [("jsonrpc", VStr "2.0"); ("id", VInt 4)].

Definition number_params_request : dict :=
  [("method", VStr "ping"); ("id", VInt 1); ("params", VInt 5)].

Definition leak_request : dict := [("method", VStr "leak"); ("id", VInt 2)].

Definition ping_request : dict := [("method", VStr "ping"); ("id", VInt 6)].

Definition object_params_request : dict :=
  [("method", VStr "echo"); ("params", VDict [("x", VInt 1)]);
   ("kwparams", VDict [("y", VInt 2)])].

(** An open endpoint whose socket has the given results to come. *)
Definition endpoint_with (w : world) (rs : list recv_result)
    (ss : list send_result) (buffer : bytes) : endpoint :=
  mkEndpoint w (mkSocket None rs ss [] false) buffer [] "open"
    default_maxtimeout.

(** The text of a frame, for the frames of the examples. *)
Definition text (v : value) : string :=
  match v with
  | VStr s => s
  | _ => "{}"
  end.

End Ex2.

(** ** The string operations on examples *)

Example split_dot_ex1 : Py.split_dot "a.b.c" = ["a"; "b"; "c"].
Proof. reflexivity. Qed.
Example split_dot_ex2 : Py.split_dot "a." = ["a"; EmptyString].
Proof. reflexivity. Qed.
Example format_04x_ex1 : Py.format_04x 1 = "0001".
Proof. reflexivity. Qed.
Example format_04x_ex2 : Py.format_04x 74565 = "12345".
Proof. reflexivity. Qed.
Example format_04x_ex3 : Py.format_04x (-1) = "-001".
Proof. reflexivity. Qed.
Example lower_ex1 : Py.lower "MyList_2" = "mylist_2".
Proof. reflexivity. Qed.


(** ** Reasoning about methods *)

Ltac mrun :=
  unfold mbind, mret, M_bind, M_ret, result_bind, result_ret, lift, gets,
    modify, raise, try_except in *.

Lemma bind_ok {A B} (m : M A) (k : A → M B) w a w' :
  m w = (Ok a, w') → (m ≫= k) w = k a w'.
Proof. intros H. unfold mbind, M_bind. by rewrite H. Qed.

Lemma bind_raise {A B} (m : M A) (k : A → M B) w e w' :
  m w = (Raise e, w') → (m ≫= k) w = (Raise e, w').
Proof. intros H. unfold mbind, M_bind. by rewrite H. Qed.

(** Equality of methods as functions of the state. *)
Lemma bind_ext {A B} (m1 m2 : M A) (k1 k2 : A → M B) w :
  (∀ w', m1 w' = m2 w') → (∀ a w', k1 a w' = k2 a w') →
  (m1 ≫= k1) w = (m2 ≫= k2) w.
Proof.
  intros Hm H. unfold mbind, M_bind. rewrite Hm.
  by destruct (m2 w) as [[a|e] w'].
Qed.

Lemma try_except_ext {A} (m1 m2 : M A) (h1 h2 : exn → M A) w :
  (∀ w', m1 w' = m2 w') → (∀ e w', h1 e w' = h2 e w') →
  try_except m1 h1 w = try_except m2 h2 w.
Proof.
  intros Hm Hh. unfold try_except. rewrite Hm.
  by destruct (m2 w) as [[a|e] w'].
Qed.

Lemma for_each_ext {A} (f g : A → M unit) (l : list A) w :
  (∀ x w', f x w' = g x w') → for_each f l w = for_each g l w.
Proof.
  intros H. revert w. induction l as [|x l IH]; intros w; [done|].
  simpl. unfold mbind, M_bind. rewrite H.
  by destruct (g x w) as [[[]|e] w'].
Qed.

Section keeps.
Context {B : Type} (f : world → B).

Lemma keeps_ret {A} (a : A) : keeps f (mret a).
Proof. done. Qed.

Lemma keeps_raise {A} (e : exn) : keeps f (raise (A := A) e).
Proof. done. Qed.

Lemma keeps_lift {A} (r : result A) : keeps f (lift r).
Proof. done. Qed.

Lemma keeps_gets {A} (g : world → A) : keeps f (gets g).
Proof. done. Qed.

Lemma keeps_modify (g : world → world) :
  (∀ w, f (g w) = f w) → keeps f (modify g).
Proof. intros H w. apply H. Qed.

Lemma keeps_bind {A C} (m : M A) (k : A → M C) :
  keeps f m → (∀ a, keeps f (k a)) → keeps f (m ≫= k).
Proof.
  intros Hm Hk w. mrun. specialize (Hm w).
  destruct (m w) as [[a|e] w']; simpl in *; [|done].
  by rewrite Hk.
Qed.

Lemma keeps_try_except {A} (m : M A) (h : exn → M A) :
  keeps f m → (∀ e, keeps f (h e)) → keeps f (try_except m h).
Proof.
  intros Hm Hh w. unfold try_except. specialize (Hm w).
  destruct (m w) as [[a|e] w']; simpl in *; [done|].
  by rewrite Hh.
Qed.

Lemma keeps_for_each {A} (g : A → M unit) (l : list A) :
  (∀ x, keeps f (g x)) → keeps f (for_each g l).
Proof.
  intros Hg. induction l as [|x l IH]; simpl; [apply keeps_ret|].
  apply keeps_bind; auto.
Qed.
End keeps.

(** One step of a proof that a method keeps a component. *)
Ltac keeps_step :=
  match goal with
  | |- keeps _ (mret _) => apply keeps_ret
  | |- keeps _ (raise _) => apply keeps_raise
  | |- keeps _ (lift _) => apply keeps_lift
  | |- keeps _ (gets _) => apply keeps_gets
  | |- keeps _ (_ ≫= _) => apply keeps_bind; [|intros]
  | |- keeps _ (try_except _ _) => apply keeps_try_except; [|intros]
  | |- keeps _ (for_each _ _) => apply keeps_for_each; intros
  | |- keeps _ (modify _) => apply keeps_modify; intros; done
  | |- keeps _ (match ?x with _ => _ end) => destruct x
  | |- keeps _ (let '(_, _) := ?x in _) => destruct x
  | |- keeps _ _ => assumption
  end.

Ltac keeps_tac := repeat keeps_step.

Lemma keeps__log {B} (f : world → B) lv fmt :
  (∀ w l, f (set_log l w) = f w) → keeps f (_log lv fmt).
Proof. intros H w. apply H. Qed.

Lemma keeps_written__log lv fmt : keeps written (_log lv fmt).
Proof. by apply keeps__log. Qed.

Lemma keeps_written_get_id : keeps written get_id.
Proof. unfold get_id. keeps_tac. Qed.

Lemma keeps_written__dump_remoteobject o : keeps written (_dump_remoteobject o).
Proof. unfold _dump_remoteobject. keeps_tac; apply keeps_written_get_id. Qed.

Lemma keeps_written_dump_object v : keeps written (dump_object v).
Proof.
  unfold dump_object. keeps_tac; apply keeps_written__dump_remoteobject.
Qed.

Lemma keeps_json_dumps {B} (f : world → B) :
  (∀ v, keeps f (dump_object v)) → ∀ v, keeps f (json_dumps v).
Proof.
  intros Hd v. induction v as [| | | | |l IH|d IH| | |] using value_ind';
    try (apply keeps_ret); try (apply Hd).
  - simpl. apply keeps_bind; [|intros; apply keeps_ret].
    induction IH as [|x xs Hx _ IHxs]; keeps_tac.
  - simpl. apply keeps_bind; [|intros; apply keeps_ret].
    induction IH as [|[k x] xs Hx _ IHxs]; keeps_tac.
Qed.

Lemma keeps_written_json_dumps v : keeps written (json_dumps v).
Proof. apply keeps_json_dumps, keeps_written_dump_object. Qed.

Lemma keeps_written__format_exception o m a k e :
  keeps written (_format_exception o m a k e).
Proof. unfold _format_exception. keeps_tac; apply keeps_written__log. Qed.

Lemma keeps_written__dispatch_delete n : keeps written (_dispatch_delete n).
Proof. unfold _dispatch_delete. keeps_tac; apply keeps_written__log. Qed.

Lemma keeps_written__find_object m a k : keeps written (_find_object m a k).
Proof. unfold _find_object. keeps_tac; apply keeps_written__dispatch_delete. Qed.

Lemma keeps_written__find_method o m a k : keeps written (_find_method o m a k).
Proof. unfold _find_method. keeps_tac; apply keeps_written__format_exception. Qed.

Lemma keeps_written_delrequest n : keeps written (delrequest n).
Proof. unfold delrequest. keeps_tac. Qed.

Lemma keeps_written_setresponse r v : keeps written (setresponse r v).
Proof. unfold setresponse. keeps_tac; apply keeps_written_delrequest. Qed.

(** A frame without an id, or with a null id, gets no reply. *)
Lemma _send_response_no_id item r :
  reply_id item = None → _send_response item r = mret tt.
Proof. intros H. unfold _send_response. by rewrite H. Qed.

Lemma _send_error_no_id item e :
  reply_id item = None → _send_error item e = mret tt.
Proof. intros H. unfold _send_error. by rewrite H. Qed.

Lemma get_set_ne k k' v d : k ≠ k' → Py.get k (Py.set k' v d) = Py.get k d.
Proof.
  intros Hne. induction d as [|[k0 v0] d IH]; simpl.
  - by destruct (String.eqb_spec k k').
  - destruct (String.eqb_spec k' k0) as [->|]; simpl.
    + by destruct (String.eqb_spec k k0).
    + by rewrite IH.
Qed.

Lemma get_set_eq k v d : Py.get k (Py.set k v d) = Some v.
Proof.
  induction d as [|[k0 v0] d IH]; simpl.
  - by rewrite String.eqb_refl.
  - destruct (String.eqb_spec k k0) as [->|]; simpl.
    + by rewrite String.eqb_refl.
    + by destruct (String.eqb_spec k k0).
Qed.

Lemma get_setdefault k k' v d :
  k ≠ k' → Py.get k (Py.setdefault k' v d) = Py.get k d.
Proof.
  intros Hne. unfold Py.setdefault. destruct (Py.has k' d); [done|].
  by apply get_set_ne.
Qed.

Lemma reply_id_setdefault_absent item :
  Py.has "id" item = false → reply_id (Py.setdefault "id" VNone item) = None.
Proof.
  intros H. unfold Py.setdefault. rewrite H. unfold reply_id.
  by rewrite get_set_eq.
Qed.

Lemma keeps_written_dispatch_no_reply item :
  reply_id (Py.setdefault "id" VNone item) = None →
  keeps written (dispatch_item_single (VDict item)).
Proof.
  intros Hid. unfold dispatch_item_single.
  set (item' := Py.setdefault "id" VNone item) in *.
  rewrite (_send_error_no_id item' _ Hid).
  destruct (Py.has "method" item').
  - keeps_tac; rewrite ?(_send_error_no_id item' _ Hid), ?(_send_response_no_id item' _ Hid);
      try apply keeps_written__find_object; try apply keeps_written__find_method;
      try apply keeps_written__format_exception; keeps_tac.
  - keeps_tac. apply keeps_written_setresponse.
Qed.

(** ** Encoding *)

Lemma keeps_outside_dump_object v : keeps outside (dump_object v).
Proof.
  unfold dump_object, _dump_remoteobject, get_id. keeps_tac.
Qed.

Lemma keeps_outside_json_dumps v : keeps outside (json_dumps v).
Proof. apply keeps_json_dumps, keeps_outside_dump_object. Qed.

Lemma outside_eq w w' :
  outside w' = outside w →
  written w' = written w ∧ self (conn w') = self (conn w) ∧ objs w' = objs w.
Proof. unfold outside. by intros [= -> -> ->]. Qed.

Lemma json_dumps_plain v w : plain v = true → json_dumps v w = (Ok v, w).
Proof.
  revert w. induction v as [| | | | |l IH|d IH| | |] using value_ind';
    intros w Hp; try done.
  - simpl in *.
    enough ((fix go (l : list value) : M (list value) :=
              match l with
              | [] => mret []
              | x :: xs => x' ← json_dumps x; xs' ← go xs; mret (x' :: xs')
              end) l w = (Ok l, w)) as Hgo.
    { unfold mbind at 1, M_bind at 1. by rewrite Hgo. }
    clear -IH Hp. revert w. induction IH as [|x xs Hx _ IHxs]; intros w; [done|].
    simpl in Hp. apply andb_prop in Hp as [Hp1 Hp2].
    erewrite bind_ok; [|by apply Hx]. erewrite bind_ok; [|by apply IHxs]. done.
  - simpl in *.
    enough ((fix go (d : dict) : M dict :=
              match d with
              | [] => mret []
              | (k, x) :: xs =>
                  x' ← json_dumps x; xs' ← go xs; mret ((k, x') :: xs')
              end) d w = (Ok d, w)) as Hgo.
    { unfold mbind at 1, M_bind at 1. by rewrite Hgo. }
    clear -IH Hp. revert w. induction IH as [|[k x] xs Hx _ IHxs]; intros w; [done|].
    simpl in Hp. apply andb_prop in Hp as [Hp1 Hp2].
    erewrite bind_ok; [|by apply Hx]. erewrite bind_ok; [|by apply IHxs]. done.
Qed.

Lemma _dump_remoteobject_returns o w :
  ∃ r w', _dump_remoteobject o w = (Ok r, w').
Proof.
  unfold _dump_remoteobject, get_id. mrun.
  destruct (remoteobjects w !! o) as [ro|]; simpl.
  - destruct (ro !! self (conn w)); simpl; by eexists _, _.
  - rewrite lookup_empty. simpl. by eexists _, _.
Qed.

Lemma dump_object_serializable v w :
  match v with
  | VFunction _ _ | VRemoteObject _ _ | VObject _ => True
  | _ => False
  end →
  serializable (self (conn w)) (objs w) v = true →
  ∃ r w', dump_object v w = (Ok r, w').
Proof.
  destruct v as [| | | | | | |n c|c n|o]; try done; intros _ Hs; simpl in Hs.
  - apply bool_decide_eq_true in Hs as ->. unfold dump_object. mrun.
    rewrite decide_True by done. by eexists _, _.
  - by eexists _, _.
  - apply andb_prop in Hs as [Hc Hs]. unfold dump_object. mrun. rewrite Hc. simpl.
    destruct (String.eqb (classname (objs w o)) "Decimal").
    + destruct (to_float (objs w o)); [|done]. by eexists _, _.
    + destruct (get_method (objs w o)); [|done]. apply _dump_remoteobject_returns.
Qed.

Lemma json_dumps_serializable v w :
  serializable (self (conn w)) (objs w) v = true →
  ∃ r w', json_dumps v w = (Ok r, w').
Proof.
  revert w. induction v as [| | | | |l IH|d IH| | |] using value_ind';
    intros w Hs; try (by eexists _, _); try (by apply dump_object_serializable).
  all: try done.
  - simpl in *.
    enough (∃ l' w', (fix go (l : list value) : M (list value) :=
              match l with
              | [] => mret []
              | x :: xs => x' ← json_dumps x; xs' ← go xs; mret (x' :: xs')
              end) l w = (Ok l', w')) as (l' & w' & Hgo).
    { unfold mbind at 1, M_bind at 1. rewrite Hgo. by eexists _, _. }
    clear -IH Hs. revert w Hs.
    induction IH as [|x xs Hx _ IHxs]; intros w Hs; [by eexists _, _|].
    simpl in Hs. apply andb_prop in Hs as [Hs1 Hs2].
    destruct (Hx w Hs1) as (x' & w1 & Hx').
    pose proof (keeps_outside_json_dumps x w) as Hk. rewrite Hx' in Hk.
    apply outside_eq in Hk as (_ & Hself & Hobjs). simpl in *.
    destruct (IHxs w1) as (xs' & w2 & Hxs'); [by rewrite Hself, Hobjs|].
    erewrite bind_ok; [|exact Hx']. erewrite bind_ok; [|exact Hxs'].
    by eexists _, _.
  - simpl in *.
    enough (∃ d' w', (fix go (d : dict) : M dict :=
              match d with
              | [] => mret []
              | (k, x) :: xs =>
                  x' ← json_dumps x; xs' ← go xs; mret ((k, x') :: xs')
              end) d w = (Ok d', w')) as (l' & w' & Hgo).
    { unfold mbind at 1, M_bind at 1. rewrite Hgo. by eexists _, _. }
    clear -IH Hs. revert w Hs.
    induction IH as [|[k x] xs Hx _ IHxs]; intros w Hs; [by eexists _, _|].
    simpl in Hs, Hx. apply andb_prop in Hs as [Hs1 Hs2].
    destruct (Hx w Hs1) as (x' & w1 & Hx').
    pose proof (keeps_outside_json_dumps x w) as Hk. rewrite Hx' in Hk.
    apply outside_eq in Hk as (_ & Hself & Hobjs). simpl in *.
    destruct (IHxs w1) as (xs' & w2 & Hxs'); [by rewrite Hself, Hobjs|].
    erewrite bind_ok; [|exact Hx']. erewrite bind_ok; [|exact Hxs'].
    by eexists _, _.
Qed.

(** ** Calls through a Proxy *)

Lemma qualified_name_connection st name :
  qualified_name (mkProxy None st) name = name.
Proof. done. Qed.

Lemma qualified_name_object st c o name :
  qualified_name (mkProxy (Some (String c o)) st) name
    = String c o ++ "." ++ name.
Proof. done. Qed.

(** A Connection has a [proxy] and no [_proxy]. *)
Lemma Connection_getattr_proxy : Connection_getattr "proxy" = Ok AttrProxy.
Proof. reflexivity. Qed.

Lemma Connection_getattr__proxy :
  Connection_getattr "_proxy" = Raise (AttributeError "_proxy").
Proof. reflexivity. Qed.

(** C1.  The callable that [Proxy.__getattr__] returns looks up [_proxy] on
    its connection, and the Connection defines [proxy]: for every proxy,
    method name and arguments the call raises AttributeError and leaves the
    state as it was.  No frame is emitted. *)
Theorem Proxy_call_raises (p : Proxy) (name : string) (args : list value)
    (kwargs : dict) (w : world) :
  Proxy__getattr__ p name args kwargs w = (Raise (AttributeError "_proxy"), w).
Proof. reflexivity. Qed.

Lemma plain_proxy_data name id args kwargs :
  forallb plain args = true →
  forallb (λ kv, plain kv.2) kwargs = true →
  plain (VDict (proxy_data name id args kwargs)) = true.
Proof.
  intros Ha Hk. unfold proxy_data.
  destruct id as [n|], args as [|a args], kwargs as [|kv kw]; simpl in *;
    rewrite ?Ha, ?Hk; done.
Qed.

(** [proxy] itself, called as a notification with JSON data, queues the one
    frame it built. *)
Lemma proxy_notify_frame name args kwargs w :
  forallb plain args = true →
  forallb (λ kv, plain kv.2) kwargs = true →
  proxy 2 name args kwargs w
    = (Ok ProxyNone, (write (VDict (proxy_data name None args kwargs)) w).2).
Proof.
  intros Ha Hk. unfold proxy.
  erewrite bind_ok; [|reflexivity]. cbv zeta.
  change (2 =? 2) with true. cbv iota.
  erewrite bind_ok; [|by apply json_dumps_plain, plain_proxy_data].
  by erewrite bind_ok.
Qed.

Lemma get_id_proxy_data name n args kwargs :
  Py.get "id" (proxy_data name (Some n) args kwargs) = Some (VInt n).
Proof.
  unfold proxy_data. by destruct args as [|a args], kwargs as [|kv kw].
Qed.

Lemma Request__init___plain d n w :
  Py.get "id" d = Some (VInt n) →
  plain (VDict d) = true →
  _requests (conn w) !! n = None →
  ∃ ref w',
    Request__init__ d w = (Ok ref, w') ∧
    written w' = (written w ++ [VDict d])%list ∧
    _requests (conn w') !! n = Some ref ∧
    handles w' !! ref = Some (mkRequest (Some n) (VDict d) [] true).
Proof.
  intros Hid Hp Hfree. unfold Request__init__.
  erewrite (bind_ok (gets _)); [|reflexivity]. cbv zeta. rewrite Hid.
  erewrite (bind_ok (modify _)); [|reflexivity].
  erewrite (bind_ok (addrequest _ _)).
  2:{ unfold addrequest. erewrite (bind_ok (gets _)); [|reflexivity].
      simpl. rewrite Hfree. reflexivity. }
  erewrite bind_ok; [|by apply json_dumps_plain].
  erewrite bind_ok; [|reflexivity].
  eexists _, _. split; [reflexivity|]. split; [|split].
  - unfold written. simpl. by rewrite omap_app.
  - simpl. by rewrite lookup_insert_eq.
  - simpl. by rewrite lookup_insert_eq.
Qed.

(** [proxy] called for a reply, with JSON data and an id that is not
    pending: the frame it built is queued, under the next id of the
    connection, and the request is pending. *)
Lemma proxy_request_frame st name args kwargs w :
  st ∈ [0; 1; 3] →
  forallb plain args = true →
  forallb (λ kv, plain kv.2) kwargs = true →
  _requests (conn w) !! (_id (conn w) + 1) = None →
  let r := proxy st name args kwargs w in
  (∃ res, r.1 = Ok res) ∧
  written r.2
    = (written w
       ++ [VDict (proxy_data name (Some (_id (conn w) + 1)) args kwargs)])%list ∧
  is_Some (_requests (conn r.2) !! (_id (conn w) + 1)).
Proof.
  intros Hst Ha Hk Hfree.
  assert (bool_decide (st ∈ [0; 1; 3]) = true) as Hb by by apply bool_decide_eq_true.
  assert ((st =? 2) = false) as H2.
  { apply Z.eqb_neq. intros ->. set_solver. }
  destruct (Request__init___plain
              (proxy_data name (Some (_id (conn w) + 1)) args kwargs)
              (_id (conn w) + 1) (with_conn (set_id (_id (conn w) + 1)) w))
    as (ref & w' & Hreq & Hw & Hr & Hh).
  { apply get_id_proxy_data. } { by apply plain_proxy_data. } { done. }
  assert (∃ res w4, proxy st name args kwargs w = (Ok res, w4) ∧
            written w4 = written w' ∧ _requests (conn w4) = _requests (conn w'))
    as (res & w4 & Hp & Hw4 & Hr4).
  { unfold proxy. rewrite Hb, H2.
    erewrite bind_ok; [|reflexivity]. cbv zeta.
    erewrite bind_ok; [|exact Hreq].
    destruct (st =? 0); [by eexists _, _|].
    destruct (st =? 3); by eexists _, _. }
  intros r. subst r. rewrite Hp. simpl. split; [by eexists|]. split.
  - by rewrite Hw4, Hw.
  - rewrite Hr4, Hr. by eexists.
Qed.

(** ** Callables in the encode hook *)

(** C8.  A function or bound method whose [_conn] is this connection is
    encoded as the hint [{'__functionreference__': name}]; one whose
    [_conn] is another connection (or that has none) makes [dump_object]
    raise TypeError, the state staying as it was.  The error reaches the
    caller: a notification with such an argument raises it out of [proxy],
    and nothing is queued for writing. *)
Theorem dump_object_callable (name m : string) (c : conn_id) (w : world) :
  c ≠ self (conn w) →
  dump_object (VFunction name (Some (self (conn w)))) w
    = (Ok (VDict [("__functionreference__", VStr name)]), w) ∧
  dump_object (VFunction name (Some c)) w
    = (Raise (TypeError
         "Tried to serialize as JSON a handler for another connection!"), w) ∧
  dump_object (VFunction name None) w
    = (Raise (TypeError
         "Tried to serialize as JSON a handler for another connection!"), w) ∧
  proxy 2 m [VFunction name (Some c)] [] w
    = (Raise (TypeError
         "Tried to serialize as JSON a handler for another connection!"), w).
Proof.
  intros Hc.
  assert (dump_object (VFunction name (Some c)) w
    = (Raise (TypeError
         "Tried to serialize as JSON a handler for another connection!"), w))
    as Hforeign.
  { unfold dump_object. erewrite bind_ok; [|reflexivity].
    rewrite decide_False; [done|]. by intros [= ->]. }
  split; [|split; [done|split]].
  - unfold dump_object. erewrite bind_ok; [|reflexivity].
    by rewrite decide_True.
  - unfold dump_object. by erewrite bind_ok; [|reflexivity].
  - unfold proxy. erewrite bind_ok; [|reflexivity]. cbv zeta.
    change (2 =? 2) with true. cbv iota.
    erewrite bind_raise; [done|].
    change (proxy_data m None [VFunction name (Some c)] [])
      with [("method", VStr m); ("params", VList [VFunction name (Some c)])].
    simpl. erewrite bind_raise; [done|].
    erewrite (bind_ok (mret _)); [|reflexivity].
    erewrite bind_raise; [done|]. erewrite bind_raise; [done|].
    erewrite bind_raise; [done|]. erewrite bind_raise; [done|].
    exact Hforeign.
Qed.

Lemma dump_object_callable_witness :
  2%nat ≠ self (conn Ex.w0) ∧
  dump_object (VFunction "ping" (Some (self (conn Ex.w0)))) Ex.w0
    = (Ok (VDict [("__functionreference__", VStr "ping")]), Ex.w0) ∧
  dump_object (VFunction "ping" (Some 2%nat)) Ex.w0
    = (Raise (TypeError
         "Tried to serialize as JSON a handler for another connection!"), Ex.w0) ∧
  dump_object (VFunction "ping" None) Ex.w0
    = (Raise (TypeError
         "Tried to serialize as JSON a handler for another connection!"), Ex.w0) ∧
  proxy 2 "notify_me" [VFunction "ping" (Some 2%nat)] [] Ex.w0
    = (Raise (TypeError
         "Tried to serialize as JSON a handler for another connection!"), Ex.w0).
Proof.
  assert (2%nat ≠ self (conn Ex.w0)) as H by (simpl; lia).
  split; [exact H|].
  exact (dump_object_callable "ping" "notify_me" 2%nat Ex.w0 H).
Defined.
(** ** Parameters: from the proxy to the dispatcher *)

Lemma keys_get (kw : dict) k v : NoDup kw.*1 → (k, v) ∈ kw → Py.get k kw = Some v.
Proof.
  induction kw as [|[k' v'] kw IH]; simpl; intros Hnd Hin.
  - by apply elem_of_nil in Hin.
  - apply NoDup_cons in Hnd as [Hnot Hnd].
    apply elem_of_cons in Hin as [Heq|Hin].
    + inversion Heq; subst. by rewrite String.eqb_refl.
    + destruct (String.eqb_spec k k') as [->|Hne]; [|by apply IH].
      exfalso. apply Hnot. apply list_elem_of_fmap. by exists (k', v).
Qed.

Lemma set_fresh k v (d : dict) : k ∉ d.*1 → Py.set k v d = (d ++ [(k, v)])%list.
Proof.
  induction d as [|[k' v'] d IH]; simpl; intros Hk; [done|].
  apply not_elem_of_cons in Hk as [Hne Hk].
  destruct (String.eqb_spec k k'); [done|]. by rewrite IH.
Qed.

Lemma foldl_set_fresh (acc l : dict) :
  NoDup (acc.*1 ++ l.*1)%list →
  foldl (λ d kv, Py.set kv.1 kv.2 d) acc l = (acc ++ l)%list.
Proof.
  revert acc. induction l as [|[k v] l IH]; intros acc Hnd; simpl.
  - by rewrite app_nil_r.
  - rewrite set_fresh.
    + rewrite IH; [by rewrite <- app_assoc|].
      rewrite fmap_app. simpl. by rewrite <- app_assoc.
    + apply NoDup_app in Hnd as (_ & Hdisj & _).
      intros Hin. apply (Hdisj _ Hin). simpl. left.
Qed.

Lemma mapM_result_cons {A B} (f : A → result B) (x : A) (l : list A) :
  mapM f (x :: l) = y ← f x; k ← mapM f l; mret (y :: k).
Proof. reflexivity. Qed.

Lemma kwargs_item_key (kw : dict) k v :
  Py.get k kw = Some v → kwargs_item (VDict kw) (VStr k) = Ok (k, v).
Proof. intros H. unfold kwargs_item. simpl. by rewrite H. Qed.

Lemma mapM_kwargs_item (kw l : dict) :
  NoDup kw.*1 → l ⊆ kw →
  mapM (kwargs_item (VDict kw)) (map (λ kv, VStr kv.1) l) = Ok l.
Proof.
  intros Hnd. induction l as [|[k v] l IH]; intros Hsub; [done|].
  rewrite map_cons, mapM_result_cons. simpl fst.
  rewrite (kwargs_item_key kw k v) by (apply keys_get; [done|apply Hsub; left]).
  simpl. rewrite IH; [done|].
  intros x Hx. apply Hsub. by right.
Qed.

Lemma str_keys_dict (kw : dict) : NoDup kw.*1 → str_keys (VDict kw) = Ok (VDict kw).
Proof.
  intros Hnd. unfold str_keys. simpl.
  rewrite mapM_kwargs_item by done. simpl. by rewrite foldl_set_fresh.
Qed.

(** C4.  The frame that [proxy] builds for a name, positional arguments and
    keyword arguments (a dict: its keys are distinct) is read back by
    [_extract_params] as that name, those arguments and those keyword
    arguments, whether or not the frame carries an id. *)
Theorem proxy_params_roundtrip (name : string) (id : option Z)
    (args : list value) (kwargs : dict) :
  NoDup kwargs.*1 →
  _extract_params (proxy_data name id args kwargs)
    = Ok (VStr name, VList args, VDict kwargs).
Proof.
  intros Hnd. unfold _extract_params, proxy_data.
  destruct id as [n|], args as [|a args], kwargs as [|kv kw];
    cbn -[str_keys]; try done; by rewrite str_keys_dict.
Qed.

Lemma proxy_params_roundtrip_witness :
  NoDup [("a", VInt 2); ("b", VInt 3)].*1 ∧
  _extract_params (proxy_data "add" (Some 2) [] [("a", VInt 2); ("b", VInt 3)])
    = Ok (VStr "add", VList [], VDict [("a", VInt 2); ("b", VInt 3)]).
Proof.
  assert (NoDup [("a", VInt 2); ("b", VInt 3)].*1) as H.
  { apply (bool_decide_unpack _). vm_compute. exact I. }
  split; [exact H|].
  exact (proxy_params_roundtrip "add" (Some 2) [] [("a", VInt 2); ("b", VInt 3)] H).
Defined.

(** ** Replies *)

Lemma written_write d w :
  written (write d w).2 = (written w ++ [d])%list.
Proof. unfold written, write, modify. simpl. by rewrite omap_app. Qed.

Lemma json_dumps_response_frame y id w r w1 :
  json_dumps y w = (Ok r, w1) → plain id = true →
  json_dumps (response_frame y id) w = (Ok (response_frame r id), w1).
Proof.
  intros Hr Hid. unfold response_frame. simpl.
  unfold mbind, M_bind, mret, M_ret. rewrite Hr.
  by rewrite (json_dumps_plain id w1 Hid).
Qed.

Lemma _send_response_frame y id w :
  serializable (self (conn w)) (objs w) y = true →
  plain id = true →
  ∃ r w', _send (response_frame y id) w = (Ok tt, w') ∧
    encodes y r ∧
    written w' = (written w ++ [response_frame r id])%list ∧
    self (conn w') = self (conn w) ∧ objs w' = objs w.
Proof.
  intros Hy Hid.
  destruct (json_dumps_serializable y w Hy) as (r & w1 & Hr).
  pose proof (keeps_outside_json_dumps y w) as Hk. rewrite Hr in Hk.
  apply outside_eq in Hk as (Hw & Hself & Hobjs). simpl in *.
  exists r, (write (response_frame r id) w1).2. split; [|split; [|split]].
  - unfold _send, try_except, mbind, M_bind.
    by rewrite (json_dumps_response_frame y id w r w1 Hr Hid).
  - by exists w, w1.
  - by rewrite written_write, Hw.
  - done.
Qed.

Lemma send_responses item id ys w :
  reply_id item = Some id →
  plain id = true →
  forallb (serializable (self (conn w)) (objs w)) ys = true →
  ∃ frames w',
    for_each (_send_response item) ys w = (Ok tt, w') ∧
    written w' = (written w ++ frames)%list ∧
    Forall2 (λ y f, ∃ r, encodes y r ∧ f = response_frame r id) ys frames.
Proof.
  intros Hid Hp. revert w. induction ys as [|y ys IH]; intros w Hs.
  - exists [], w. by rewrite app_nil_r.
  - simpl in Hs. apply andb_prop in Hs as [Hy Hs].
    destruct (_send_response_frame y id w Hy Hp) as (r & w1 & Hsend & Henc & Hw & Hself & Hobjs).
    destruct (IH w1) as (frames & w' & Hrest & Hw' & Hall); [by rewrite Hself, Hobjs|].
    exists (response_frame r id :: frames), w'. split; [|split].
    + simpl. erewrite bind_ok; [exact Hrest|].
      unfold _send_response. rewrite Hid. exact Hsend.
    + rewrite Hw', Hw. by rewrite <- app_assoc.
    + constructor; [by exists r|done].
Qed.

Lemma reply_id_has item id : reply_id item = Some id → Py.has "id" item = true.
Proof. unfold reply_id, Py.has. by destruct (Py.get "id" item). Qed.

Lemma keeps_outside__find_object m a k : keeps outside (_find_object m a k).
Proof. unfold _find_object, _dispatch_delete, _log. keeps_tac. Qed.

Lemma keeps_outside__find_method o m a k : keeps outside (_find_method o m a k).
Proof. unfold _find_method, _format_exception, _log. keeps_tac. Qed.

(** ** Generators *)

(** C5.  A request with an id (one that is not null, and JSON data) whose
    method resolves to a generator function that yields [ys] and ends gets
    one response frame per yielded value, each with the id of the request,
    queued in the order of the yields, and nothing else.  The yielded
    values are ones the codec can encode on this connection. *)
Theorem generator_responses (item : dict) (id method args kw : value)
    (obj : obj_id) (body : list value → dict → list value * option exn)
    (a : list value) (k : dict) (ys : list value) (w w1 w2 : world) :
  reply_id item = Some id →
  plain id = true →
  Py.has "method" item = true →
  _extract_params item = Ok (method, args, kw) →
  _find_object method args kw w = (Ok (Some obj), w1) →
  _find_method obj method args kw w1 = (Ok (GeneratorFunction body), w2) →
  star_args args kw = Ok (a, k) →
  body a k = (ys, None) →
  forallb (serializable (self (conn w)) (objs w)) ys = true →
  ∃ frames w',
    dispatch_item_single (VDict item) w = (Ok (VBool true), w') ∧
    written w' = (written w ++ frames)%list ∧
    length frames = length ys ∧
    Forall2 (λ y f, ∃ r, encodes y r ∧ f = response_frame r id) ys frames.
Proof.
  intros Hid Hp Hm Hex Hfo Hfm Hsa Hbody Hs.
  pose proof (keeps_outside__find_object method args kw w) as Hk1.
  rewrite Hfo in Hk1. apply outside_eq in Hk1 as (Hw1 & Hself1 & Hobjs1).
  pose proof (keeps_outside__find_method obj method args kw w1) as Hk2.
  rewrite Hfm in Hk2. apply outside_eq in Hk2 as (Hw2 & Hself2 & Hobjs2).
  simpl in *.
  destruct (send_responses item id ys w2 Hid Hp) as (frames & w' & Hloop & Hw' & Hall).
  { by rewrite Hself2, Hobjs2, Hself1, Hobjs1. }
  exists frames, w'. split; [|split; [|split]].
  - unfold dispatch_item_single, Py.setdefault.
    rewrite (reply_id_has item id Hid), Hm, Hex.
    erewrite (bind_ok (lift _)); [|reflexivity]. cbv beta iota.
    erewrite bind_ok; [|exact Hfo]. cbv beta iota.
    erewrite bind_ok; [|exact Hfm].
    erewrite bind_ok; [reflexivity|].
    unfold try_except. rewrite Hsa.
    erewrite (bind_ok (lift _)); [|reflexivity]. cbv beta iota. rewrite Hbody.
    erewrite bind_ok; [|exact Hloop]. reflexivity.
  - by rewrite Hw', Hw2, Hw1.
  - symmetry. by eapply Forall2_length.
  - done.
Qed.

Lemma generator_responses_witness :
  ∃ frames w',
    dispatch_item_single (VDict Ex.count_request) Ex.w0 = (Ok (VBool true), w') ∧
    written w' = (written Ex.w0 ++ frames)%list ∧
    length frames = 3%nat ∧
    Forall2 (λ y f, ∃ r, encodes y r ∧ f = response_frame r (VInt 7))
      [VInt 1; VInt 2; VInt 3] frames.
Proof.
  exact (generator_responses Ex.count_request (VInt 7) (VStr "count")
           (VList [VInt 3]) (VDict []) 0%nat
           (λ _ _, ([VInt 1; VInt 2; VInt 3], None)) [VInt 3] []
           [VInt 1; VInt 2; VInt 3] Ex.w0 Ex.w0 Ex.w0
           eq_refl eq_refl eq_refl eq_refl eq_refl eq_refl eq_refl eq_refl
           eq_refl).
Defined.

(** The frames of the scenario, as they are queued. *)
Example count_request_frames :
  written (dispatch_item_single (VDict Ex.count_request) Ex.w0).2
    = [response_frame (VInt 1) (VInt 7); response_frame (VInt 2) (VInt 7);
       response_frame (VInt 3) (VInt 7)].
Proof. reflexivity. Qed.

(** ** Notifications *)

Lemma read_and_dispatch_returns thread condition item w :
  ∃ b, (read_and_dispatch thread condition (Decoded item) w).1 = Ok b.
Proof.
  unfold read_and_dispatch.
  destruct condition as [[]|]; try (by eexists);
    unfold try_except;
    match goal with
    | |- context [match ?m w with _ => _ end] =>
        destruct (m w) as [[b|e] w']; simpl; by eexists
    end.
Qed.

Lemma keeps_written_dispatch_item_threaded item :
  keeps written (dispatch_item_single item) →
  keeps written (dispatch_item_threaded item).
Proof. intros H. unfold dispatch_item_threaded. keeps_tac. Qed.

Lemma keeps_written_read_and_dispatch_dict thread condition item :
  keeps written (dispatch_item_single (VDict item)) →
  keeps written (read_and_dispatch thread condition (Decoded (VDict item))).
Proof.
  intros H. unfold read_and_dispatch.
  destruct thread; keeps_tac; try apply keeps_written__log;
    by apply keeps_written_dispatch_item_threaded.
Qed.

Lemma getitem_keys (d l : dict) :
  l ⊆ d →
  ∃ vs, mapM (Py.getitem (VDict d)) (map (λ kv, VStr kv.1) l) = Ok vs.
Proof.
  induction l as [|[k v] l IH]; intros Hsub; [by eexists|].
  destruct IH as [vs Hvs]; [intros x Hx; apply Hsub; by right|].
  assert (∃ v', Py.get k d = Some v') as [v' Hv'].
  { assert ((k, v) ∈ d) as Hin by (apply Hsub; left).
    clear -Hin. induction d as [|[k0 v0] d IH]; [by apply elem_of_nil in Hin|].
    simpl. destruct (String.eqb_spec k k0); [by eexists|].
    apply elem_of_cons in Hin as [[= -> ->]|Hin]; [done|by apply IH]. }
  rewrite map_cons, mapM_result_cons. simpl. rewrite Hv'. simpl.
  rewrite Hvs. by eexists.
Qed.

Lemma _format_exception_returns obj method args kw a k e w :
  star_args args kw = Ok (a, k) →
  _format_exception obj method args kw e w
    = (Ok (exn_type e ++ ": " ++ exn_str e),
       set_log (log w ++ [(ERROR, "(%s) In Handler method %s.%s(%s) ");
                          (DEBUG, "%s::%s:%d %s");
                          (ERROR, "Unhandled error: %s: %s")]) w).
Proof.
  unfold star_args. intros Hsa.
  destruct (Py.iter args) as [a'|] eqn:Ha; [|done]. simpl in Hsa.
  destruct kw as [| | | | | |d| | |]; try done.
  destruct (getitem_keys d d) as [vs Hvs]; [done|].
  unfold _format_exception.
  erewrite (bind_ok (lift _)); [|by unfold lift; rewrite Ha].
  erewrite (bind_ok (lift _)); [|reflexivity].
  erewrite (bind_ok (lift _)); [|by unfold lift; rewrite Hvs].
  unfold _log, set_log, mbind, M_bind, modify, mret, M_ret. simpl.
  by rewrite <- !app_assoc.
Qed.

Lemma for_each_no_reply item ys w :
  reply_id item = None → for_each (_send_response item) ys w = (Ok tt, w).
Proof.
  intros Hid. induction ys as [|y ys IH]; [done|].
  simpl. rewrite (_send_response_no_id item y Hid).
  by erewrite bind_ok.
Qed.

Lemma notification_returns item method args kw obj fn a k w w1 w2 :
  reply_id (Py.setdefault "id" VNone item) = None →
  Py.has "method" item = true →
  _extract_params (Py.setdefault "id" VNone item) = Ok (method, args, kw) →
  _find_object method args kw w = (Ok (Some obj), w1) →
  _find_method obj method args kw w1 = (Ok fn, w2) →
  star_args args kw = Ok (a, k) →
  (dispatch_item_single (VDict item) w).1 = Ok (VBool true).
Proof.
  intros Hid Hm Hex Hfo Hfm Hsa.
  unfold dispatch_item_single.
  set (item' := Py.setdefault "id" VNone item) in *.
  assert (Py.has "method" item' = true) as ->.
  { unfold Py.has, item' in *. by rewrite get_setdefault. }
  rewrite Hex. erewrite (bind_ok (lift _)); [|reflexivity]. cbv beta iota.
  erewrite bind_ok; [|exact Hfo]. cbv beta iota.
  erewrite bind_ok; [|exact Hfm].
  assert (∀ e w3, ∃ w4,
    (match e with
     | ServerError msg => _send_error item' (VStr msg)
     | _ => err ← _format_exception obj method args kw e;
            _send_error item' (VStr err)
     end) w3 = (Ok tt, w4)) as Hh.
  { intros [msg|t msg] w3.
    - rewrite (_send_error_no_id item' _ Hid). by eexists.
    - erewrite bind_ok; [|by eapply _format_exception_returns].
      rewrite (_send_error_no_id item' _ Hid). by eexists. }
  unfold try_except, mbind at 1, M_bind at 1. rewrite Hsa.
  destruct fn as [body|body|v].
  - erewrite (bind_ok (lift _)); [|reflexivity]. cbv beta iota.
    destruct (body a k) as [ys [e|]].
    + erewrite bind_ok; [|by apply for_each_no_reply].
      unfold raise. destruct (Hh e w2) as [w4 ->]. done.
    + erewrite bind_ok; [|by apply for_each_no_reply]. done.
  - erewrite (bind_ok (lift _)); [|reflexivity]. cbv beta iota.
    destruct (body a k) as [r|e].
    + erewrite (bind_ok (lift _)); [|reflexivity].
      by rewrite (_send_response_no_id item' _ Hid).
    + erewrite (bind_raise (lift _)); [|reflexivity].
      destruct (Hh e w2) as [w4 ->]. done.
  - rewrite (_send_error_no_id item' _ Hid). by destruct (Py.truthy v).
Qed.

(** C6.  A request frame without an 'id' key puts no frame on the write
    queue: not when it is dispatched (in the reader or in a thread of its
    own), whatever the handler or the resolution of the method raise, and
    not by [read_and_dispatch], which moreover returns without raising.
    When the method of the frame is resolved, to a handler or to the
    diagnostic of a failed resolution, and the parameters are ones a call
    can take, [dispatch_item_single] itself returns True whatever the
    handler returns, yields or raises. *)
Theorem notification_silence (item : dict) (w : world) :
  Py.has "id" item = false →
  written (dispatch_item_single (VDict item) w).2 = written w ∧
  (∀ thread condition,
     let r := read_and_dispatch thread condition (Decoded (VDict item)) w in
     (∃ b, r.1 = Ok b) ∧ written r.2 = written w) ∧
  (∀ method args kw obj fn a k w1 w2,
     Py.has "method" item = true →
     _extract_params (Py.setdefault "id" VNone item) = Ok (method, args, kw) →
     _find_object method args kw w = (Ok (Some obj), w1) →
     _find_method obj method args kw w1 = (Ok fn, w2) →
     star_args args kw = Ok (a, k) →
     (dispatch_item_single (VDict item) w).1 = Ok (VBool true)).
Proof.
  intros Hid.
  pose proof (reply_id_setdefault_absent item Hid) as Hno.
  pose proof (keeps_written_dispatch_no_reply item Hno) as Hk.
  split; [apply Hk|]. split.
  - intros thread condition. split.
    + apply read_and_dispatch_returns.
    + by apply keeps_written_read_and_dispatch_dict.
  - intros method args kw obj fn a k w1 w2. by apply notification_returns.
Qed.

(** The notification of the scenarios: the handler raises, the error is
    logged, nothing is queued and the dispatcher returns True. *)
Example boom_notification_swallowed :
  let r := dispatch_item_single (VDict Ex.boom_notification) Ex.w0 in
  r.1 = Ok (VBool true) ∧ written r.2 = [] ∧
  log r.2 = [(ERROR, "(%s) In Handler method %s.%s(%s) ");
             (DEBUG, "%s::%s:%d %s");
             (ERROR, "Unhandled error: %s: %s")].
Proof. done. Qed.

Lemma notification_silence_witness :
  Py.has "id" Ex.boom_notification = false ∧
  written (dispatch_item_single (VDict Ex.boom_notification) Ex.w0).2
    = written Ex.w0 ∧
  (∀ thread condition,
     let r := read_and_dispatch thread condition
                (Decoded (VDict Ex.boom_notification)) Ex.w0 in
     (∃ b, r.1 = Ok b) ∧ written r.2 = written Ex.w0) ∧
  (∀ method args kw obj fn a k w1 w2,
     Py.has "method" Ex.boom_notification = true →
     _extract_params (Py.setdefault "id" VNone Ex.boom_notification)
       = Ok (method, args, kw) →
     _find_object method args kw Ex.w0 = (Ok (Some obj), w1) →
     _find_method obj method args kw w1 = (Ok fn, w2) →
     star_args args kw = Ok (a, k) →
     (dispatch_item_single (VDict Ex.boom_notification) Ex.w0).1
       = Ok (VBool true)).
Proof.
  split; [reflexivity|].
  exact (notification_silence Ex.boom_notification Ex.w0 eq_refl).
Defined.

(** ** Dotted method names *)

Lemma split_dot_nonempty s : Py.split_dot s ≠ [].
Proof. destruct s as [|c s]; simpl; [done|]. by destruct (Ascii.eqb c "."), (Py.split_dot s). Qed.

Lemma split_dot_no_dot s : Py.contains_dot s = false → Py.split_dot s = [s].
Proof.
  induction s as [|c s IH]; simpl; [done|].
  destruct (Ascii.eqb c "."); [done|]. intros H. by rewrite IH.
Qed.

Lemma split_dot_app a b :
  Py.contains_dot a = false →
  Py.split_dot (a ++ String "." b) = a :: Py.split_dot b.
Proof.
  induction a as [|c a IH]; simpl; [done|].
  destruct (Ascii.eqb c "."); [done|]. intros H. by rewrite IH.
Qed.

Lemma contains_dot_app a b : Py.contains_dot (a ++ String "." b) = true.
Proof.
  induction a as [|c a IH]; simpl; [done|]. by destruct (Ascii.eqb c ".").
Qed.

Lemma _extract_params_method request m a k :
  _extract_params request = Ok (m, a, k) →
  m = default VNone (Py.get "method" request).
Proof.
  unfold _extract_params.
  destruct (match default (VList []) (Py.get "params" request) with
            | VDict _ => _ | _ => _ end) as [a' k'].
  destruct (if Py.truthy k' then str_keys k' else Ok k') as [k''|e]; simpl; [|done].
  by intros [= <- _ _].
Qed.

(** ** Deletion of a hosted object *)

Lemma _find_object_delete (name : string) (o : obj_id) (args kw : value)
    (w : world) :
  Py.contains_dot name = false →
  _objects (conn w) !! name = Some o →
  ∃ w', _find_object (VStr (name ++ ".__delete__")) args kw w = (Ok None, w') ∧
     _objects (conn w') = delete name (_objects (conn w)) ∧
     written w' = written w ∧
     shutdowns w' =
       (shutdowns w ++ match _shutdown (objs w o) with Some _ => [o] | None => [] end)%list ∧
     log w' =
       (log w ++ match _shutdown (objs w o) with
              | Some (Ok _) => []
              | _ => [(ERROR, "Error when shutting down the object %s:");
                      (DEBUG, "%s")]
              end)%list.
Proof.
  intros Hdot Hobj.
  unfold _find_object, method_has_dot.
  change (name ++ ".__delete__") with (name ++ String "." "__delete__").
  rewrite contains_dot_app, split_dot_app by done.
  unfold _dispatch_delete. mrun. simpl. rewrite Hobj. simpl. rewrite Hobj.
  destruct (_shutdown (objs w o)) as [[[]|e]|]; simpl; rewrite ?Hobj; simpl;
    rewrite ?Hobj; simpl; (eexists; split; [reflexivity|]);
    simpl; rewrite ?app_nil_r; repeat split; try done;
    by rewrite <- app_assoc.
Qed.

(** C7.  A call of [<name>.__delete__] for a hosted object [name] calls the
    object's [_shutdown], removes the name from the table whether or not
    the hook raises (or is missing), logs the failure of the hook, and
    queues no reply, with or without an id in the frame.  The name has no
    dot, as the synthetic names have none, and the frame is one whose
    parameters [_extract_params] accepts. *)
Theorem delete_call_removes_object (item : dict) (name : string) (o : obj_id)
    (args kw : value) (w : world) :
  Py.contains_dot name = false →
  _objects (conn w) !! name = Some o →
  _extract_params (Py.setdefault "id" VNone item)
    = Ok (VStr (name ++ ".__delete__"), args, kw) →
  let r := dispatch_item_single (VDict item) w in
  r.1 = Ok VNone ∧
  _objects (conn r.2) = delete name (_objects (conn w)) ∧
  written r.2 = written w ∧
  shutdowns r.2 =
    (shutdowns w ++ match _shutdown (objs w o) with Some _ => [o] | None => [] end)%list ∧
  log r.2 =
    (log w ++ match _shutdown (objs w o) with
              | Some (Ok _) => []
              | _ => [(ERROR, "Error when shutting down the object %s:");
                      (DEBUG, "%s")]
              end)%list.
Proof.
  intros Hdot Hobj Hex.
  destruct (_find_object_delete name o args kw w Hdot Hobj) as (w' & Hf & H).
  assert (dispatch_item_single (VDict item) w = (Ok VNone, w')) as Hd.
  { unfold dispatch_item_single.
    fold (Py.setdefault "id" VNone item).
    assert (Py.has "method" (Py.setdefault "id" VNone item) = true) as ->.
    { apply _extract_params_method in Hex. unfold Py.has.
      by destruct (Py.get "method" (Py.setdefault "id" VNone item)). }
    rewrite Hex. erewrite (bind_ok (lift _)); [|reflexivity].
    cbv beta iota. by erewrite bind_ok; [|apply Hf]. }
  intros r. subst r. rewrite Hd. by split.
Qed.

Lemma delete_call_removes_object_witness :
  let r := dispatch_item_single (VDict Ex.delete_request) Ex.w_hosted in
  r.1 = Ok VNone ∧
  _objects (conn r.2) = delete "mylist_0001" (_objects (conn Ex.w_hosted)) ∧
  written r.2 = written Ex.w_hosted ∧
  shutdowns r.2 = [1%nat] ∧
  log r.2 = [(ERROR, "Error when shutting down the object %s:"); (DEBUG, "%s")].
Proof.
  exact (delete_call_removes_object Ex.delete_request "mylist_0001" 1%nat
           (VList []) (VDict []) Ex.w_hosted eq_refl eq_refl eq_refl).
Defined.

(** ** Object-scoped requests *)


(** The request for an object that is not hosted raises in
    [_find_object], before the try statement whose handlers send the error
    replies: nothing is queued for it, where an unknown method and a
    failing handler are answered. *)
Example invalid_object_raises :
  dispatch_item_single (VDict Ex.dotted_request) Ex.w0
    = (Raise (Exc "ValueError" "Invalid object identifier"), Ex.w0).
Proof. reflexivity. Qed.

(** The method part ends at the second dot: this request deletes the
    hosted object. *)
Example delete_with_suffix :
  _objects (conn (dispatch_item_single
     (VDict [("method", VStr "mylist_0001.__delete__.x")]) Ex.w_hosted).2) = ∅.
Proof. by vm_compute. Qed.





(** The parts of [mylist_0001.size.x] are [mylist_0001] and [size]: the
    hosted object is found. *)
Example dotted_name_parts :
  take 2 (Py.split_dot "mylist_0001.size.x") = ["mylist_0001"; "size"] ∧
  _find_object (VStr "mylist_0001.size.x") (VList []) (VDict []) Ex.w_hosted
    = (Ok (Some 1%nat), Ex.w_hosted).
Proof. split; reflexivity. Qed.

(** ** Response frames *)

Lemma get_id_setdefault item :
  Py.get "id" (Py.setdefault "id" VNone item)
    = Some (default VNone (Py.get "id" item)).
Proof.
  unfold Py.setdefault, Py.has. destruct (Py.get "id" item) eqn:H.
  - by rewrite H.
  - by rewrite get_set_eq.
Qed.

(** C2, as the document states it, fails on a frame that has a 'method' key
    too: the request with id 5 is pending, yet the frame is served as a
    call of [ping] and the handle never sees it. *)
Lemma response_claim_counterexample :
  ¬ response_claim Ex.both_keys Ex.w_pending.
Proof.
  intros H. specialize (H eq_refl).
  apply (f_equal (λ r, written r.2)) in H. vm_compute in H. discriminate H.
Qed.

(** A response whose id is not pending fails the assertion of
    [dispatch_item_single]. *)
Example stray_response_raises :
  dispatch_item_single (VDict Ex.stray_response) Ex.w0
    = (Raise (Exc "AssertionError" EmptyString), Ex.w0).
Proof. reflexivity. Qed.

(** C2, amended.  A frame with a 'result' key and no 'method' key is looked
    up by its id among the pending requests and handed to [setresponse] of
    the handle found.  When the id is not pending, [dispatch_item_single]
    fails its assertion and changes nothing, and [read_and_dispatch]
    catches that, logs it at debug level and returns False: the frame is
    dropped.  (An id that cannot be hashed raises a TypeError where the
    assertion looks it up.) *)
Theorem response_dispatch (item : dict) (w : world) :
  Py.has "method" item = false →
  Py.has "result" item = true →
  match requests_key (default VNone (Py.get "id" item)) with
  | Raise e => dispatch_item_single (VDict item) w = (Raise e, w)
  | Ok key =>
      match key ≫= (_requests (conn w) !!.) with
      | Some request =>
          dispatch_item_single (VDict item) w
            = (_ ← setresponse request (VDict (Py.setdefault "id" VNone item));
               mret (VBool true)) w
      | None =>
          dispatch_item_single (VDict item) w
            = (Raise (Exc "AssertionError" EmptyString), w) ∧
          ∀ thread condition,
            read_and_dispatch thread condition (Decoded (VDict item)) w
              = (Ok false,
                 match condition with
                 | Some false => w
                 | _ => set_log (log w ++ [(DEBUG, "%s")]) w
                 end)
      end
  end.
Proof.
  intros Hm Hr.
  assert (dispatch_item_single (VDict item) w =
    (id ← lift (Py.getitem (VDict (Py.setdefault "id" VNone item)) (VStr "id"));
     key ← lift (requests_key id);
     reqs ← gets (λ w, _requests (conn w));
     match key ≫= (reqs !!.) with
     | None => raise (Exc "AssertionError" EmptyString)
     | Some request =>
         _ ← setresponse request (VDict (Py.setdefault "id" VNone item));
         mret (VBool true)
     end) w) as Hd.
  { unfold dispatch_item_single.
    assert (Py.has "method" (Py.setdefault "id" VNone item) = false) as ->.
    { unfold Py.has in *. by rewrite get_setdefault. }
    assert (Py.has "result" (Py.setdefault "id" VNone item) = true) as ->.
    { unfold Py.has in *. by rewrite get_setdefault. }
    done. }
  assert (Py.getitem (VDict (Py.setdefault "id" VNone item)) (VStr "id")
          = Ok (default VNone (Py.get "id" item))) as Hg.
  { simpl. by rewrite get_id_setdefault. }
  rewrite Hg in Hd.
  erewrite (bind_ok (lift _)) in Hd; [|reflexivity].
  destruct (requests_key (default VNone (Py.get "id" item))) as [key|e] eqn:Hk.
  - erewrite (bind_ok (lift _)) in Hd; [|reflexivity].
    erewrite (bind_ok (gets _)) in Hd; [|reflexivity].
    destruct (key ≫= (_requests (conn w) !!.)) as [request|] eqn:Hl; [done|].
    split; [done|]. intros thread condition.
    unfold read_and_dispatch. rewrite Hr.
    destruct condition as [[]|]; try done;
      unfold try_except, mbind, M_bind; by rewrite Hd.
  - by erewrite (bind_raise (lift _)) in Hd.
Qed.

Lemma response_dispatch_witness :
  dispatch_item_single (VDict Ex.stray_response) Ex.w0
    = (Raise (Exc "AssertionError" EmptyString), Ex.w0) ∧
  ∀ thread condition,
    read_and_dispatch thread condition (Decoded (VDict Ex.stray_response)) Ex.w0
      = (Ok false,
         match condition with
         | Some false => Ex.w0
         | _ => set_log (log Ex.w0 ++ [(DEBUG, "%s")]) Ex.w0
         end).
Proof. exact (response_dispatch Ex.stray_response Ex.w0 eq_refl eq_refl). Defined.

(** ** Resolved requests *)

Lemma try_except_ok {A} (m : M A) (h : exn → M A) w a w' :
  m w = (Ok a, w') → try_except m h w = (Ok a, w').
Proof. unfold try_except. by intros ->. Qed.

Lemma try_except_raise {A} (m : M A) (h : exn → M A) w e w' :
  m w = (Raise e, w') → try_except m h w = h e w'.
Proof. unfold try_except. by intros ->. Qed.

Lemma has_setdefault k k' v d :
  Py.has k d = true → Py.has k (Py.setdefault k' v d) = true.
Proof.
  unfold Py.setdefault, Py.has. destruct (Py.get k' d) eqn:Hk'; [done|].
  intros H. destruct (String.eqb_spec k k') as [->|Hne].
  - by rewrite Hk' in H.
  - by rewrite get_set_ne.
Qed.

Lemma dispatch_item_single_resolved item w method args kw obj fn w2 :
  resolves item w method args kw obj fn w2 →
  dispatch_item_single (VDict item) w
    = (_ ← call_handler (Py.setdefault "id" VNone item) obj method args kw fn;
       mret (VBool true)) w2.
Proof.
  intros (Hm & Hex & w1 & Hfo & Hfm).
  unfold dispatch_item_single.
  rewrite (has_setdefault _ _ _ _ Hm), Hex.
  erewrite (bind_ok (lift _)); [|reflexivity]. cbv beta iota.
  erewrite bind_ok; [|exact Hfo]. cbv beta iota.
  erewrite bind_ok; [|exact Hfm]. reflexivity.
Qed.

Lemma resolves_outside item w method args kw obj fn w2 :
  resolves item w method args kw obj fn w2 →
  written w2 = written w ∧ self (conn w2) = self (conn w) ∧ objs w2 = objs w.
Proof.
  intros (Hm & Hex & w1 & Hfo & Hfm).
  pose proof (keeps_outside__find_object method args kw w) as Hk1.
  rewrite Hfo in Hk1. apply outside_eq in Hk1 as (Hw1 & Hself1 & Hobjs1).
  pose proof (keeps_outside__find_method obj method args kw w1) as Hk2.
  rewrite Hfm in Hk2. apply outside_eq in Hk2 as (Hw2 & Hself2 & Hobjs2).
  simpl in *. by rewrite Hw2, Hself2, Hobjs2.
Qed.

Lemma setdefault_reply_id item id :
  reply_id item = Some id → Py.setdefault "id" VNone item = item.
Proof.
  intros H. unfold Py.setdefault. by rewrite (reply_id_has _ _ H).
Qed.

Lemma _send_error_text item id msg w :
  reply_id item = Some id → plain id = true →
  _send_error item (VStr msg) w = write (error_frame (VStr msg) id) w.
Proof.
  intros Hid Hp. unfold _send_error. rewrite Hid.
  unfold _send, try_except, mbind, M_bind.
  assert (plain (VDict [("result", VNone); ("error", VStr msg); ("id", id)]) = true) as Hpl.
  { simpl. by rewrite Hp. }
  by rewrite (json_dumps_plain _ w Hpl).
Qed.

Lemma handler_error_reply item id obj method args kw a k e w :
  reply_id item = Some id → plain id = true →
  star_args args kw = Ok (a, k) →
  ∃ w',
    (match e with
     | ServerError msg => _send_error item (VStr msg)
     | _ => err ← _format_exception obj method args kw e;
            _send_error item (VStr err)
     end) w = (Ok tt, w') ∧
    written w' = (written w ++ [error_frame (VStr (error_text e)) id])%list.
Proof.
  intros Hid Hp Hsa. destruct e as [msg|t msg].
  - rewrite (_send_error_text item id msg w Hid Hp).
    exists (write (error_frame (VStr msg) id) w).2.
    split; [done|apply written_write].
  - erewrite bind_ok; [|by eapply _format_exception_returns].
    rewrite (_send_error_text item id _ _ Hid Hp).
    match goal with
    | |- context [write ?f ?w1] => exists (write f w1).2
    end.
    split; [done|]. by rewrite written_write.
Qed.

(** ** Frames with both a 'method' and a 'result' key *)

Lemma get_del_ne k k' d : k ≠ k' → Py.get k (Py.del k' d) = Py.get k d.
Proof.
  intros Hne. induction d as [|[k0 v0] d IH]; simpl; [done|].
  destruct (String.eqb_spec k' k0) as [->|]; simpl.
  - destruct (String.eqb_spec k k0); [done|apply IH].
  - by rewrite IH.
Qed.


Lemma same_request_del item :
  same_request (Py.setdefault "id" VNone item)
    (Py.setdefault "id" VNone (Py.del "result" item)).
Proof.
  intros k Hk. unfold Py.setdefault, Py.has.
  rewrite (get_del_ne "id" "result") by done.
  destruct (Py.get "id" item) eqn:Hid.
  - by rewrite get_del_ne.
  - destruct (String.eqb_spec k "id") as [->|Hne].
    + by rewrite !get_set_eq.
    + by rewrite !get_set_ne, get_del_ne.
Qed.

Lemma _extract_params_same d1 d2 :
  same_request d1 d2 → _extract_params d1 = _extract_params d2.
Proof.
  intros H. unfold _extract_params. by rewrite !H.
Qed.

Lemma reply_id_same d1 d2 : same_request d1 d2 → reply_id d1 = reply_id d2.
Proof. intros H. unfold reply_id. by rewrite H. Qed.

Lemma dispatch_method_same d1 d2 w :
  same_request d1 d2 → Py.has "method" d1 = true →
  Py.setdefault "id" VNone d1 = d1 → Py.setdefault "id" VNone d2 = d2 →
  dispatch_item_single (VDict d1) w = dispatch_item_single (VDict d2) w.
Proof.
  intros H Hm H1 H2.
  assert (Py.has "method" d2 = true) as Hm2.
  { unfold Py.has in *. by rewrite <- H. }
  assert (∀ r, _send_response d1 r = _send_response d2 r) as Hsr.
  { intros r. unfold _send_response. by rewrite (reply_id_same d1 d2 H). }
  assert (∀ r, _send_error d1 r = _send_error d2 r) as Hse.
  { intros r. unfold _send_error. by rewrite (reply_id_same d1 d2 H). }
  unfold dispatch_item_single. rewrite H1, H2, Hm, Hm2.
  rewrite (_extract_params_same d1 d2 H).
  apply bind_ext; [done|]. intros [[method args] kw] w1.
  apply bind_ext; [done|]. intros [obj|] w2; [|done].
  apply bind_ext; [done|]. intros fn w3.
  apply bind_ext; [|done]. intros w4.
  apply try_except_ext.
  - intros w5. destruct fn as [body|body|v].
    + apply bind_ext; [done|]. intros [a k] w6. destruct (body a k) as [ys failure].
      apply bind_ext; [|done]. intros w7. apply for_each_ext. intros. by rewrite Hsr.
    + apply bind_ext; [done|]. intros [a k] w6.
      apply bind_ext; [done|]. intros. by rewrite Hsr.
    + by rewrite Hse.
  - intros [msg|t msg] w5; [by rewrite Hse|].
    apply bind_ext; [done|]. intros. by rewrite Hse.
Qed.

Lemma setdefault_idem k v d :
  Py.setdefault k v (Py.setdefault k v d) = Py.setdefault k v d.
Proof.
  unfold Py.setdefault. destruct (Py.has k d) eqn:Hh.
  - by rewrite Hh.
  - unfold Py.has. by rewrite get_set_eq.
Qed.

Lemma dispatch_item_single_setdefault d w :
  dispatch_item_single (VDict (Py.setdefault "id" VNone d)) w =
  dispatch_item_single (VDict d) w.
Proof. unfold dispatch_item_single. by rewrite setdefault_idem. Qed.


Lemma keeps_pending_dump_object v : keeps pending (dump_object v).
Proof. unfold dump_object, _dump_remoteobject, get_id. keeps_tac. Qed.

Lemma keeps_pending__send v : keeps pending (_send v).
Proof.
  unfold _send, write, _log. keeps_tac.
  apply keeps_json_dumps, keeps_pending_dump_object.
Qed.

Lemma keeps_pending_dispatch_method item :
  Py.has "method" item = true →
  keeps pending (dispatch_item_single (VDict item)).
Proof.
  intros Hm. unfold dispatch_item_single.
  assert (Py.has "method" (Py.setdefault "id" VNone item) = true) as ->.
  { unfold Py.has in *. by rewrite get_setdefault. }
  unfold _find_object, _find_method, _dispatch_delete, _format_exception,
    _send_response, _send_error, _log.
  keeps_tac; apply keeps_pending__send.
Qed.

(** C10.  A frame with both a 'method' and a 'result' key is handled as the
    call of the method and not as a response.  [dispatch_item_single]
    handles it exactly as the same frame without its 'result' key, and
    leaves the pending requests and their handles alone, also when the id
    of the frame is that of a pending request.  When the method resolves
    to a callable, the callable is called and the frame is answered under
    its id: with the result when the callable returns (JSON data), with
    the error when it raises; [dispatch_item_single] returns True.  And
    [read_and_dispatch] runs this dispatch itself, in the reader, whether
    or not threads were asked for and whether or not the connection is
    threaded (unless its condition says no, and it returns False at once):
    it returns True when the dispatch returns, logs and returns False when
    it raises, and starts no thread. *)
Theorem method_takes_precedence (item : dict) (w : world) :
  Py.has "method" item = true →
  Py.has "result" item = true →
  dispatch_item_single (VDict item) w
    = dispatch_item_single (VDict (Py.del "result" item)) w ∧
  pending (dispatch_item_single (VDict item) w).2 = pending w ∧
  (∀ id req_method args kw obj body a k w2,
     reply_id item = Some id →
     plain id = true →
     resolves item w req_method args kw obj (Callable body) w2 →
     star_args args kw = Ok (a, k) →
     match body a k with
     | Ok r =>
         plain r = true →
         ∃ w', dispatch_item_single (VDict item) w = (Ok (VBool true), w') ∧
               written w' = (written w ++ [response_frame r id])%list
     | Raise e =>
         ∃ w', dispatch_item_single (VDict item) w = (Ok (VBool true), w') ∧
               written w'
                 = (written w ++ [error_frame (VStr (error_text e)) id])%list
     end) ∧
  ∀ thread condition,
    read_and_dispatch thread condition (Decoded (VDict item)) w
      = match condition with
        | Some false => (Ok false, w)
        | _ =>
            let r := dispatch_item_single (VDict item) w in
            match r.1 with
            | Ok _ => (Ok true, r.2)
            | Raise _ => (Ok false, set_log (log r.2 ++ [(DEBUG, "%s")]) r.2)
            end
        end ∧
    threads (read_and_dispatch thread condition (Decoded (VDict item)) w).2
      = threads w.
Proof.
  intros Hm Hr. split; [|split; [|split]].
  - rewrite <- (dispatch_item_single_setdefault item),
      <- (dispatch_item_single_setdefault (Py.del _ _)).
    apply dispatch_method_same.
    + apply same_request_del.
    + unfold Py.has in *. by rewrite get_setdefault.
    + apply setdefault_idem.
    + apply setdefault_idem.
  - by apply keeps_pending_dispatch_method.
  - intros id req_method args kw obj body a k w2 Hid Hp Hres Hsa.
    destruct (resolves_outside _ _ _ _ _ _ _ _ Hres) as (Hw2 & _).
    rewrite (dispatch_item_single_resolved _ _ _ _ _ _ _ _ Hres).
    rewrite (setdefault_reply_id item id Hid).
    destruct (body a k) as [r|e] eqn:Hbody.
    + intros Hpr.
      exists (write (response_frame r id) w2).2. split.
      * erewrite bind_ok; [reflexivity|].
        unfold call_handler. apply try_except_ok. rewrite Hsa.
        erewrite (bind_ok (lift _)); [|reflexivity]. cbv beta iota.
        rewrite Hbody.
        erewrite (bind_ok (lift _)); [|reflexivity].
        unfold _send_response. rewrite Hid.
        unfold _send. erewrite bind_ok; [reflexivity|].
        apply try_except_ok. apply json_dumps_plain. simpl.
        by rewrite Hpr, Hp.
      * by rewrite written_write, Hw2.
    + destruct (handler_error_reply item id obj req_method args kw a k e w2
                  Hid Hp Hsa) as (w' & Hh & Hw').
      exists w'. split.
      * erewrite bind_ok; [reflexivity|].
        unfold call_handler. erewrite try_except_raise; cycle 1.
        { rewrite Hsa.
          erewrite (bind_ok (lift _)); [|reflexivity]. cbv beta iota.
          rewrite Hbody. by erewrite (bind_raise (lift _)). }
        exact Hh.
      * by rewrite Hw', Hw2.
  - intros thread condition.
    assert (read_and_dispatch thread condition (Decoded (VDict item)) w
      = match condition with
        | Some false => (Ok false, w)
        | _ =>
            let r := dispatch_item_single (VDict item) w in
            match r.1 with
            | Ok _ => (Ok true, r.2)
            | Raise _ => (Ok false, set_log (log r.2 ++ [(DEBUG, "%s")]) r.2)
            end
        end) as Heq.
    { unfold read_and_dispatch. rewrite Hr.
      destruct condition as [[]|]; [|done|];
        unfold try_except, mbind, M_bind;
        by destruct (dispatch_item_single (VDict item) w) as [[v|e] w']. }
    split; [done|]. rewrite Heq. cbv zeta.
    assert (keeps threads (dispatch_item_single (VDict item))) as Hd.
    { intros w'. pose proof (keeps_pending_dispatch_method item Hm w') as Hp.
      unfold pending in Hp. by injection Hp. }
    specialize (Hd w).
    destruct condition as [[]|]; [|done|];
      by destruct (dispatch_item_single (VDict item) w) as [[v|e] w'].
Qed.

Lemma method_takes_precedence_witness :
  let w := Ex2.w_pending_threaded in
  let r := dispatch_item_single (VDict Ex.both_keys) w in
  r = dispatch_item_single (VDict (Py.del "result" Ex.both_keys)) w ∧
  pending r.2 = pending w ∧
  (∃ w', r = (Ok (VBool true), w') ∧
         written w' = [response_frame (VStr "pong") (VInt 5)]) ∧
  ∀ thread,
    read_and_dispatch thread None (Decoded (VDict Ex.both_keys)) w
      = (Ok true, r.2) ∧
    threads (read_and_dispatch thread None (Decoded (VDict Ex.both_keys)) w).2
      = [].
Proof.
  destruct (method_takes_precedence Ex.both_keys Ex2.w_pending_threaded
              eq_refl eq_refl) as (Hsame & Hpending & Hcall & Hreader).
  split; [exact Hsame|]. split; [exact Hpending|]. split.
  - refine (Hcall (VInt 5) (VStr "ping") (VList []) (VDict []) 0%nat
              (λ a k, Ok (VStr "pong")) [] [] Ex2.w_pending_threaded
              eq_refl eq_refl _ eq_refl eq_refl).
    split; [reflexivity|]. split; [reflexivity|].
    exists Ex2.w_pending_threaded. split; reflexivity.
  - intros thread. exact (Hreader thread None).
Defined.

(** The frame with both keys is answered like a request: the reply of
    [ping] is queued under its id, and the pending request 5 stays. *)
Example both_keys_answered :
  let r := dispatch_item_single (VDict Ex.both_keys) Ex.w_pending in
  r.1 = Ok (VBool true) ∧
  written r.2 = [response_frame (VStr "pong") (VInt 5)] ∧
  _requests (conn r.2) !! 5 = Some 0%nat.
Proof. done. Qed.

(** ** Synthetic names are told apart by their number *)

Lemma after_underscore_app a h :
  has_underscore h = false → after_underscore (a ++ String "_" h) = h.
Proof.
  intros Hh. induction a as [|c a IH]; simpl.
  - by rewrite Hh.
  - assert (has_underscore (a ++ String "_" h) = true) as ->; [|done].
    clear. induction a as [|c a IH]; simpl; [done|].
    by destruct (Ascii.eqb c "_").
Qed.

Lemma has_underscore_app a b :
  has_underscore (a ++ b) = has_underscore a || has_underscore b.
Proof.
  induction a as [|c a IH]; simpl; [done|]. by destruct (Ascii.eqb c "_").
Qed.

Lemma has_underscore_zeros k : has_underscore (Py.zeros k) = false.
Proof. induction k; simpl; done. Qed.

Lemma has_underscore_uint d :
  has_underscore (HexadecimalString.NilEmpty.string_of_uint d) = false.
Proof. induction d; simpl; done. Qed.

Lemma has_underscore_hex n : has_underscore (Py.hex n) = false.
Proof.
  unfold Py.hex, HexadecimalString.NilZero.string_of_uint.
  destruct (N.to_hex_uint n); simpl; try done; apply has_underscore_uint.
Qed.

Lemma uint_of_string_zeros k s :
  HexadecimalString.NilEmpty.uint_of_string (Py.zeros k ++ s)
    = Nat.iter k Hexadecimal.D0 <$> HexadecimalString.NilEmpty.uint_of_string s.
Proof.
  induction k as [|k IH].
  - change (Py.zeros 0 ++ s) with s.
    by destruct (HexadecimalString.NilEmpty.uint_of_string s).
  - change (Py.zeros (S k) ++ s) with (String "0" (Py.zeros k ++ s)).
    simpl. rewrite IH.
    by destruct (HexadecimalString.NilEmpty.uint_of_string s).
Qed.

Lemma of_hex_uint_zeros k d :
  N.of_hex_uint (Nat.iter k Hexadecimal.D0 d) = N.of_hex_uint d.
Proof. induction k as [|k IH]; simpl; [done|]. exact IH. Qed.

Lemma decode_string_of_uint d :
  N.of_hex_uint <$> HexadecimalString.NilEmpty.uint_of_string
                      (HexadecimalString.NilZero.string_of_uint d)
    = Some (N.of_hex_uint d).
Proof.
  destruct d; [done|..];
    match goal with
    | |- context [HexadecimalString.NilZero.string_of_uint ?d] =>
        change (HexadecimalString.NilZero.string_of_uint d)
          with (HexadecimalString.NilEmpty.string_of_uint d)
    end;
    by rewrite HexadecimalString.NilEmpty.usu.
Qed.

Lemma decode_pad_hex k n :
  N.of_hex_uint <$> HexadecimalString.NilEmpty.uint_of_string (Py.pad k (Py.hex n))
    = Some n.
Proof.
  unfold Py.pad. rewrite uint_of_string_zeros.
  pose proof (decode_string_of_uint (N.to_hex_uint n)) as H.
  rewrite HexadecimalN.Unsigned.of_to in H. fold (Py.hex n) in H.
  destruct (HexadecimalString.NilEmpty.uint_of_string (Py.hex n)) as [d|]; [|done].
  simpl in *. injection H as H. by rewrite of_hex_uint_zeros, H.
Qed.

Lemma instance_number_instancename cls n :
  0 ≤ n → instance_number (instancename cls n) = Some (Z.to_N n).
Proof.
  intros Hn. unfold instance_number, instancename, Py.format_04x.
  assert ((n <? 0) = false) as -> by lia.
  change (Py.lower cls ++ "_" ++ Py.pad 4 (Py.hex (Z.to_N n)))
    with (Py.lower cls ++ String "_" (Py.pad 4 (Py.hex (Z.to_N n)))).
  rewrite after_underscore_app; [apply decode_pad_hex|].
  unfold Py.pad. by rewrite has_underscore_app, has_underscore_zeros, has_underscore_hex.
Qed.

Lemma instancename_inj cls1 cls2 n1 n2 :
  0 ≤ n1 → 0 ≤ n2 → instancename cls1 n1 = instancename cls2 n2 → n1 = n2.
Proof.
  intros H1 H2 Heq. apply (f_equal instance_number) in Heq.
  rewrite !instance_number_instancename in Heq by done.
  injection Heq as Heq. lia.
Qed.

(** ** Hosted objects *)

Lemma names_bounded_init cid h thr : names_bounded (Connection__init__ cid h thr).
Proof. split; [done|]. intros name o H. simpl in H. by rewrite lookup_empty in H. Qed.

Lemma names_bounded_fresh c cls :
  names_bounded c → _objects c !! instancename cls (_id c + 1) = None.
Proof.
  intros [Hid Hb]. destruct (_objects c !! _) as [o'|] eqn:Hl; [|done].
  destruct (Hb _ _ Hl) as (n & Hn & Hle).
  rewrite instance_number_instancename in Hn by lia. injection Hn as <-. lia.
Qed.

Lemma names_bounded_insert c cls o :
  names_bounded c →
  names_bounded
    (set_objects (<[instancename cls (_id c + 1) := o]> (_objects c))
       (set_id (_id c + 1) c)).
Proof.
  intros [Hid Hb]. split; simpl; [lia|]. intros name o' Hl.
  destruct (decide (instancename cls (_id c + 1) = name)) as [<-|Hne].
  - exists (Z.to_N (_id c + 1)). split; [|lia].
    apply instance_number_instancename. lia.
  - rewrite lookup_insert_ne in Hl by done.
    destruct (Hb _ _ Hl) as (n & Hn & Hle). exists n. split; [done|lia].
Qed.

(** The first serialization of an object on a connection. *)
Lemma _dump_remoteobject_first o w :
  registered_name o w = None →
  let name := instancename (classname (objs w o)) (_id (conn w) + 1) in
  let ro := default ∅ (remoteobjects w !! o) in
  _dump_remoteobject o w
    = (Ok (VDict [("__remoteobject__", VStr name)]),
       set_remoteobjects (<[o := <[self (conn w) := name]> ro]> (remoteobjects w))
         (with_conn (λ c, set_objects (<[name := o]> (_objects c))
                            (set_id (_id c + 1) c)) w)).
Proof.
  unfold registered_name. intros Hreg. simpl.
  unfold _dump_remoteobject, get_id. mrun.
  destruct (remoteobjects w !! o) as [ro|] eqn:Hro; simpl in *.
  - rewrite Hreg. simpl. done.
  - rewrite lookup_empty. simpl. unfold set_remoteobjects, with_conn. simpl.
    by rewrite insert_insert_eq.
Qed.

(** A later serialization. *)
Lemma _dump_remoteobject_again o w name :
  registered_name o w = Some name →
  _dump_remoteobject o w = (Ok (VDict [("__remoteobject__", VStr name)]), w).
Proof.
  unfold registered_name. intros Hreg.
  unfold _dump_remoteobject. mrun.
  destruct (remoteobjects w !! o) as [ro|] eqn:Hro; simpl in *; [|done].
  by rewrite Hreg.
Qed.

(** C9.  Serializing a user object twice on a connection gives the same
    synthetic name both times, and the second serialization changes
    nothing.  The first serialization of the object on the connection adds
    exactly one entry to the table of hosted objects, under a name that was
    not in it; a connection whose id counter stands elsewhere gives the
    same object another name.  The names of the table are those the
    connection made from its ids, which every serialization maintains. *)
Theorem remoteobject_registration (o : obj_id) (w : world) :
  names_bounded (conn w) →
  ∃ name w1,
    _dump_remoteobject o w = (Ok (VDict [("__remoteobject__", VStr name)]), w1) ∧
    _dump_remoteobject o w1 = (Ok (VDict [("__remoteobject__", VStr name)]), w1) ∧
    names_bounded (conn w1) ∧
    (∀ name', registered_name o w = Some name' → name' = name ∧ w1 = w) ∧
    (registered_name o w = None →
       _objects (conn w) !! name = None ∧
       _objects (conn w1) = <[name := o]> (_objects (conn w)) ∧
       size (_objects (conn w1)) = S (size (_objects (conn w))) ∧
       ∀ c2 : Connection,
         names_bounded c2 →
         _id c2 ≠ _id (conn w) →
         registered_name o (with_conn (λ _, c2) w1) = None →
         ∃ name2 w2,
           _dump_remoteobject o (with_conn (λ _, c2) w1)
             = (Ok (VDict [("__remoteobject__", VStr name2)]), w2) ∧
           name2 ≠ name).
Proof.
  intros Hb. destruct (registered_name o w) as [name|] eqn:Hreg.
  - exists name, w. rewrite !(_dump_remoteobject_again o w name Hreg).
    split; [done|]. split; [done|]. split; [done|]. split; [|done].
    by intros ? [= <-].
  - pose proof (_dump_remoteobject_first o w Hreg) as Hfirst. simpl in Hfirst.
    eexists _, _. split; [exact Hfirst|]. split; [|split; [|split; [done|]]].
    + apply _dump_remoteobject_again. unfold registered_name. simpl.
      rewrite lookup_insert_eq. simpl. by rewrite lookup_insert_eq.
    + simpl. by apply names_bounded_insert.
    + intros _. split; [by apply names_bounded_fresh|]. split; [done|].
      split; [simpl; by rewrite map_size_insert_None by (by apply names_bounded_fresh)|].
      intros c2 Hb2 Hid2 Hreg2.
      pose proof (_dump_remoteobject_first o _ Hreg2) as Hsecond. simpl in Hsecond.
      eexists _, _. split; [exact Hsecond|].
      intros Heq. apply instancename_inj in Heq; [lia|..].
      * destruct Hb2. lia.
      * destruct Hb. lia.
Qed.

Lemma remoteobject_registration_witness :
  names_bounded (conn Ex.w0) ∧
  ∃ name w1,
    _dump_remoteobject 1%nat Ex.w0
      = (Ok (VDict [("__remoteobject__", VStr name)]), w1) ∧
    _dump_remoteobject 1%nat w1
      = (Ok (VDict [("__remoteobject__", VStr name)]), w1) ∧
    names_bounded (conn w1) ∧
    (∀ name', registered_name 1%nat Ex.w0 = Some name' → name' = name ∧ w1 = Ex.w0) ∧
    (registered_name 1%nat Ex.w0 = None →
       _objects (conn Ex.w0) !! name = None ∧
       _objects (conn w1) = <[name := 1%nat]> (_objects (conn Ex.w0)) ∧
       size (_objects (conn w1)) = S (size (_objects (conn Ex.w0))) ∧
       ∀ c2 : Connection,
         names_bounded c2 →
         _id c2 ≠ _id (conn Ex.w0) →
         registered_name 1%nat (with_conn (λ _, c2) w1) = None →
         ∃ name2 w2,
           _dump_remoteobject 1%nat (with_conn (λ _, c2) w1)
             = (Ok (VDict [("__remoteobject__", VStr name2)]), w2) ∧
           name2 ≠ name).
Proof.
  assert (names_bounded (conn Ex.w0)) as H.
  { split; [simpl; lia|]. intros name o Hl. simpl in Hl.
    rewrite lookup_empty in Hl. discriminate Hl. }
  split; [exact H|].
  exact (remoteobject_registration 1%nat Ex.w0 H).
Defined.

(** The names of the scenario: [mylist_0001] on a fresh connection, and
    [mylist_0008] on one that has handed out seven ids. *)
Example remoteobject_names :
  (_dump_remoteobject 1%nat Ex.w0).1
    = Ok (VDict [("__remoteobject__", VStr "mylist_0001")]) ∧
  (_dump_remoteobject 1%nat
     (with_conn (λ _, mkConnection 2%nat None 7 ∅ ∅ false [])
        (_dump_remoteobject 1%nat Ex.w0).2)).1
    = Ok (VDict [("__remoteobject__", VStr "mylist_0008")]).
Proof. split; reflexivity. Qed.

(** ** The invariant of the table of hosted objects *)

Section preserves.
Context (I : world → Prop).

Lemma preserves_ret {A} (a : A) : preserves I (mret a).
Proof. by intros w. Qed.

Lemma preserves_raise {A} (e : exn) : preserves I (raise (A := A) e).
Proof. by intros w. Qed.

Lemma preserves_lift {A} (r : result A) : preserves I (lift r).
Proof. by intros w. Qed.

Lemma preserves_gets {A} (g : world → A) : preserves I (gets g).
Proof. by intros w. Qed.

Lemma preserves_modify (g : world → world) :
  (∀ w, I w → I (g w)) → preserves I (modify g).
Proof. intros H w. apply H. Qed.

Lemma preserves_bind {A C} (m : M A) (k : A → M C) :
  preserves I m → (∀ a, preserves I (k a)) → preserves I (m ≫= k).
Proof.
  intros Hm Hk w Hw. unfold mbind, M_bind. specialize (Hm w Hw).
  destruct (m w) as [[a|e] w']; simpl in *; [|done]. by apply Hk.
Qed.

Lemma preserves_try_except {A} (m : M A) (h : exn → M A) :
  preserves I m → (∀ e, preserves I (h e)) → preserves I (try_except m h).
Proof.
  intros Hm Hh w Hw. unfold try_except. specialize (Hm w Hw).
  destruct (m w) as [[a|e] w']; simpl in *; [done|]. by apply Hh.
Qed.

Lemma preserves_for_each {A} (g : A → M unit) (l : list A) :
  (∀ x, preserves I (g x)) → preserves I (for_each g l).
Proof.
  intros Hg. induction l as [|x l IH]; simpl; [apply preserves_ret|].
  apply preserves_bind; auto.
Qed.
End preserves.

Ltac preserves_step :=
  match goal with
  | |- preserves _ (mret _) => apply preserves_ret
  | |- preserves _ (raise _) => apply preserves_raise
  | |- preserves _ (lift _) => apply preserves_lift
  | |- preserves _ (gets _) => apply preserves_gets
  | |- preserves _ (_ ≫= _) => apply preserves_bind; [|intros]
  | |- preserves _ (try_except _ _) => apply preserves_try_except; [|intros]
  | |- preserves _ (for_each _ _) => apply preserves_for_each; intros
  | |- preserves _ (modify _) =>
      apply preserves_modify; let H := fresh in intros ? H; exact H
  | |- preserves _ (match ?x with _ => _ end) => destruct x
  | |- preserves _ (let '(_, _) := ?x in _) => destruct x
  | |- preserves _ _ => assumption
  end.

Ltac preserves_tac := repeat preserves_step.

Lemma preserves_json_dumps (I : world → Prop) :
  (∀ v, preserves I (dump_object v)) → ∀ v, preserves I (json_dumps v).
Proof.
  intros Hd v. induction v as [| | | | |l IH|d IH| | |] using value_ind';
    try (apply preserves_ret); try (apply Hd).
  - simpl. apply preserves_bind; [|intros; apply preserves_ret].
    induction IH as [|x xs Hx _ IHxs]; preserves_tac.
  - simpl. apply preserves_bind; [|intros; apply preserves_ret].
    induction IH as [|[k x] xs Hx _ IHxs]; preserves_tac.
Qed.

Lemma bounded_get_id : preserves bounded get_id.
Proof.
  intros w [Hid Hb]. split; simpl; [lia|]. intros name o Hl.
  destruct (Hb name o Hl) as (n & Hn & Hle). exists n. split; [done|lia].
Qed.

Lemma bounded__dump_remoteobject o : preserves bounded (_dump_remoteobject o).
Proof.
  intros w Hb. destruct (registered_name o w) as [name|] eqn:Hreg.
  - by rewrite (_dump_remoteobject_again o w name Hreg).
  - pose proof (_dump_remoteobject_first o w Hreg) as Hfirst. simpl in Hfirst.
    rewrite Hfirst. by apply names_bounded_insert.
Qed.

Lemma bounded_dump_object v : preserves bounded (dump_object v).
Proof. unfold dump_object. preserves_tac. apply bounded__dump_remoteobject. Qed.

Lemma bounded__send v : preserves bounded (_send v).
Proof.
  unfold _send, write, _log. preserves_tac.
  apply preserves_json_dumps, bounded_dump_object.
Qed.

Lemma names_bounded_delete c name :
  names_bounded c → names_bounded (set_objects (delete name (_objects c)) c).
Proof.
  intros [Hid Hb]. split; [done|]. intros name' o' Hl. simpl in Hl.
  apply lookup_delete_Some in Hl as [_ Hl]. by apply Hb in Hl.
Qed.

Lemma bounded__dispatch_delete name : preserves bounded (_dispatch_delete name).
Proof.
  intros w Hb. unfold _dispatch_delete. mrun. simpl.
  destruct (_objects (conn w) !! name) as [o|] eqn:Hobj; simpl; [|by rewrite Hobj].
  destruct (_shutdown (objs w o)) as [[[]|e]|]; simpl; rewrite ?Hobj; simpl;
    rewrite ?Hobj; simpl; by apply names_bounded_delete.
Qed.

Lemma bounded_dispatch_item_single item :
  preserves bounded (dispatch_item_single item).
Proof.
  unfold dispatch_item_single, _find_object, _find_method, _format_exception,
    _send_response, _send_error, setresponse, delrequest, _log.
  preserves_tac;
    try apply bounded__send; try apply bounded__dispatch_delete.
Qed.

Lemma bounded_read_and_dispatch thread condition inp :
  preserves bounded (read_and_dispatch thread condition inp).
Proof.
  assert (∀ item, preserves bounded (dispatch_item_threaded item)) as Ht.
  { intros item. unfold dispatch_item_threaded. preserves_tac.
    apply bounded_dispatch_item_single. }
  unfold read_and_dispatch, _log.
  destruct thread; preserves_tac;
    try apply Ht; try apply bounded_dispatch_item_single.
Qed.

Lemma bounded_proxy st name args kwargs :
  preserves bounded (proxy st name args kwargs).
Proof.
  unfold proxy, Request__init__, addrequest, write. preserves_tac;
    try apply bounded_get_id;
    try (apply preserves_json_dumps, bounded_dump_object).
Qed.

(** The names of the table are made from the ids of the connection in
    every state the connection reaches from its creation. *)
Lemma bounded_init cid h thr os :
  bounded (mkWorld (Connection__init__ cid h thr) os ∅ ∅ [] [] []).
Proof. apply names_bounded_init. Qed.

(** ** Replies to requests *)

(** X1.  A request with an id (one that is not null, and JSON data) whose
    method resolves to a plain callable gets exactly one response frame
    when the callable returns a value the codec can encode on this
    connection: the frame carries the encoded result, a null error and the
    id of the request, and [dispatch_item_single] returns True. *)
Theorem callable_response (item : dict) (id method args kw : value)
    (obj : obj_id) (body : list value → dict → result value)
    (a : list value) (k : dict) (r : value) (w w2 : world) :
  reply_id item = Some id →
  plain id = true →
  resolves item w method args kw obj (Callable body) w2 →
  star_args args kw = Ok (a, k) →
  body a k = Ok r →
  serializable (self (conn w)) (objs w) r = true →
  ∃ r' w',
    dispatch_item_single (VDict item) w = (Ok (VBool true), w') ∧
    written w' = (written w ++ [response_frame r' id])%list ∧
    encodes r r'.
Proof.
  intros Hid Hp Hres Hsa Hbody Hs.
  destruct (resolves_outside _ _ _ _ _ _ _ _ Hres) as (Hw2 & Hself2 & Hobjs2).
  destruct (_send_response_frame r id w2) as (r' & w' & Hsend & Henc & Hw' & _);
    [by rewrite Hself2, Hobjs2|done|].
  exists r', w'. split; [|split; [|done]].
  - rewrite (dispatch_item_single_resolved _ _ _ _ _ _ _ _ Hres).
    rewrite (setdefault_reply_id item id Hid).
    erewrite bind_ok; [reflexivity|].
    unfold call_handler. apply try_except_ok. rewrite Hsa.
    erewrite (bind_ok (lift _)); [|reflexivity]. cbv beta iota. rewrite Hbody.
    erewrite (bind_ok (lift _)); [|reflexivity].
    unfold _send_response. rewrite Hid. exact Hsend.
  - by rewrite Hw', Hw2.
Qed.

Lemma callable_response_witness :
  ∃ r' w',
    dispatch_item_single (VDict Ex2.echo_request) Ex.w0
      = (Ok (VBool true), w') ∧
    written w' = (written Ex.w0 ++ [response_frame r' (VInt 1)])%list ∧
    encodes (VStr "hi") r'.
Proof.
  refine (callable_response Ex2.echo_request (VInt 1) (VStr "echo")
            (VList [VStr "hi"]) (VDict []) 0%nat
            (λ a k, match a with
                    | [x] => Ok x
                    | _ => Raise (TypeError "echo() takes exactly 1 argument")
                    end)
            [VStr "hi"] [] (VStr "hi") Ex.w0 Ex.w0
            eq_refl eq_refl _ eq_refl eq_refl eq_refl).
  split; [reflexivity|]. split; [reflexivity|].
  exists Ex.w0. split; reflexivity.
Defined.

(** X2.  When the callable of such a request raises, the exception does not
    leave the dispatcher: exactly one error frame is queued, with a null
    result and the id of the request; its error is the message of a
    ServerError as it is, and the type and the message of any other
    exception. *)
Theorem handler_exception_reply (item : dict) (id method args kw : value)
    (obj : obj_id) (body : list value → dict → result value)
    (a : list value) (k : dict) (e : exn) (w w2 : world) :
  reply_id item = Some id →
  plain id = true →
  resolves item w method args kw obj (Callable body) w2 →
  star_args args kw = Ok (a, k) →
  body a k = Raise e →
  ∃ w',
    dispatch_item_single (VDict item) w = (Ok (VBool true), w') ∧
    written w' = (written w ++ [error_frame (VStr (error_text e)) id])%list.
Proof.
  intros Hid Hp Hres Hsa Hbody.
  destruct (resolves_outside _ _ _ _ _ _ _ _ Hres) as (Hw2 & _).
  destruct (handler_error_reply item id obj method args kw a k e w2 Hid Hp Hsa)
    as (w' & Hh & Hw').
  exists w'. split.
  - rewrite (dispatch_item_single_resolved _ _ _ _ _ _ _ _ Hres).
    rewrite (setdefault_reply_id item id Hid).
    erewrite bind_ok; [reflexivity|].
    unfold call_handler. erewrite try_except_raise; [exact Hh|]. rewrite Hsa.
    erewrite (bind_ok (lift _)); [|reflexivity]. cbv beta iota. rewrite Hbody.
    by erewrite (bind_raise (lift _)).
  - by rewrite Hw', Hw2.
Qed.

Lemma handler_exception_reply_witness :
  ∃ w',
    dispatch_item_single (VDict Ex2.boom_request) Ex.w0
      = (Ok (VBool true), w') ∧
    written w'
      = (written Ex.w0 ++ [error_frame (VStr "RuntimeError: x") (VInt 3)])%list.
Proof.
  refine (handler_exception_reply Ex2.boom_request (VInt 3) (VStr "boom")
            (VList []) (VDict []) 0%nat
            (λ a k, Raise (Exc "RuntimeError" "x"))
            [] [] (Exc "RuntimeError" "x") Ex.w0 Ex.w0
            eq_refl eq_refl _ eq_refl eq_refl).
  split; [reflexivity|]. split; [reflexivity|].
  exists Ex.w0. split; reflexivity.
Defined.

(** X3.  A generator function that fails after it has yielded some values:
    the request gets one response frame for each value yielded before the
    failure, in the order of the yields, and then one error frame for the
    failure, all with the id of the request. *)
Theorem generator_failure (item : dict) (id method args kw : value)
    (obj : obj_id) (body : list value → dict → list value * option exn)
    (a : list value) (k : dict) (ys : list value) (e : exn) (w w2 : world) :
  reply_id item = Some id →
  plain id = true →
  resolves item w method args kw obj (GeneratorFunction body) w2 →
  star_args args kw = Ok (a, k) →
  body a k = (ys, Some e) →
  forallb (serializable (self (conn w)) (objs w)) ys = true →
  ∃ frames w',
    dispatch_item_single (VDict item) w = (Ok (VBool true), w') ∧
    written w'
      = (written w ++ frames ++ [error_frame (VStr (error_text e)) id])%list ∧
    Forall2 (λ y f, ∃ r, encodes y r ∧ f = response_frame r id) ys frames.
Proof.
  intros Hid Hp Hres Hsa Hbody Hs.
  destruct (resolves_outside _ _ _ _ _ _ _ _ Hres) as (Hw2 & Hself2 & Hobjs2).
  destruct (send_responses item id ys w2 Hid Hp) as (frames & w3 & Hloop & Hw3 & Hall).
  { by rewrite Hself2, Hobjs2. }
  destruct (handler_error_reply item id obj method args kw a k e w3 Hid Hp Hsa)
    as (w' & Hh & Hw').
  exists frames, w'. split; [|split; [|done]].
  - rewrite (dispatch_item_single_resolved _ _ _ _ _ _ _ _ Hres).
    rewrite (setdefault_reply_id item id Hid).
    erewrite bind_ok; [reflexivity|].
    unfold call_handler. erewrite try_except_raise; [exact Hh|]. rewrite Hsa.
    erewrite (bind_ok (lift _)); [|reflexivity]. cbv beta iota. rewrite Hbody.
    by erewrite (bind_ok (for_each _ _)); [|exact Hloop].
  - by rewrite Hw', Hw3, Hw2, <- app_assoc.
Qed.

Lemma generator_failure_witness :
  ∃ frames w',
    dispatch_item_single (VDict Ex2.stream_request) Ex2.w0
      = (Ok (VBool true), w') ∧
    written w'
      = (written Ex2.w0 ++ frames
           ++ [error_frame (VStr "ValueError: bad") (VInt 9)])%list ∧
    Forall2 (λ y f, ∃ r, encodes y r ∧ f = response_frame r (VInt 9))
      [VInt 1; VInt 2] frames.
Proof.
  refine (generator_failure Ex2.stream_request (VInt 9) (VStr "stream")
            (VList []) (VDict []) 0%nat
            (λ a k, ([VInt 1; VInt 2], Some (Exc "ValueError" "bad")))
            [] [] [VInt 1; VInt 2] (Exc "ValueError" "bad") Ex2.w0 Ex2.w0
            eq_refl eq_refl _ eq_refl eq_refl eq_refl).
  split; [reflexivity|]. split; [reflexivity|].
  exists Ex2.w0. split; reflexivity.
Defined.

(** X4.  When [get_method] of the resolved object raises for the method of a
    request (an unknown method), the request is answered with one error
    frame that carries the text of the exception.  The diagnostic is
    tested for truth before it is sent: when the text is empty (a
    ServerError without a message) nothing is queued, and the request stays
    unanswered although it has an id. *)
Theorem failed_lookup_reply (item : dict) (id req_method args kw : value)
    (obj : obj_id) (gm : value → result method) (a : list value) (k : dict)
    (e : exn) (w w1 : world) :
  reply_id item = Some id →
  plain id = true →
  Py.has "method" item = true →
  _extract_params item = Ok (req_method, args, kw) →
  _find_object req_method args kw w = (Ok (Some obj), w1) →
  get_method (objs w obj) = Some gm →
  gm req_method = Raise e →
  star_args args kw = Ok (a, k) →
  ∃ w',
    dispatch_item_single (VDict item) w = (Ok (VBool true), w') ∧
    written w'
      = (written w ++
         if String.eqb (error_text e) EmptyString then []
         else [error_frame (VStr (error_text e)) id])%list.
Proof.
  intros Hid Hp Hm Hex Hfo Hgm He Hsa.
  pose proof (keeps_outside__find_object req_method args kw w) as Hk1.
  rewrite Hfo in Hk1. apply outside_eq in Hk1 as (Hw1 & Hself1 & Hobjs1).
  simpl in Hw1, Hself1, Hobjs1.
  assert (∃ w2, _find_method obj req_method args kw w1
                  = (Ok (NotCallable (VStr (error_text e))), w2)
                ∧ written w2 = written w1) as (w2 & Hfm & Hw2).
  { unfold _find_method.
    erewrite try_except_raise; cycle 1.
    { erewrite (bind_ok (gets _)); [|reflexivity]. cbv beta.
      rewrite Hobjs1, Hgm. unfold lift. by rewrite He. }
    destruct e as [msg|t msg].
    - by exists w1.
    - erewrite bind_ok; [|by eapply _format_exception_returns].
      eexists. split; [reflexivity|]. done. }
  assert (resolves item w req_method args kw obj
            (NotCallable (VStr (error_text e))) w2) as Hres.
  { split; [done|]. rewrite (setdefault_reply_id item id Hid).
    split; [done|]. by exists w1. }
  pose proof (dispatch_item_single_resolved _ _ _ _ _ _ _ _ Hres) as Hd.
  rewrite (setdefault_reply_id item id Hid) in Hd.
  destruct (String.eqb (error_text e) EmptyString) eqn:Hempty.
  - exists w2. split; [|by rewrite app_nil_r, Hw2, Hw1].
    rewrite Hd. unfold call_handler, Py.truthy. by rewrite Hempty.
  - exists (write (error_frame (VStr (error_text e)) id) w2).2. split.
    + rewrite Hd. erewrite bind_ok; [reflexivity|].
      unfold call_handler. apply try_except_ok.
      unfold Py.truthy. rewrite Hempty. simpl negb. cbv iota.
      exact (_send_error_text item id _ _ Hid Hp).
    + by rewrite written_write, Hw2, Hw1.
Qed.

Lemma failed_lookup_reply_witness :
  ∃ w',
    dispatch_item_single (VDict Ex2.unknown_request) Ex.w0
      = (Ok (VBool true), w') ∧
    written w'
      = (written Ex.w0 ++ [error_frame (VStr "Unknown method") (VInt 4)])%list.
Proof.
  exact (failed_lookup_reply Ex2.unknown_request (VInt 4) (VStr "nope")
           (VList []) (VDict []) 0%nat Ex.handler_get_method [] []
           (ServerError "Unknown method") Ex.w0 Ex.w0
           eq_refl eq_refl eq_refl eq_refl eq_refl eq_refl eq_refl eq_refl).
Defined.

(** X5.  A frame that has neither a 'method' nor a 'result' key and has an
    id is answered with the error frame 'Unknown format'. *)
Theorem unknown_format_reply (item : dict) (id : value) (w : world) :
  reply_id item = Some id →
  plain id = true →
  Py.has "method" item = false →
  Py.has "result" item = false →
  dispatch_item_single (VDict item) w
    = (Ok (VBool true), (write (error_frame (VStr "Unknown format") id) w).2).
Proof.
  intros Hid Hp Hm Hr. unfold dispatch_item_single.
  rewrite (setdefault_reply_id item id Hid), Hm, Hr.
  erewrite bind_ok; [reflexivity|].
  by rewrite (_send_error_text item id _ _ Hid Hp).
Qed.

Lemma unknown_format_reply_witness :
  dispatch_item_single (VDict Ex2.no_method_frame) Ex.w0
    = (Ok (VBool true),
       (write (error_frame (VStr "Unknown format") (VInt 4)) Ex.w0).2).
Proof.
  exact (unknown_format_reply Ex2.no_method_frame (VInt 4) Ex.w0
           eq_refl eq_refl eq_refl eq_refl).
Defined.

Lemma iter_raises v e : Py.iter v = Raise e → ∃ msg, e = TypeError msg.
Proof. destruct v; simpl; intros [= <-] || (intros _); by eexists. Qed.

(** X6.  A request whose 'params' cannot be iterated (a number, a bool, null)
    and whose method resolves to a handler is never answered, with or
    without an id: the TypeError of the call is raised again by
    [_format_exception], inside the exception handler, and leaves
    [dispatch_item_single]; nothing is queued, and [read_and_dispatch]
    (of a connection that is not threaded) logs it and returns False. *)
Theorem unwalkable_params_unanswered (item : dict) (req_method args kw : value)
    (obj : obj_id) (fn : method) (e : exn) (w w2 : world) :
  resolves item w req_method args kw obj fn w2 →
  (∀ v, fn ≠ NotCallable v) →
  Py.iter args = Raise e →
  dispatch_item_single (VDict item) w = (Raise e, w2) ∧
  written w2 = written w ∧
  ∀ thread condition,
    condition ≠ Some false → threaded (conn w) = false →
    ∃ w', read_and_dispatch thread condition (Decoded (VDict item)) w
            = (Ok false, w') ∧ written w' = written w.
Proof.
  intros Hres Hfn Hit.
  destruct (resolves_outside _ _ _ _ _ _ _ _ Hres) as (Hw2 & _).
  destruct (iter_raises _ _ Hit) as [msg ->].
  assert (dispatch_item_single (VDict item) w = (Raise (TypeError msg), w2)) as Hd.
  { rewrite (dispatch_item_single_resolved _ _ _ _ _ _ _ _ Hres).
    erewrite bind_raise; [reflexivity|].
    assert (star_args args kw = Raise (TypeError msg)) as Hsa.
    { unfold star_args. by rewrite Hit. }
    unfold call_handler. erewrite try_except_raise; cycle 1.
    { destruct fn as [body|body|v]; [| |by destruct (Hfn v)];
        rewrite Hsa; by erewrite (bind_raise (lift _)). }
    unfold TypeError. cbv iota.
    erewrite bind_raise; [reflexivity|].
    unfold _format_exception. erewrite (bind_raise (lift _)); [reflexivity|].
    unfold lift. by rewrite Hit. }
  split; [done|]. split; [done|].
  intros thread condition Hc Hthr.
  exists (set_log (log w2 ++ [(DEBUG, "%s")]) w2). split; [|done].
  unfold read_and_dispatch.
  assert ((if Py.has "result" item then dispatch_item_single (VDict item)
           else (if thread then dispatch_item_threaded else dispatch_item_single)
                  (VDict item)) w = (Raise (TypeError msg), w2)) as Hd'.
  { destruct (Py.has "result" item); [done|]. destruct thread; [|done].
    unfold dispatch_item_threaded.
    erewrite (bind_ok (gets _)); [|reflexivity]. by rewrite Hthr. }
  destruct condition as [[]|]; [|done|].
  - erewrite try_except_raise; [|by erewrite bind_raise]. done.
  - erewrite try_except_raise; [|by erewrite bind_raise]. done.
Qed.

Lemma unwalkable_params_unanswered_witness :
  dispatch_item_single (VDict Ex2.number_params_request) Ex.w0
    = (Raise (TypeError "object is not iterable"), Ex.w0) ∧
  written Ex.w0 = written Ex.w0 ∧
  ∀ thread condition,
    condition ≠ Some false → threaded (conn Ex.w0) = false →
    ∃ w', read_and_dispatch thread condition
            (Decoded (VDict Ex2.number_params_request)) Ex.w0
            = (Ok false, w') ∧ written w' = written Ex.w0.
Proof.
  refine (unwalkable_params_unanswered Ex2.number_params_request (VStr "ping")
            (VInt 5) (VDict []) 0%nat (Callable (λ a k, Ok (VStr "pong")))
            (TypeError "object is not iterable") Ex.w0 Ex.w0 _ _ eq_refl).
  - split; [reflexivity|]. split; [reflexivity|].
    exists Ex.w0. split; reflexivity.
  - intros v H. discriminate H.
Defined.

(** X7.  When a callable returns a value that the codec cannot encode, [_send]
    raises NameError from its own exception handler (which names [item],
    unknown there), and the request is answered with the error frame of
    that NameError, whatever its message: the substitute response that the
    handler means to build is never sent. *)
Theorem unserializable_result_reply (item : dict) (id req_method args kw : value)
    (obj : obj_id) (body : list value → dict → result value)
    (a : list value) (k : dict) (r : value) (e : exn) (w w2 w3 : world) :
  reply_id item = Some id →
  plain id = true →
  resolves item w req_method args kw obj (Callable body) w2 →
  star_args args kw = Ok (a, k) →
  body a k = Ok r →
  json_dumps r w2 = (Raise e, w3) →
  ∃ msg w',
    dispatch_item_single (VDict item) w = (Ok (VBool true), w') ∧
    written w'
      = (written w ++ [error_frame (VStr ("NameError: " ++ msg)) id])%list.
Proof.
  intros Hid Hp Hres Hsa Hbody Hr.
  destruct (resolves_outside _ _ _ _ _ _ _ _ Hres) as (Hw2 & _).
  pose proof (keeps_written_json_dumps r w2) as Hw3. rewrite Hr in Hw3. simpl in Hw3.
  set (w4 := set_log (log w3 ++ [(ERROR,
     "An unexpected error ocurred when trying to create the message: %r")]) w3).
  assert (_send (response_frame r id) w2
            = (Raise (Exc "NameError" "name 'item' is not defined"), w4)) as Hsend.
  { unfold _send. erewrite bind_raise; [reflexivity|].
    erewrite try_except_raise.
    - by erewrite bind_ok.
    - unfold response_frame. simpl.
      by erewrite bind_raise; [|erewrite bind_raise; [|exact Hr]]. }
  destruct (handler_error_reply item id obj req_method args kw a k
              (Exc "NameError" "name 'item' is not defined") w4 Hid Hp Hsa)
    as (w' & Hh & Hw').
  exists "name 'item' is not defined", w'. split.
  - rewrite (dispatch_item_single_resolved _ _ _ _ _ _ _ _ Hres).
    rewrite (setdefault_reply_id item id Hid).
    erewrite bind_ok; [reflexivity|].
    unfold call_handler. erewrite try_except_raise; cycle 1.
    { rewrite Hsa.
      erewrite (bind_ok (lift _)); [|reflexivity]. cbv beta iota. rewrite Hbody.
      erewrite (bind_ok (lift _)); [|reflexivity].
      unfold _send_response. rewrite Hid. exact Hsend. }
    exact Hh.
  - rewrite Hw'. change (written w4) with (written w3). by rewrite Hw3, Hw2.
Qed.

Lemma unserializable_result_reply_witness :
  ∃ msg w',
    dispatch_item_single (VDict Ex2.leak_request) Ex2.w0
      = (Ok (VBool true), w') ∧
    written w'
      = (written Ex2.w0
           ++ [error_frame (VStr ("NameError: " ++ msg)) (VInt 2)])%list.
Proof.
  refine (unserializable_result_reply Ex2.leak_request (VInt 2) (VStr "leak")
            (VList []) (VDict []) 0%nat (λ a k, Ok (VFunction "f" None))
            [] [] (VFunction "f" None)
            (TypeError "Tried to serialize as JSON a handler for another connection!")
            Ex2.w0 Ex2.w0 Ex2.w0
            eq_refl eq_refl _ eq_refl eq_refl eq_refl).
  split; [reflexivity|]. split; [reflexivity|].
  exists Ex2.w0. split; reflexivity.
Defined.

(** ** Batches and threads *)

Lemma for_each_app {A} (f : A → M unit) (l1 l2 : list A) w w1 :
  for_each f l1 w = (Ok tt, w1) →
  for_each f (l1 ++ l2) w = for_each f l2 w1.
Proof.
  revert w. induction l1 as [|x l1 IH]; intros w H; simpl in *.
  - by injection H as ->.
  - unfold mbind, M_bind in *. destruct (f x w) as [[[]|e] w']; [|done].
    by apply IH.
Qed.

Lemma keeps_threaded_dump_object v :
  keeps (λ w, threaded (conn w)) (dump_object v).
Proof. unfold dump_object, _dump_remoteobject, get_id. keeps_tac. Qed.

Lemma keeps_threaded__send v : keeps (λ w, threaded (conn w)) (_send v).
Proof.
  unfold _send, write, _log. keeps_tac.
  apply keeps_json_dumps, keeps_threaded_dump_object.
Qed.

Lemma keeps_threaded_dispatch_item_single item :
  keeps (λ w, threaded (conn w)) (dispatch_item_single item).
Proof.
  unfold dispatch_item_single, _find_object, _find_method, _dispatch_delete,
    _format_exception, _send_response, _send_error, setresponse, delrequest,
    _log.
  keeps_tac; apply keeps_threaded__send.
Qed.

(** On a connection that is not threaded, [dispatch_item_threaded] is
    [dispatch_item_single], for every item of a batch. *)
Lemma for_each_not_threaded (l : list value) : ∀ w,
  threaded (conn w) = false →
  for_each (λ i, _ ← dispatch_item_threaded i; mret tt) l w
    = for_each (λ i, _ ← dispatch_item_single i; mret tt) l w.
Proof.
  induction l as [|x l IH]; intros w Hthr; [done|].
  simpl.
  assert (dispatch_item_threaded x w = dispatch_item_single x w) as Hx.
  { unfold dispatch_item_threaded.
    erewrite (bind_ok (gets _)); [|reflexivity]. by rewrite Hthr. }
  pose proof (keeps_threaded_dispatch_item_single x w) as Hk.
  simpl in Hk. rewrite Hthr in Hk.
  destruct (dispatch_item_single x w) as [[v|e] w'] eqn:Hd.
  - erewrite (bind_ok _ _ w tt w'); [|by erewrite bind_ok; [|exact Hx]].
    erewrite (bind_ok _ _ w tt w'); [|by erewrite bind_ok; [|exact Hd]].
    by apply IH.
  - erewrite bind_raise; [|by erewrite bind_raise; [|exact Hx]].
    symmetry. erewrite bind_raise; [done|]. by erewrite bind_raise.
Qed.

(** X8.  When [read_and_dispatch] dispatches the items of a batch itself
    (called with thread=False, or called with any thread flag, the default
    True included, on a connection that is not threaded), it dispatches
    them in their order, and the first one whose dispatch raises ends the
    batch: the items after it are not dispatched, the exception is logged
    at debug level and [read_and_dispatch] returns False.  (With
    thread=True on a threaded connection the items are handed to threads
    instead.) *)
Theorem batch_stops_at_failure (pre post : list value) (x : value) (e : exn)
    (thread : bool) (condition : option bool) (w w1 w2 : world) :
  condition ≠ Some false →
  thread = false ∨ threaded (conn w) = false →
  for_each (λ i, _ ← dispatch_item_single i; mret tt) pre w = (Ok tt, w1) →
  dispatch_item_single x w1 = (Raise e, w2) →
  read_and_dispatch thread condition (Decoded (VList (pre ++ x :: post))) w
    = (Ok false, set_log (log w2 ++ [(DEBUG, "%s")]) w2).
Proof.
  intros Hc Hself Hpre Hx. unfold read_and_dispatch.
  assert (for_each (λ i, _ ← dispatch_item_single i; mret tt)
            (pre ++ x :: post) w = (Raise e, w2)) as Hall.
  { rewrite (for_each_app _ _ _ _ _ Hpre). simpl.
    erewrite bind_raise; [reflexivity|]. by erewrite bind_raise. }
  assert (for_each
            (λ i, _ ← (if thread then dispatch_item_threaded
                       else dispatch_item_single) i; mret tt)
            (pre ++ x :: post) w = (Raise e, w2)) as Hboth.
  { destruct thread; [|done].
    destruct Hself as [|Hthr]; [done|].
    by rewrite for_each_not_threaded. }
  destruct condition as [[]|]; [|done|];
    (erewrite try_except_raise; [|by erewrite bind_raise]); done.
Qed.

Lemma batch_stops_at_failure_witness :
  let w1 := (dispatch_item_single (VDict Ex2.ping_request) Ex.w0).2 in
  read_and_dispatch true None
    (Decoded (VList [VDict Ex2.ping_request; VInt 3; VDict Ex2.ping_request]))
    Ex.w0
    = (Ok false, set_log (log w1 ++ [(DEBUG, "%s")]) w1).
Proof.
  refine (batch_stops_at_failure [VDict Ex2.ping_request]
            [VDict Ex2.ping_request] (VInt 3)
            (Exc "AssertionError" EmptyString) true None Ex.w0
            (dispatch_item_single (VDict Ex2.ping_request) Ex.w0).2
            (dispatch_item_single (VDict Ex2.ping_request) Ex.w0).2
            _ (or_intror eq_refl) eq_refl eq_refl).
  intros H. discriminate H.
Defined.

(** The batch of the witness, read with the default thread flag: the first
    request is answered, the second is not. *)
Example batch_one_answer :
  let r := read_and_dispatch true None
             (Decoded (VList [VDict Ex2.ping_request; VInt 3;
                              VDict Ex2.ping_request])) Ex.w0 in
  r.1 = Ok false ∧
  written r.2 = [response_frame (VStr "pong") (VInt 6)].
Proof. done. Qed.

Lemma for_each_threaded (l : list value) w :
  threaded (conn w) = true →
  for_each (λ i, _ ← dispatch_item_threaded i; mret tt) l w
    = (Ok tt, set_threads (threads w ++ l) w).
Proof.
  revert w. induction l as [|x l IH]; intros w Hthr.
  - simpl. rewrite app_nil_r. by destruct w.
  - simpl. erewrite bind_ok; cycle 1.
    { erewrite bind_ok; [reflexivity|]. unfold dispatch_item_threaded.
      erewrite (bind_ok (gets _)); [|reflexivity]. rewrite Hthr.
      by erewrite bind_ok. }
    rewrite IH; [|done]. simpl. by rewrite <- app_assoc.
Qed.

(** X9.  On a threaded connection [read_and_dispatch] runs no handler of a
    request itself: it starts one thread for each item of a batch, in their
    order, and one for a single frame without a 'result' key, changes
    nothing else and returns True. *)
Theorem threaded_handoff (w : world) (condition : option bool) :
  threaded (conn w) = true →
  condition ≠ Some false →
  (∀ l, read_and_dispatch true condition (Decoded (VList l)) w
          = (Ok true, set_threads (threads w ++ l) w)) ∧
  (∀ d, Py.has "result" d = false →
        read_and_dispatch true condition (Decoded (VDict d)) w
          = (Ok true, set_threads (threads w ++ [VDict d]) w)).
Proof.
  intros Hthr Hc. split.
  - intros l. unfold read_and_dispatch.
    destruct condition as [[]|]; [|done|];
      (apply try_except_ok; erewrite bind_ok; [reflexivity|];
       by apply for_each_threaded).
  - intros d Hd. unfold read_and_dispatch. rewrite Hd.
    destruct condition as [[]|]; [|done|];
      (apply try_except_ok; erewrite bind_ok; [reflexivity|];
       unfold dispatch_item_threaded;
       erewrite (bind_ok (gets _)); [|reflexivity]; rewrite Hthr;
       by erewrite bind_ok).
Qed.

Lemma threaded_handoff_witness :
  (∀ l, read_and_dispatch true None (Decoded (VList l)) Ex.w_threaded
          = (Ok true, set_threads (threads Ex.w_threaded ++ l) Ex.w_threaded)) ∧
  (∀ d, Py.has "result" d = false →
        read_and_dispatch true None (Decoded (VDict d)) Ex.w_threaded
          = (Ok true,
             set_threads (threads Ex.w_threaded ++ [VDict d]) Ex.w_threaded)).
Proof.
  refine (threaded_handoff Ex.w_threaded None eq_refl _).
  intros H. discriminate H.
Defined.

(** ** The decode hook *)

Lemma keeps_load_object {B} (f : world → B) obj : keeps f (load_object obj).
Proof.
  unfold load_object, objects_getitem.
  repeat first
    [ apply keeps_ret | apply keeps_raise | apply keeps_lift | apply keeps_gets
    | apply keeps_bind; [|intros ?]
    | match goal with
      | |- keeps _ (match ?x with _ => _ end) => destruct x
      | |- keeps _ (if ?x then _ else _) => destruct x
      | |- keeps _ (let '(_, _) := ?x in _) => destruct x
      end ].
Qed.

(** [load_object] reads the state and leaves it as it is. *)
Lemma load_object_reads_only (obj : dict) (w : world) :
  (load_object obj w).2 = w.
Proof. apply (keeps_load_object id). Qed.

Lemma length_split_dot s : length (Py.split_dot s) = S (dots s).
Proof.
  induction s as [|c s IH]; [done|]. simpl.
  destruct (Ascii.eqb c "."); simpl; [by rewrite IH|].
  destruct (Py.split_dot s); simpl in *; [done|]. done.
Qed.

Lemma contains_dot_dots s : Py.contains_dot s = negb (Nat.eqb (dots s) 0).
Proof.
  induction s as [|c s IH]; [done|]. simpl. by destruct (Ascii.eqb c ".").
Qed.

(** X10.  [load_object] unpacks the split name of a function reference into
    exactly two names: a name with two dots or more raises ValueError and
    leaves the state as it was, although [_find_object] accepts the same
    name in a request, where it takes the first two parts. *)
Theorem function_reference_dots (obj : dict) (s : string) (w : world) :
  Py.has "__remoteobject__" obj = false →
  Py.has "__objectreference__" obj = false →
  Py.get "__functionreference__" obj = Some (VStr s) →
  (2 ≤ dots s)%nat →
  (∃ msg, load_object obj w = (Raise (Exc "ValueError" msg), w)) ∧
  ∃ objectname req_method rest,
    Py.split_dot s = objectname :: req_method :: rest ∧ rest ≠ [] ∧
    ∀ o args kw, _objects (conn w) !! objectname = Some o →
      req_method ≠ "__delete__" →
      _find_object (VStr s) args kw w = (Ok (Some o), w).
Proof.
  intros Hro Hor Hfr Hdots.
  pose proof (length_split_dot s) as Hlen.
  pose proof (contains_dot_dots s) as Hc.
  destruct (dots s) as [|[|n]] eqn:Hd; [lia|lia|]. simpl in Hc.
  destruct (Py.split_dot s) as [|a [|b [|c rest]]] eqn:Hs; try discriminate Hlen.
  split.
  - eexists.
    unfold load_object. rewrite Hro, Hor. unfold Py.has. rewrite Hfr. simpl.
    erewrite (bind_ok (lift _)); [|by unfold lift; simpl; rewrite Hc].
    cbv iota. rewrite Hs. by erewrite bind_raise.
  - exists a, b, (c :: rest). split; [done|]. split; [done|].
    intros o args kw Ho Hne. unfold _find_object.
    erewrite (bind_ok (lift _)); [|by unfold lift; simpl; rewrite Hc].
    cbv iota. rewrite Hs. change (take 2 (a :: b :: c :: rest)) with [a; b].
    cbv beta iota.
    erewrite (bind_ok (gets _)); [|reflexivity]. cbv beta. rewrite Ho.
    destruct (String.eqb_spec b "__delete__"); [done|done].
Qed.

Lemma function_reference_dots_witness :
  (∃ msg, load_object [("__functionreference__", VStr "a.b.c")] Ex.w0
          = (Raise (Exc "ValueError" msg), Ex.w0)) ∧
  ∃ objectname req_method rest,
    Py.split_dot "a.b.c" = objectname :: req_method :: rest ∧ rest ≠ [] ∧
    ∀ o args kw, _objects (conn Ex.w0) !! objectname = Some o →
      req_method ≠ "__delete__" →
      _find_object (VStr "a.b.c") args kw Ex.w0 = (Ok (Some o), Ex.w0).
Proof.
  exact (function_reference_dots [("__functionreference__", VStr "a.b.c")]
           "a.b.c" Ex.w0 eq_refl eq_refl eq_refl (le_n 2)).
Defined.

(** X11.  An object sent out and sent back comes back as itself.  The first
    serialization of a user object on a connection gives the hint
    [{'__remoteobject__': name}]; [load_object] of the peer makes a stub
    with that name of it; the peer encodes the stub as
    [{'__objectreference__': name}]; and [load_object] of the first
    connection resolves this hint to the very object.  The peer's state
    does not change. *)
Theorem object_round_trip (o : obj_id) (w peer : world) :
  registered_name o w = None →
  ∃ name w1 l s,
    _dump_remoteobject o w = (Ok (VDict [("__remoteobject__", VStr name)]), w1) ∧
    load_object [("__remoteobject__", VStr name)] peer = (Ok l, peer) ∧
    stub l = Some s ∧
    dump_object s peer = (Ok (VDict [("__objectreference__", VStr name)]), peer) ∧
    load_object [("__objectreference__", VStr name)] w1 = (Ok (LoadedObject o), w1).
Proof.
  intros Hreg.
  pose proof (_dump_remoteobject_first o w Hreg) as Hfirst. simpl in Hfirst.
  eexists _, _, _, _. split; [exact Hfirst|].
  split; [reflexivity|]. split; [reflexivity|]. split; [reflexivity|].
  unfold load_object. simpl.
  erewrite bind_ok; [reflexivity|]. unfold objects_getitem.
  erewrite (bind_ok (gets _)); [|reflexivity]. simpl.
  by rewrite lookup_insert_eq.
Qed.

Lemma object_round_trip_witness :
  ∃ name w1 l s,
    _dump_remoteobject 1%nat Ex.w0
      = (Ok (VDict [("__remoteobject__", VStr name)]), w1) ∧
    load_object [("__remoteobject__", VStr name)] Ex2.w_peer
      = (Ok l, Ex2.w_peer) ∧
    stub l = Some s ∧
    dump_object s Ex2.w_peer
      = (Ok (VDict [("__objectreference__", VStr name)]), Ex2.w_peer) ∧
    load_object [("__objectreference__", VStr name)] w1
      = (Ok (LoadedObject 1%nat), w1).
Proof. exact (object_round_trip 1%nat Ex.w0 Ex2.w_peer eq_refl). Defined.

(** X12.  A callable of the connection is encoded by its name alone, and
    [load_object] of the same connection resolves the hint to what
    [get_method] of the root handler gives for that name (a name without a
    dot), raising what it raises.  Neither step changes the state. *)
Theorem function_round_trip (name : string) (h : obj_id)
    (gm : value → result method) (w : world) :
  Py.contains_dot name = false →
  handler (conn w) = Some h →
  get_method (objs w h) = Some gm →
  ∃ hint,
    dump_object (VFunction name (Some (self (conn w)))) w = (Ok (VDict hint), w) ∧
    load_object hint w
      = (match gm (VStr name) with
         | Ok m => Ok (LoadedMethod m)
         | Raise e => Raise e
         end, w).
Proof.
  intros Hdot Hh Hgm. eexists. split.
  - unfold dump_object. erewrite (bind_ok (gets _)); [|reflexivity].
    cbv beta. by rewrite decide_True.
  - unfold load_object. simpl.
    erewrite (bind_ok (lift _)); [|by unfold lift; simpl; rewrite Hdot].
    cbv iota.
    erewrite bind_ok; cycle 1.
    { erewrite (bind_ok (gets _)); [|reflexivity]. cbv beta. by rewrite Hh. }
    cbv beta iota.
    erewrite (bind_ok (gets _)); [|reflexivity]. cbv beta. rewrite Hgm.
    destruct (gm (VStr name)) as [m|e].
    + by erewrite (bind_ok (lift _)).
    + by erewrite (bind_raise (lift _)).
Qed.

Lemma function_round_trip_witness :
  ∃ hint,
    dump_object (VFunction "ping" (Some (self (conn Ex.w0)))) Ex.w0
      = (Ok (VDict hint), Ex.w0) ∧
    load_object hint Ex.w0
      = (match Ex.handler_get_method (VStr "ping") with
         | Ok m => Ok (LoadedMethod m)
         | Raise e => Raise e
         end, Ex.w0).
Proof.
  exact (function_round_trip "ping" 0%nat Ex.handler_get_method Ex.w0
           eq_refl eq_refl eq_refl).
Defined.

(** X13.  The deletion of a hosted object takes its name out of the table and
    leaves the object's own record of the name: when the object is
    serialized again on the connection it gets the old name and is not
    hosted again, so that the reference the peer sends back raises
    KeyError. *)
Theorem deleted_object_keeps_name (o : obj_id) (name : string) (w : world) :
  registered_name o w = Some name →
  _objects (conn w) !! name = Some o →
  let w' := (_dispatch_delete name w).2 in
  _objects (conn w') !! name = None ∧
  _dump_remoteobject o w' = (Ok (VDict [("__remoteobject__", VStr name)]), w') ∧
  ∃ msg, load_object [("__objectreference__", VStr name)] w'
           = (Raise (Exc "KeyError" msg), w').
Proof.
  intros Hreg Hobj w'.
  assert (_objects (conn w') = delete name (_objects (conn w))
          ∧ remoteobjects w' = remoteobjects w
          ∧ self (conn w') = self (conn w)) as (Ho & Hr & Hs).
  { subst w'. unfold _dispatch_delete, try_except, _log, mbind, M_bind,
      gets, modify, raise, lift, mret, M_ret. simpl. rewrite Hobj. simpl.
    destruct (_shutdown (objs w o)) as [[[]|e]|]; simpl; rewrite ?Hobj; simpl;
      rewrite ?Hobj; done. }
  assert (_objects (conn w') !! name = None) as Hnone.
  { rewrite Ho. apply lookup_delete_eq. }
  split; [done|]. split.
  - apply _dump_remoteobject_again. unfold registered_name in *.
    by rewrite Hr, Hs.
  - exists name. unfold load_object. simpl.
    erewrite bind_raise; [reflexivity|]. unfold objects_getitem.
    erewrite (bind_ok (gets _)); [|reflexivity]. cbv beta. by rewrite Hnone.
Qed.

Lemma deleted_object_keeps_name_witness :
  let w' := (_dispatch_delete "mylist_0001" Ex.w_hosted).2 in
  _objects (conn w') !! "mylist_0001" = None ∧
  _dump_remoteobject 1%nat w'
    = (Ok (VDict [("__remoteobject__", VStr "mylist_0001")]), w') ∧
  ∃ msg, load_object [("__objectreference__", VStr "mylist_0001")] w'
           = (Raise (Exc "KeyError" msg), w').
Proof.
  exact (deleted_object_keeps_name 1%nat "mylist_0001" Ex.w_hosted
           eq_refl eq_refl).
Defined.

(** ** What every state of a connection has *)

Lemma preserves_run (I : world → Prop) :
  (∀ item, preserves I (dispatch_item_single item)) →
  (∀ thread condition inp, preserves I (read_and_dispatch thread condition inp)) →
  (∀ st name args kwargs, preserves I (proxy st name args kwargs)) →
  (∀ v, preserves I (json_dumps v)) →
  ∀ calls w, I w → I (after calls w).
Proof.
  intros Hd Hr Hp Hj calls. unfold after.
  induction calls as [|c calls IH]; intros w Hw; [done|].
  simpl. apply IH. destruct c; simpl.
  - by apply Hd.
  - by apply Hr.
  - by apply Hp.
  - by apply Hj.
  - by rewrite load_object_reads_only.
Qed.

Lemma bounded_after calls w : bounded w → bounded (after calls w).
Proof.
  apply preserves_run.
  - apply bounded_dispatch_item_single.
  - apply bounded_read_and_dispatch.
  - apply bounded_proxy.
  - apply preserves_json_dumps, bounded_dump_object.
Qed.

Lemma ids_get_id n : preserves (reached n) get_id.
Proof. intros w H. unfold reached in *. simpl. lia. Qed.

Lemma ids_dump_object n v : preserves (reached n) (dump_object v).
Proof.
  unfold dump_object, _dump_remoteobject. preserves_tac; apply ids_get_id.
Qed.

Lemma ids_json_dumps n v : preserves (reached n) (json_dumps v).
Proof. apply preserves_json_dumps, ids_dump_object. Qed.

Lemma ids__send n v : preserves (reached n) (_send v).
Proof. unfold _send, write, _log. preserves_tac. apply ids_json_dumps. Qed.

Lemma ids_dispatch_item_single n item : preserves (reached n) (dispatch_item_single item).
Proof.
  unfold dispatch_item_single, _find_object, _find_method, _format_exception,
    _send_response, _send_error, setresponse, delrequest, _dispatch_delete, _log.
  preserves_tac; try apply ids__send.
Qed.

Lemma ids_read_and_dispatch n thread condition inp :
  preserves (reached n) (read_and_dispatch thread condition inp).
Proof.
  assert (∀ item, preserves (reached n) (dispatch_item_threaded item)) as Ht.
  { intros item. unfold dispatch_item_threaded. preserves_tac.
    apply ids_dispatch_item_single. }
  unfold read_and_dispatch, _log.
  destruct thread; preserves_tac;
    try apply Ht; try apply ids_dispatch_item_single.
Qed.

Lemma ids_proxy n st name args kwargs : preserves (reached n) (proxy st name args kwargs).
Proof.
  unfold proxy, Request__init__, addrequest, write. preserves_tac;
    try apply ids_get_id; try apply ids_json_dumps.
Qed.

Lemma ids_after n calls w : reached n w → reached n (after calls w).
Proof.
  apply preserves_run.
  - apply ids_dispatch_item_single.
  - apply ids_read_and_dispatch.
  - apply ids_proxy.
  - apply ids_json_dumps.
Qed.

(** X14.  The ids of a connection strictly increase: whatever calls act on the
    connection between two calls of [get_id] (dispatching, reading, calls
    through a proxy, the hooks of the codec), the second id is greater than
    the first. *)
Theorem ids_strictly_increase (calls : list call) (w : world) :
  ∃ i1 w1 i2 w2,
    get_id w = (Ok i1, w1) ∧
    get_id (after calls w1) = (Ok i2, w2) ∧
    i1 < i2.
Proof.
  set (w1 := (get_id w).2).
  exists (_id (conn w) + 1), w1, (_id (conn (after calls w1)) + 1),
    (get_id (after calls w1)).2.
  split; [reflexivity|]. split; [reflexivity|].
  pose proof (ids_after (_id (conn w) + 1) calls w1) as H.
  assert (_id (conn w1) = _id (conn w) + 1) as Hw1 by reflexivity.
  unfold reached in H. rewrite Hw1 in H. specialize (H ltac:(lia)). lia.
Qed.

(** X15.  In every state that a connection reaches from its creation by such
    calls, the first serialization of an object gives it a name that is not
    in the table of hosted objects: the object is added under it, and every
    object hosted before stays hosted under its name. *)
Theorem hosted_names_never_reused (calls : list call) (w0 : world)
    (cid : conn_id) (h : option obj_id) (thr : bool) (o : obj_id) :
  conn w0 = Connection__init__ cid h thr →
  let w := after calls w0 in
  registered_name o w = None →
  ∃ name w1,
    _dump_remoteobject o w = (Ok (VDict [("__remoteobject__", VStr name)]), w1) ∧
    _objects (conn w) !! name = None ∧
    _objects (conn w1) = <[name := o]> (_objects (conn w)) ∧
    ∀ name' o', _objects (conn w) !! name' = Some o' →
                _objects (conn w1) !! name' = Some o'.
Proof.
  intros Hinit w Hreg.
  assert (bounded w) as Hb.
  { apply bounded_after. unfold bounded. rewrite Hinit. apply names_bounded_init. }
  pose proof (_dump_remoteobject_first o w Hreg) as Hfirst. simpl in Hfirst.
  pose proof (names_bounded_fresh (conn w) (classname (objs w o)) Hb) as Hfresh.
  eexists _, _. split; [exact Hfirst|]. split; [exact Hfresh|].
  split; [done|]. intros name' o' Hl. simpl.
  rewrite lookup_insert_ne; [done|]. intros <-. by rewrite Hfresh in Hl.
Qed.

Lemma hosted_names_never_reused_witness :
  let w := after [Dumps (VObject 1%nat); Dispatch (VDict Ex.delete_request);
                  Dispatch (VDict Ex2.echo_request)] Ex.w0 in
  ∃ name w1,
    _dump_remoteobject 2%nat w
      = (Ok (VDict [("__remoteobject__", VStr name)]), w1) ∧
    _objects (conn w) !! name = None ∧
    _objects (conn w1) = <[name := 2%nat]> (_objects (conn w)) ∧
    ∀ name' o', _objects (conn w) !! name' = Some o' →
                _objects (conn w1) !! name' = Some o'.
Proof.
  exact (hosted_names_never_reused
           [Dumps (VObject 1%nat); Dispatch (VDict Ex.delete_request);
            Dispatch (VDict Ex2.echo_request)]
           Ex.w0 1%nat (Some 0%nat) false 2%nat eq_refl eq_refl).
Defined.

(** ** The registry and the parameters *)

(** X16.  The registry of pending requests: an id that is not pending is
    registered by [addrequest], is then found, and [delrequest] gives back
    the registry as it was ([delrequest] of an id that is not pending
    raises KeyError); [addrequest] of an id that is pending fails its
    assertion.  The failures leave the state as it was. *)
Theorem addrequest_delrequest (rid : Z) (request : req_ref) (w : world) :
  match _requests (conn w) !! rid with
  | None =>
      ∃ w1, addrequest rid request w = (Ok tt, w1) ∧
            _requests (conn w1) !! rid = Some request ∧
            (∃ w2, delrequest rid w1 = (Ok tt, w2) ∧
                   _requests (conn w2) = _requests (conn w)) ∧
            ∃ msg, delrequest rid w = (Raise (Exc "KeyError" msg), w)
  | Some _ =>
      addrequest rid request w = (Raise (Exc "AssertionError" EmptyString), w)
  end.
Proof.
  destruct (_requests (conn w) !! rid) as [r|] eqn:Hl.
  - unfold addrequest. erewrite (bind_ok (gets _)); [|reflexivity].
    cbv beta. by rewrite Hl.
  - eexists. split; [|split; [|split]].
    + unfold addrequest. erewrite (bind_ok (gets _)); [|reflexivity].
      cbv beta. rewrite Hl. reflexivity.
    + simpl. by rewrite lookup_insert_eq.
    + eexists. split.
      * unfold delrequest. erewrite (bind_ok (gets _)); [|reflexivity].
        cbv beta. simpl. rewrite lookup_insert_eq. reflexivity.
      * simpl. rewrite delete_insert_eq. by apply delete_id.
    + eexists. unfold delrequest. erewrite (bind_ok (gets _)); [|reflexivity].
      cbv beta. by rewrite Hl.
Qed.

(** X17.  When 'params' of a request is an object, its members are the
    keyword arguments of the call and there are no positional ones;
    'kwparams' is ignored, whatever it is.  (The keys of the object are
    distinct, as those of a Python dict.) *)
Theorem object_params_are_keywords (request : dict) (d : dict) :
  Py.get "params" request = Some (VDict d) →
  NoDup d.*1 →
  _extract_params request
    = Ok (default VNone (Py.get "method" request), VList [], VDict d).
Proof.
  intros Hp Hnd. unfold _extract_params. rewrite Hp. simpl default.
  cbv beta iota zeta.
  destruct d as [|kv d]; [done|].
  change (Py.truthy (VDict (kv :: d))) with true. cbv iota.
  by rewrite (str_keys_dict _ Hnd).
Qed.

Lemma object_params_are_keywords_witness :
  _extract_params Ex2.object_params_request
    = Ok (VStr "echo", VList [], VDict [("x", VInt 1)]).
Proof.
  refine (object_params_are_keywords Ex2.object_params_request
            [("x", VInt 1)] eq_refl _).
  apply NoDup_singleton.
Defined.

(** ** Reasoning about the methods of the transport *)

Lemma tbind_returns {A B} (m : T A) (k : A → T B) ep a ep' :
  m ep = (Returns a, ep') → (m ≫= k) ep = k a ep'.
Proof. unfold mbind, T_bind. by intros ->. Qed.

Lemma tbind_raises {A B} (m : T A) (k : A → T B) ep e ep' :
  m ep = (Raises e, ep') → (m ≫= k) ep = (Raises e, ep').
Proof. unfold mbind, T_bind. by intros ->. Qed.

Lemma tbind_blocks {A B} (m : T A) (k : A → T B) ep ep' :
  m ep = (Blocks, ep') → (m ≫= k) ep = (Blocks, ep').
Proof. unfold mbind, T_bind. by intros ->. Qed.

(** ** Lines in a buffer *)

Lemma find_newline_lt buffer pos :
  find_newline buffer = Some pos → (pos < length buffer)%nat.
Proof.
  revert pos. induction buffer as [|c b IH]; intros pos; simpl; [done|].
  destruct (Byte.eqb c newline).
  - intros [= <-]. lia.
  - destruct (find_newline b) as [p|]; simpl; [|done].
    intros [= <-]. specialize (IH p eq_refl). lia.
Qed.

Lemma find_newline_app_Some a b pos :
  find_newline a = Some pos → find_newline (a ++ b) = Some pos.
Proof.
  revert pos. induction a as [|c a IH]; intros pos; simpl; [done|].
  destruct (Byte.eqb c newline); [done|].
  destruct (find_newline a) as [p|]; simpl; [|done].
  intros [= <-]. by rewrite (IH p).
Qed.

Lemma find_newline_app_None a b :
  find_newline a = None →
  find_newline (a ++ b) = (λ p, (length a + p)%nat) <$> find_newline b.
Proof.
  induction a as [|c a IH]; simpl.
  - intros _. by destruct (find_newline b).
  - destruct (Byte.eqb c newline); [done|].
    destruct (find_newline a) as [p|]; simpl; [done|].
    intros _. rewrite IH by done. by destruct (find_newline b).
Qed.

Lemma find_newline_app_inv a b :
  find_newline (a ++ b) = None → find_newline a = None ∧ find_newline b = None.
Proof.
  intros H. destruct (find_newline a) as [p|] eqn:Ha.
  - by rewrite (find_newline_app_Some a b p Ha) in H.
  - rewrite (find_newline_app_None a b Ha) in H.
    by destruct (find_newline b).
Qed.

Lemma find_newline_line line rest :
  find_newline line = None →
  find_newline (line ++ newline :: rest) = Some (length line).
Proof.
  intros H. rewrite (find_newline_app_None _ _ H). simpl.
  f_equal. lia.
Qed.

(** The line and the rest of a buffer that holds a newline. *)
Lemma split_at_newline a b line rest pos :
  find_newline line = None →
  (a ++ b)%list = (line ++ newline :: rest)%list →
  find_newline a = Some pos →
  take pos a = line ∧ (drop (S pos) a ++ b)%list = rest.
Proof.
  intros Hline Heq Ha.
  pose proof (find_newline_lt a pos Ha) as Hlt.
  pose proof (find_newline_app_Some a b pos Ha) as Hab.
  rewrite Heq, (find_newline_line line rest Hline) in Hab.
  injection Hab as Hpos. subst pos. split.
  - rewrite <- (take_app_le a b) by lia. rewrite Heq.
    by rewrite take_app_length.
  - rewrite <- drop_app_le by lia. rewrite Heq.
    rewrite drop_app_ge by lia.
    replace (S (length line) - length line)%nat with 1%nat by lia. done.
Qed.

Lemma has_newline_encode data :
  has_newline data = false → find_newline (encode data) = None.
Proof.
  induction data as [|c s IH]; [done|]. simpl.
  destruct (Ascii.eqb_spec c "010") as [|Hne]; [done|]. intros H.
  destruct (Byte.eqb (byte_of_ascii c) newline) eqn:Hb.
  - apply Byte.byte_dec_bl in Hb. destruct Hne.
    rewrite <- (ascii_of_byte_of_ascii c), Hb. reflexivity.
  - change (map byte_of_ascii (list_ascii_of_string s)) with (encode s).
    by rewrite IH.
Qed.

(** ** Reading lines *)

Lemma set_recvs_id rs ep : recvs (_sck ep) = rs → set_recvs rs ep = ep.
Proof. destruct ep as [w [t r s wi c] b wb st m]. simpl. by intros ->. Qed.

Lemma set_buffer_id b ep : _buffer ep = b → set_buffer b ep = ep.
Proof. destruct ep. simpl. by intros ->. Qed.

Lemma _readn_loop_found rs sb pos ep :
  find_newline sb = Some pos →
  _readn_loop rs sb ep
    = (Returns (take pos sb), set_buffer (drop (S pos) sb) ep).
Proof. intros H. destruct rs; simpl; by rewrite H. Qed.

Lemma _readn_loop_data rs sb c ep :
  find_newline sb = None → c ≠ [] →
  _readn_loop (RecvData c :: rs) sb ep
    = _readn_loop rs (sb ++ c) (set_recvs rs ep).
Proof. intros H Hc. simpl. rewrite H. by destruct c. Qed.

(** The chunks of an unfinished line are gathered. *)
Lemma _readn_loop_chunks chunks : ∀ rs sb ep,
  Forall (λ c, c ≠ []) chunks →
  find_newline (sb ++ concat chunks) = None →
  recvs (_sck ep) = (map RecvData chunks ++ rs)%list →
  _readn_loop (map RecvData chunks ++ rs) sb ep
    = _readn_loop rs (sb ++ concat chunks) (set_recvs rs ep).
Proof.
  induction chunks as [|c cs IH]; intros rs sb ep Hne Hnl Hrs.
  - simpl. rewrite app_nil_r. by rewrite set_recvs_id.
  - apply Forall_cons in Hne as [Hc Hcs]. simpl in Hnl, Hrs.
    rewrite map_cons, <- app_comm_cons, concat_cons.
    rewrite app_assoc in Hnl.
    destruct (find_newline_app_inv _ _ Hnl) as [Hsbc _].
    destruct (find_newline_app_inv _ _ Hsbc) as [Hsb _].
    rewrite (_readn_loop_data _ _ _ _ Hsb Hc).
    rewrite IH by done. by rewrite app_assoc.
Qed.

Lemma _readn_loop_line chunks : ∀ more sb line rest ep,
  recvs (_sck ep) = (map RecvData chunks ++ more)%list →
  Forall (λ c, c ≠ []) chunks →
  find_newline line = None →
  (sb ++ concat chunks)%list = (line ++ newline :: rest)%list →
  ∃ k buffer',
    _readn_loop (map RecvData chunks ++ more) sb ep
      = (Returns line,
         set_buffer buffer'
           (set_recvs (map RecvData (drop k chunks) ++ more) ep)) ∧
    (buffer' ++ concat (drop k chunks))%list = rest.
Proof.
  induction chunks as [|c cs IH]; intros more sb line rest ep Hrs Hne Hline Heq.
  - simpl in Heq, Hrs. rewrite app_nil_r in Heq. subst sb.
    exists O, rest. split; [|by rewrite app_nil_r].
    rewrite (_readn_loop_found _ _ _ _ (find_newline_line line rest Hline)).
    rewrite take_app_length, drop_app_ge by lia.
    replace (S (length line) - length line)%nat with 1%nat by lia.
    simpl. by rewrite (set_recvs_id _ ep Hrs).
  - destruct (find_newline sb) as [pos|] eqn:Hsb.
    + destruct (split_at_newline _ _ _ _ _ Hline Heq Hsb) as [Htake Hdrop].
      exists O, (drop (S pos) sb). split; [|done].
      rewrite (_readn_loop_found _ _ _ _ Hsb), Htake, drop_0.
      by rewrite (set_recvs_id _ ep Hrs).
    + apply Forall_cons in Hne as [Hc Hcs].
      rewrite map_cons, <- app_comm_cons.
      rewrite (_readn_loop_data _ _ _ _ Hsb Hc).
      destruct (IH more (sb ++ c)%list line rest (set_recvs (map RecvData cs ++ more) ep))
        as (k & buffer' & Hloop & Hrest); [done|done|done|..].
      { simpl in Heq. by rewrite <- app_assoc. }
      exists (S k), buffer'. split; [|done]. rewrite Hloop. done.
Qed.

Lemma _readn_unfold ep :
  _readn ep = _readn_loop (recvs (_sck ep)) (_buffer ep) ep.
Proof. reflexivity. Qed.

(** X18.  [_readn] returns the bytes up to the first newline of the stream,
    which is the buffer followed by what the socket delivers, however the
    socket cuts the stream into chunks; it takes no more chunks than it
    needs, and what it has received beyond the newline is kept in the
    buffer: the buffer and the chunks not yet received make up the rest of
    the stream.  Nothing else changes. *)
Theorem readn_line (chunks : list bytes) (more : list recv_result)
    (line rest : bytes) (ep : endpoint) :
  recvs (_sck ep) = (map RecvData chunks ++ more)%list →
  Forall (λ c, c ≠ []) chunks →
  find_newline line = None →
  (_buffer ep ++ concat chunks)%list = (line ++ newline :: rest)%list →
  ∃ k buffer',
    _readn ep
      = (Returns line,
         set_buffer buffer'
           (set_recvs (map RecvData (drop k chunks) ++ more) ep)) ∧
    (buffer' ++ concat (drop k chunks))%list = rest.
Proof.
  intros Hrs Hne Hline Heq.
  rewrite _readn_unfold, Hrs.
  destruct (_readn_loop_line chunks more (_buffer ep) line rest ep
              Hrs Hne Hline Heq) as (k & buffer' & Hloop & Hrest).
  exists k, buffer'. by split.
Qed.

Lemma readn_line_witness :
  let ep := Ex2.endpoint_with Ex.w0
              [RecvData (encode "ab"); RecvData (frame "c" ++ encode "d")]
              [] [] in
  ∃ k buffer',
    _readn ep
      = (Returns (encode "abc"),
         set_buffer buffer'
           (set_recvs
              (map RecvData
                 (drop k [encode "ab"; (frame "c" ++ encode "d")%list]) ++ [])
              ep)) ∧
    (buffer' ++ concat (drop k [encode "ab"; (frame "c" ++ encode "d")%list]))%list
      = encode "d".
Proof.
  refine (readn_line [encode "ab"; (frame "c" ++ encode "d")%list] []
            (encode "abc") (encode "d")
            (Ex2.endpoint_with Ex.w0
               [RecvData (encode "ab"); RecvData (frame "c" ++ encode "d")]
               [] [])
            eq_refl _ eq_refl eq_refl).
  repeat constructor; intros H; discriminate H.
Defined.

(** X19.  Framed messages are read in order: when the stream begins with
    some newline-free messages, each followed by a newline, that many calls
    of [_readn] return exactly these messages, one after the other, and
    leave the rest of the stream, whatever the chunks. *)
Theorem readn_messages (msgs : list bytes) (chunks : list bytes)
    (more : list recv_result) (tail : bytes) (ep : endpoint) :
  recvs (_sck ep) = (map RecvData chunks ++ more)%list →
  Forall (λ c, c ≠ []) chunks →
  Forall (λ m, find_newline m = None) msgs →
  (_buffer ep ++ concat chunks)%list
    = (concat (map (λ m, m ++ [newline]) msgs) ++ tail)%list →
  ∃ k buffer',
    _readn_times (length msgs) ep
      = (Returns msgs,
         set_buffer buffer'
           (set_recvs (map RecvData (drop k chunks) ++ more) ep)) ∧
    (buffer' ++ concat (drop k chunks))%list = tail.
Proof.
  revert chunks ep. induction msgs as [|m msgs IH]; intros chunks ep Hrs Hne Hmsgs Heq.
  - exists O, (_buffer ep). split; [|done].
    by rewrite drop_0, (set_recvs_id _ ep Hrs), set_buffer_id.
  - apply Forall_cons in Hmsgs as [Hm Hmsgs].
    simpl in Heq. rewrite <- !app_assoc in Heq. simpl in Heq.
    destruct (_readn_loop_line chunks more (_buffer ep) m _ ep Hrs Hne Hm Heq)
      as (k1 & b1 & Hread & Hrest).
    rewrite <- Hrs, <- _readn_unfold in Hread.
    set (ep1 := set_buffer b1 (set_recvs (map RecvData (drop k1 chunks) ++ more) ep)) in *.
    destruct (IH (drop k1 chunks) ep1) as (k2 & b2 & Hreads & Htail);
      [done|by apply Forall_drop|done|done|].
    exists (k1 + k2)%nat, b2. split.
    + simpl. erewrite tbind_returns; [|exact Hread]. fold ep1.
      erewrite tbind_returns; [|exact Hreads].
      rewrite drop_drop. reflexivity.
    + by rewrite <- drop_drop.
Qed.

Lemma readn_messages_witness :
  let ep := Ex2.endpoint_with Ex.w0
              [RecvData (frame "a" ++ encode "b"); RecvData (frame "" ++ encode "c")]
              [] [] in
  ∃ k buffer',
    _readn_times 2 ep
      = (Returns [encode "a"; encode "b"],
         set_buffer buffer'
           (set_recvs
              (map RecvData
                 (drop k [(frame "a" ++ encode "b")%list;
                          (frame "" ++ encode "c")%list]) ++ [])
              ep)) ∧
    (buffer' ++ concat (drop k [(frame "a" ++ encode "b")%list;
                                (frame "" ++ encode "c")%list]))%list
      = encode "c".
Proof.
  refine (readn_messages [encode "a"; encode "b"]
            [(frame "a" ++ encode "b")%list; (frame "" ++ encode "c")%list] []
            (encode "c")
            (Ex2.endpoint_with Ex.w0
               [RecvData (frame "a" ++ encode "b");
                RecvData (frame "" ++ encode "c")] [] [])
            eq_refl _ _ eq_refl).
  - repeat constructor; intros H; discriminate H.
  - repeat constructor.
Defined.

Lemma _readn_loop_eof rs sb ep :
  find_newline sb = None →
  _readn_loop (RecvData [] :: rs) sb ep
    = (Raises (EofError (length sb)), set_recvs rs ep).
Proof. intros H. simpl. by rewrite H. Qed.

(** X20.  When the peer closes in the middle of a line, [_readn] raises
    EofError with the number of bytes of the unfinished line (those of the
    buffer and those received in this call), and the buffer stays as it
    was. *)
Theorem readn_eof (chunks : list bytes) (more : list recv_result)
    (ep : endpoint) :
  recvs (_sck ep) = (map RecvData chunks ++ RecvData [] :: more)%list →
  Forall (λ c, c ≠ []) chunks →
  find_newline (_buffer ep ++ concat chunks) = None →
  _readn ep
    = (Raises (EofError (length (_buffer ep ++ concat chunks))),
       set_recvs more ep).
Proof.
  intros Hrs Hne Hnl. unfold _readn.
  erewrite (tbind_returns (reads _)); [|reflexivity].
  erewrite (tbind_returns (reads _)); [|reflexivity].
  cbv beta. rewrite Hrs.
  rewrite (_readn_loop_chunks chunks _ _ ep Hne Hnl Hrs).
  by rewrite (_readn_loop_eof _ _ _ Hnl).
Qed.

Lemma readn_eof_witness :
  let ep := Ex2.endpoint_with Ex.w0 [RecvData (encode "ab"); RecvData []] []
              (encode "x") in
  _readn ep = (Raises (EofError 3), set_recvs [] ep).
Proof.
  refine (readn_eof [encode "ab"] []
            (Ex2.endpoint_with Ex.w0 [RecvData (encode "ab"); RecvData []] []
               (encode "x"))
            eq_refl _ eq_refl).
  repeat constructor; intros H; discriminate H.
Defined.

(** X21.  When the socket raises in the middle of a line (and it is not the
    retry of a socket without timeout), [_readn] raises EofError on one of
    the communication errors and returns an empty line on any other, a
    timeout for one.  In both cases the buffer is left as it was before the
    call: the bytes that the call has received are neither returned nor
    kept. *)
Theorem readn_error (chunks : list bytes) (e : errno)
    (more : list recv_result) (ep : endpoint) :
  recvs (_sck ep) = (map RecvData chunks ++ RecvError e :: more)%list →
  Forall (λ c, c ≠ []) chunks →
  find_newline (_buffer ep ++ concat chunks) = None →
  is_again e
    && match gettimeout (_sck ep) with
       | Some t => Qeq_bool t 0
       | None => false
       end = false →
  _readn ep
    = (if is_comm_error e
       then Raises (EofError (length (_buffer ep ++ concat chunks)))
       else Returns [],
       logged DEBUG "Read socket error: IOError%r (timeout: %r)"
         (set_recvs more ep)).
Proof.
  intros Hrs Hne Hnl Hagain. unfold _readn.
  erewrite (tbind_returns (reads _)); [|reflexivity].
  erewrite (tbind_returns (reads _)); [|reflexivity].
  cbv beta. rewrite Hrs.
  rewrite (_readn_loop_chunks chunks _ _ ep Hne Hnl Hrs).
  simpl. rewrite Hnl.
  erewrite (tbind_returns (next_recvs _)); [|reflexivity].
  erewrite (tbind_returns (logs _ _)); [|reflexivity].
  erewrite (tbind_returns (reads _)); [|reflexivity].
  cbv beta.
  match goal with
  | |- context [gettimeout (_sck ?x)] =>
      change (gettimeout (_sck x)) with (gettimeout (_sck ep))
  end.
  rewrite Hagain. by destruct (is_comm_error e).
Qed.

Lemma readn_error_witness :
  let ep := Ex2.endpoint_with Ex.w0 [RecvData (encode "ab"); RecvError EOTHER]
              [] (encode "x") in
  _readn ep
    = (Returns [],
       logged DEBUG "Read socket error: IOError%r (timeout: %r)"
         (set_recvs [] ep)).
Proof.
  refine (readn_error [encode "ab"] EOTHER []
            (Ex2.endpoint_with Ex.w0 [RecvData (encode "ab"); RecvError EOTHER]
               [] (encode "x"))
            eq_refl _ eq_refl eq_refl).
  repeat constructor; intros H; discriminate H.
Defined.

(** The retry of [_readn]: a socket without timeout that has nothing yet
    is given a timeout of five seconds and read again. *)
Example readn_retry :
  let ep := mkEndpoint Ex.w0
              (mkSocket (Some (0 : Q)) [RecvError EAGAIN; RecvData (frame "{}")]
                 [] [] false)
              [] [] "open" default_maxtimeout in
  (_readn ep).1 = Returns (encode "{}") ∧
  gettimeout (_sck (_readn ep).2) = Some (5 : Q) ∧
  _buffer (_readn ep).2 = [].
Proof. repeat split. Qed.

(** ** Writing lines *)

Lemma write_line_loop_nil ep :
  write_line_loop [] ep
    = match _wbuffer ep with [] => (Returns O, ep) | _ => (Blocks, ep) end.
Proof. simpl. unfold mbind, T_bind, reads. by destruct (_wbuffer ep). Qed.

Lemma write_line_loop_error ss ep :
  write_line_loop (SendError :: ss) ep
    = match _wbuffer ep with
      | [] => (Returns O, ep)
      | _ => (Returns O,
              logged DEBUG "%s"
                (logged DEBUG "Read socket error: IOError (timeout: %r)"
                   (set_sends ss [] ep)))
      end.
Proof.
  simpl. unfold mbind at 1, T_bind at 1, reads. by destruct (_wbuffer ep).
Qed.

Lemma write_line_loop_sent n ss ep :
  write_line_loop (Sent n :: ss) ep
    = match _wbuffer ep with
      | [] => (Returns O, ep)
      | wb =>
          match n with
          | O => (Returns (length wb),
                  logged WARNING "%d bytes left in write buffer"
                    (set_sends ss [] ep))
          | S _ => write_line_loop ss
                     (set_wbuffer (drop n wb) (set_sends ss (take n wb) ep))
          end
      end.
Proof.
  simpl. unfold mbind at 1, T_bind at 1, reads.
  destruct (_wbuffer ep); [done|]. by destruct n.
Qed.

Lemma write_line_loop_conserves ss : ∀ ep,
  (wire (_sck (write_line_loop ss ep).2) ++ _wbuffer (write_line_loop ss ep).2)%list
    = (wire (_sck ep) ++ _wbuffer ep)%list.
Proof.
  induction ss as [|[n|] ss IH]; intros ep.
  - rewrite write_line_loop_nil.
    by destruct (_wbuffer ep) eqn:Hwb; simpl; rewrite Hwb.
  - rewrite write_line_loop_sent.
    destruct (_wbuffer ep) as [|b bs] eqn:Hwb; [by simpl; rewrite Hwb|].
    destruct n as [|n].
    + simpl. by rewrite Hwb, app_nil_r.
    + rewrite IH. simpl. rewrite <- app_assoc. f_equal.
      apply (take_drop (S n) (b :: bs)).
  - rewrite write_line_loop_error.
    destruct (_wbuffer ep) as [|b bs] eqn:Hwb; [by simpl; rewrite Hwb|].
    simpl. by rewrite Hwb, app_nil_r.
Qed.

Lemma write_line_unfold data ep :
  has_newline data = false →
  write_line data ep
    = write_line_loop (sends (_sck ep))
        (set_wbuffer (_wbuffer ep ++ frame data) ep).
Proof. intros H. unfold write_line. by rewrite H. Qed.

(** X22.  [write_line] loses, doubles and reorders no byte, whatever the
    socket does: after the call (whether it returns, or waits for the
    socket) the bytes sent followed by the write buffer are the bytes sent
    before, the write buffer before, the data and a newline.  Data with a
    newline fails the assertion and changes nothing. *)
Theorem write_line_conserves (data : string) (ep : endpoint) :
  if has_newline data then
    write_line data ep = (Raises (Exc "AssertionError" EmptyString), ep)
  else
    (wire (_sck (write_line data ep).2) ++ _wbuffer (write_line data ep).2)%list
      = (wire (_sck ep) ++ _wbuffer ep ++ frame data)%list.
Proof.
  destruct (has_newline data) eqn:Hnl.
  - unfold write_line. by rewrite Hnl.
  - rewrite (write_line_unfold data ep Hnl).
    by rewrite write_line_loop_conserves.
Qed.

Lemma write_line_loop_done ss ep :
  _wbuffer ep = [] → write_line_loop ss ep = (Returns O, ep).
Proof.
  intros H. destruct ss as [|[n|] ss].
  - by rewrite write_line_loop_nil, H.
  - by rewrite write_line_loop_sent, H.
  - by rewrite write_line_loop_error, H.
Qed.

(** A socket that takes the whole of the buffer, in one call of [send] or
    in several. *)
Lemma write_line_loop_all ns : ∀ ss ep,
  Forall (λ n, (0 < n)%nat) ns →
  (length (_wbuffer ep) ≤ sum_list ns)%nat →
  ∃ ss',
    write_line_loop (map Sent ns ++ ss) ep
      = (Returns O,
         match _wbuffer ep with
         | [] => ep
         | _ => set_wbuffer [] (set_sends ss' (_wbuffer ep) ep)
         end).
Proof.
  induction ns as [|n ns IH]; intros ss ep Hpos Hlen.
  - simpl in Hlen. destruct (_wbuffer ep) eqn:Hwb; [|simpl in Hlen; lia].
    exists ss. by apply write_line_loop_done.
  - apply Forall_cons in Hpos as [Hn Hpos].
    destruct (_wbuffer ep) as [|b bs] eqn:Hwb.
    { exists ss. by apply write_line_loop_done. }
    rewrite map_cons, <- app_comm_cons.
    destruct n as [|n]; [lia|].
    pose proof (take_drop (S n) (b :: bs)) as Htd.
    pose proof (length_drop (b :: bs) (S n)) as Hld.
    remember (drop (S n) (b :: bs)) as rest eqn:Hrest.
    remember (take (S n) (b :: bs)) as sent1 eqn:Hsent1.
    set (ep1 := set_wbuffer rest (set_sends (map Sent ns ++ ss) sent1 ep)).
    assert (write_line_loop (Sent (S n) :: map Sent ns ++ ss) ep
            = write_line_loop (map Sent ns ++ ss) ep1) as ->.
    { rewrite write_line_loop_sent, Hwb. cbv beta iota zeta.
      by rewrite <- Hrest, <- Hsent1. }
    destruct (IH ss ep1 Hpos) as [ss' Hloop].
    { change (_wbuffer ep1) with rest. simpl in Hlen, Hld. lia. }
    rewrite Hloop. change (_wbuffer ep1) with rest.
    destruct rest as [|b' bs'].
    + exists (map Sent ns ++ ss)%list. f_equal.
      rewrite app_nil_r in Htd. by rewrite <- Htd.
    + exists ss'. f_equal. rewrite <- Htd.
      unfold ep1, set_wbuffer, set_sends, set_sck. simpl.
      by rewrite <- app_assoc.
Qed.

(** X23.  A line written is the line read.  When the socket takes the whole
    line, in one call of [send] or in several, [write_line] returns 0,
    leaves the write buffer empty and has put the data and a newline on the
    wire; and an endpoint with an empty buffer that receives these bytes,
    in whatever chunks, reads the data with [_readn] and keeps nothing. *)
Theorem line_round_trip (data : string) (ns : list nat)
    (ss : list send_result) (a : endpoint) :
  has_newline data = false →
  _wbuffer a = [] →
  sends (_sck a) = (map Sent ns ++ ss)%list →
  Forall (λ n, (0 < n)%nat) ns →
  (length (frame data) ≤ sum_list ns)%nat →
  ∃ a',
    write_line data a = (Returns O, a') ∧
    _wbuffer a' = [] ∧
    wire (_sck a') = (wire (_sck a) ++ frame data)%list ∧
    ∀ (b : endpoint) (chunks : list bytes) (more : list recv_result),
      _buffer b = [] →
      recvs (_sck b) = (map RecvData chunks ++ more)%list →
      Forall (λ c, c ≠ []) chunks →
      concat chunks = frame data →
      _readn b = (Returns (encode data), set_buffer [] (set_recvs more b)).
Proof.
  intros Hnl Hwb Hss Hpos Hlen.
  set (a1 := set_wbuffer (_wbuffer a ++ encode data ++ [newline]) a).
  destruct (write_line_loop_all ns ss a1 Hpos) as [ss' Hloop].
  { subst a1. simpl. by rewrite Hwb. }
  eexists. split; [|split; [|split]].
  - unfold write_line. rewrite Hnl.
    erewrite (tbind_returns (updates _)); [|reflexivity].
    erewrite (tbind_returns (reads _)); [|reflexivity].
    cbv beta. fold a1. change (sends (_sck a1)) with (sends (_sck a)).
    rewrite Hss. exact Hloop.
  - subst a1. simpl _wbuffer. rewrite Hwb. simpl.
    by destruct (encode data).
  - subst a1. simpl _wbuffer. rewrite Hwb. unfold frame. simpl.
    by destruct (encode data).
  - intros b chunks more Hb Hrs Hne Hcat.
    destruct (_readn_loop_line chunks more (_buffer b) (encode data) [] b
                Hrs Hne (has_newline_encode data Hnl))
      as (k & buffer' & Hread & Hrest).
    { by rewrite Hb, Hcat. }
    rewrite <- Hrs, <- _readn_unfold in Hread.
    apply app_eq_nil in Hrest as [-> Hk].
    rewrite Hread. do 3 f_equal.
    assert (drop k chunks = []) as ->; [|done].
    apply Forall_drop with (n := k) in Hne.
    destruct (drop k chunks) as [|c cs]; [done|].
    apply Forall_cons in Hne as [Hc _]. simpl in Hk.
    apply app_eq_nil in Hk as [-> _]. done.
Qed.

Lemma line_round_trip_witness :
  let a := Ex2.endpoint_with Ex.w0 [] [Sent 2; Sent 5] [] in
  ∃ a',
    write_line "hi" a = (Returns O, a') ∧
    _wbuffer a' = [] ∧
    wire (_sck a') = (wire (_sck a) ++ frame "hi")%list ∧
    ∀ (b : endpoint) (chunks : list bytes) (more : list recv_result),
      _buffer b = [] →
      recvs (_sck b) = (map RecvData chunks ++ more)%list →
      Forall (λ c, c ≠ []) chunks →
      concat chunks = frame "hi" →
      _readn b = (Returns (encode "hi"), set_buffer [] (set_recvs more b)).
Proof.
  refine (line_round_trip "hi" [2%nat; 5%nat] []
            (Ex2.endpoint_with Ex.w0 [] [Sent 2; Sent 5] [])
            eq_refl eq_refl eq_refl _ _).
  - repeat constructor.
  - simpl. repeat constructor.
Defined.

(** ** Timeouts *)

(** X24.  The timeout that [settimeout] gives the socket never exceeds the
    maximum that [setmaxtimeout] has set for the operation
    ([getmaxtimeout] returns it): it is the timeout asked for when that is
    within the maximum, and the maximum itself when the timeout asked for
    is greater or None. *)
Theorem settimeout_within_maximum (operation : string) (m : Q)
    (timeout : option Q) (ep : endpoint) :
  operation ∈ ["read"; "write"] →
  (0 <= m)%Q →
  (∀ t, timeout = Some t → (0 <= t)%Q) →
  ∃ ep1 ep2 t',
    setmaxtimeout operation (Some m) ep = (Returns tt, ep1) ∧
    getmaxtimeout operation ep1 = (Returns (Some m), ep1) ∧
    settimeout operation timeout ep1 = (Returns tt, ep2) ∧
    gettimeout (_sck ep2) = Some t' ∧
    (t' <= m)%Q ∧
    (∀ t, timeout = Some t → (t <= m)%Q → t' = t) ∧
    (∀ t, timeout = Some t → (m < t)%Q → t' = m) ∧
    (timeout = None → t' = m).
Proof.
  intros Hop Hm Ht.
  set (ep1 := set_maxtimeout (<[operation := Some m]> (_maxtimeout ep)) ep).
  assert (_maxtimeout ep1 !! operation = Some (Some m)) as Hl.
  { subst ep1. simpl. apply lookup_insert_eq. }
  assert (setmaxtimeout operation (Some m) ep = (Returns tt, ep1)) as H1.
  { unfold setmaxtimeout. by rewrite bool_decide_eq_true_2. }
  assert (getmaxtimeout operation ep1 = (Returns (Some m), ep1)) as H2.
  { unfold getmaxtimeout. erewrite (tbind_returns (reads _)); [|reflexivity].
    cbv beta. by rewrite Hl. }
  assert (∀ t, (0 <= t)%Q →
            sck_settimeout (Some t) ep1
              = (Returns tt, (sck_settimeout (Some t) ep1).2) ∧
            gettimeout (_sck (sck_settimeout (Some t) ep1).2) = Some t) as Hs.
  { intros t H0. unfold sck_settimeout.
    destruct (Qlt_le_dec t 0) as [Hneg|_]; [|done].
    exfalso. by apply (Qlt_not_le _ _ Hneg). }
  unfold settimeout.
  destruct timeout as [t|].
  - destruct (Qlt_le_dec m t) as [Hlt|Hle] eqn:Hdec.
    + destruct (Hs m Hm) as [Hset Hget].
      exists ep1, (sck_settimeout (Some m) ep1).2, m.
      split; [done|]. split; [done|]. split.
      { erewrite (tbind_returns (reads _)); [|reflexivity].
        cbv beta. rewrite Hl. cbv beta iota zeta. by rewrite Hdec. }
      split; [done|]. split; [apply Qle_refl|]. split; [|done].
      intros t0 [= <-] Hle. exfalso. by apply (Qlt_not_le _ _ Hlt).
    + destruct (Hs t (Ht t eq_refl)) as [Hset Hget].
      exists ep1, (sck_settimeout (Some t) ep1).2, t.
      split; [done|]. split; [done|]. split.
      { erewrite (tbind_returns (reads _)); [|reflexivity].
        cbv beta. rewrite Hl. cbv beta iota zeta. by rewrite Hdec. }
      split; [done|]. split; [done|]. split; [by intros t0 [= <-]|].
      split; [|done].
      intros t0 [= <-] Hlt. exfalso. by apply (Qlt_not_le _ _ Hlt).
  - destruct (Hs m Hm) as [Hset Hget].
    exists ep1, (sck_settimeout (Some m) ep1).2, m.
    split; [done|]. split; [done|]. split.
    { erewrite (tbind_returns (reads _)); [|reflexivity].
      cbv beta. by rewrite Hl. }
    split; [done|]. split; [apply Qle_refl|]. done.
Qed.

Lemma settimeout_within_maximum_witness :
  let ep := Ex2.endpoint_with Ex.w0 [] [] [] in
  ∃ ep1 ep2,
    setmaxtimeout "read" (Some (30 : Q)) ep = (Returns tt, ep1) ∧
    getmaxtimeout "read" ep1 = (Returns (Some (30 : Q)), ep1) ∧
    settimeout "read" (Some (45 : Q)) ep1 = (Returns tt, ep2) ∧
    gettimeout (_sck ep2) = Some (30 : Q).
Proof.
  destruct (settimeout_within_maximum "read" 30 (Some (45 : Q))
              (Ex2.endpoint_with Ex.w0 [] [] []))
    as (ep1 & ep2 & t' & H1 & H2 & H3 & H4 & _ & _ & Hgt & _).
  - apply list_elem_of_here.
  - discriminate.
  - intros t H. injection H as <-. discriminate.
  - exists ep1, ep2. split; [exact H1|]. split; [exact H2|].
    split; [exact H3|]. rewrite H4. f_equal.
    apply (Hgt (45 : Q)); reflexivity.
Defined.

(** The socket of the witness gets the maximum, 30, and not the 45 asked
    for. *)
Example settimeout_clamped :
  let ep := Ex2.endpoint_with Ex.w0 [] [] [] in
  gettimeout
    (_sck (settimeout "read" (Some (45 : Q))
             (setmaxtimeout "read" (Some (30 : Q)) ep).2).2)
    = Some (30 : Q).
Proof. reflexivity. Qed.

(** ** The writer thread *)

Lemma sck_settimeout_transport value ep :
  wire (_sck (sck_settimeout value ep).2) = wire (_sck ep) ∧
  _wbuffer (sck_settimeout value ep).2 = _wbuffer ep ∧
  (sck_settimeout value ep).1 ≠ Blocks.
Proof.
  unfold sck_settimeout. destruct value as [t|]; [|done].
  by destruct (Qlt_le_dec t 0).
Qed.

Lemma settimeout_transport operation timeout ep :
  wire (_sck (settimeout operation timeout ep).2) = wire (_sck ep) ∧
  _wbuffer (settimeout operation timeout ep).2 = _wbuffer ep ∧
  (settimeout operation timeout ep).1 ≠ Blocks.
Proof.
  unfold settimeout.
  erewrite (tbind_returns (reads _)); [|reflexivity].
  apply sck_settimeout_transport.
Qed.

Lemma write_thread_loop_conserves text items : ∀ ep,
  ∃ sent,
    sent `prefix_of` lines text items ∧
    (wire (_sck (write_thread_loop text items ep).2)
       ++ _wbuffer (write_thread_loop text items ep).2)%list
      = (wire (_sck ep) ++ _wbuffer ep ++ concat (map frame sent))%list ∧
    (∀ u, (write_thread_loop text items ep).1 = Returns u →
          sent = lines text items).
Proof.
  induction items as [|[d|] items IH]; intros ep.
  - exists []. split; [done|]. split; [|done]. simpl. by rewrite !app_nil_r.
  - set (ep1 := set_dispatcher
                  (with_conn (set_queue items) (dispatcher ep)) ep).
    assert (write_thread_loop text (WriteData d :: items) ep
            = ((if Py.truthy (VStr (text d))
                then _ ← write_now (text d) None; mret tt
                else mret tt) ≫= λ _, write_thread_loop text items) ep1) as ->.
    { reflexivity. }
    change (lines text (WriteData d :: items))
      with (if Py.truthy (VStr (text d)) then text d :: lines text items
            else lines text items).
    destruct (Py.truthy (VStr (text d))).
    + unfold write_now.
      pose proof (settimeout_transport "write" None ep1) as (Hw1 & Hb1 & Hnb).
      destruct (settimeout "write" None ep1) as [[[]|e|] ep2] eqn:Hst;
        simpl in Hw1, Hb1, Hnb; [| |done].
      * assert (if has_newline (text d) then
                  write_line (text d) ep2
                    = (Raises (Exc "AssertionError" EmptyString), ep2)
                else
                  (wire (_sck (write_line (text d) ep2).2)
                     ++ _wbuffer (write_line (text d) ep2).2)%list
                    = (wire (_sck ep2) ++ _wbuffer ep2 ++ frame (text d))%list)
          as Hwl.
        { destruct (has_newline (text d)) eqn:Hnl.
          - unfold write_line. by rewrite Hnl.
          - rewrite (write_line_unfold _ ep2 Hnl).
            by rewrite write_line_loop_conserves. }
        destruct (has_newline (text d)).
        { exists []. split; [apply prefix_nil|].
          erewrite tbind_raises; cycle 1.
          { erewrite tbind_raises; [reflexivity|].
            erewrite tbind_returns; [|exact Hst]. exact Hwl. }
          simpl. rewrite Hw1, Hb1. split; [by rewrite !app_nil_r|done]. }
        destruct (write_line (text d) ep2) as [[n|e|] ep3] eqn:Hw;
          simpl in Hwl.
        { destruct (IH ep3) as (sent & Hpre & Hcons & Hret).
          exists (text d :: sent). split; [by apply prefix_cons|].
          erewrite tbind_returns; cycle 1.
          { erewrite tbind_returns; [reflexivity|].
            erewrite tbind_returns; [|exact Hst]. exact Hw. }
          split.
          - rewrite Hcons, app_assoc, Hwl, Hw1, Hb1. simpl.
            by rewrite <- !app_assoc.
          - intros u Hu. by rewrite (Hret u Hu). }
        { exists [text d]. split; [apply prefix_cons, prefix_nil|].
          erewrite tbind_raises; cycle 1.
          { erewrite tbind_raises; [reflexivity|].
            erewrite tbind_returns; [|exact Hst]. exact Hw. }
          simpl. rewrite Hwl, Hw1, Hb1. split; [by rewrite !app_nil_r|done]. }
        { exists [text d]. split; [apply prefix_cons, prefix_nil|].
          erewrite tbind_blocks; cycle 1.
          { erewrite tbind_blocks; [reflexivity|].
            erewrite tbind_returns; [|exact Hst]. exact Hw. }
          simpl. rewrite Hwl, Hw1, Hb1. split; [by rewrite !app_nil_r|done]. }
      * exists []. split; [apply prefix_nil|].
        erewrite tbind_raises; cycle 1.
        { erewrite tbind_raises; [reflexivity|].
          erewrite tbind_raises; [reflexivity|exact Hst]. }
        simpl. rewrite Hw1, Hb1. split; [by rewrite !app_nil_r|done].
    + destruct (IH ep1) as (sent & Hpre & Hcons & Hret).
      exists sent. split; [done|].
      erewrite (tbind_returns (mret _)); [|reflexivity]. by split.
  - exists []. split; [done|]. split; [|done]. simpl. by rewrite !app_nil_r.
Qed.

(** X25.  The writer thread keeps the order of the queue: whatever the socket
    does, the bytes sent followed by the write buffer are those from before
    followed by the lines of the first items of the queue, each with its
    newline, in the order of the queue, and no item after an abort is among
    them; when the thread ends (on an abort) these are all the lines up to
    the abort. *)
Theorem write_thread_order (text : value → string) (ep : endpoint) :
  ∃ sent,
    sent `prefix_of` lines text (write_thread_queue (conn (dispatcher ep))) ∧
    (wire (_sck (write_thread text ep).2)
       ++ _wbuffer (write_thread text ep).2)%list
      = (wire (_sck ep) ++ _wbuffer ep ++ concat (map frame sent))%list ∧
    (∀ u, (write_thread text ep).1 = Returns u →
          sent = lines text (write_thread_queue (conn (dispatcher ep)))).
Proof.
  unfold write_thread.
  erewrite (tbind_returns (reads _)); [|reflexivity].
  apply write_thread_loop_conserves.
Qed.

(** ** Closing and serving *)

Lemma handler_shutdown_written e_log w :
  let r := try_except handler_shutdown (λ e, _log ERROR e_log) w in
  r.1 = Ok tt ∧
  conn r.2 = conn w ∧
  shutdowns r.2
    = (shutdowns w ++
       match handler (conn w) with
       | Some o => match _shutdown (objs w o) with Some _ => [o] | None => [] end
       | None => []
       end)%list.
Proof.
  unfold try_except, handler_shutdown, mbind, M_bind, gets, modify, raise,
    lift, _log, mret, M_ret. simpl.
  destruct (handler (conn w)) as [o|]; simpl; [|by rewrite app_nil_r].
  destruct (_shutdown (objs w o)) as [[[]|e]|]; simpl; by rewrite ?app_nil_r.
Qed.

Lemma close_closes (acknowledged : bool) (ep : endpoint) :
  connection_status ep ≠ "closed" →
  ∃ ep1,
    close acknowledged ep = (Returns tt, ep1) ∧
    connection_status ep1 = "closed" ∧
    closed (_sck ep1) = true ∧
    write_thread_queue (conn (dispatcher ep1))
      = (write_thread_queue (conn (dispatcher ep)) ++ [Abort])%list ∧
    shutdowns (dispatcher ep1)
      = (shutdowns (dispatcher ep) ++
         match handler (conn (dispatcher ep)) with
         | Some o =>
             match _shutdown (objs (dispatcher ep) o) with
             | Some _ => [o]
             | None => []
             end
         | None => []
         end)%list.
Proof.
  intros Hopen.
  assert (String.eqb (connection_status ep) "closed" = false) as Hs.
  { by apply String.eqb_neq. }
  unfold close.
  erewrite (tbind_returns (reads _)); [|reflexivity]. cbv beta. rewrite Hs.
  erewrite (tbind_returns (on_dispatcher _)); [|reflexivity].
  set (ep1 := set_dispatcher _ ep).
  assert (∃ ep2, (if acknowledged then mret tt
                  else logs WARNING "write thread doesn't process our abort command") ep1
                 = (Returns tt, ep2)
                 ∧ conn (dispatcher ep2) = conn (dispatcher ep1)
                 ∧ objs (dispatcher ep2) = objs (dispatcher ep1)
                 ∧ shutdowns (dispatcher ep2) = shutdowns (dispatcher ep1))
    as (ep2 & Hack & Hc2 & Ho2 & Hsh2).
  { destruct acknowledged; eexists; (split; [reflexivity|done]). }
  erewrite tbind_returns; [|exact Hack].
  pose proof (handler_shutdown_written
                "Error when shutting down the handler: %s" (dispatcher ep2))
    as (Hr & Hc3 & Hsh3).
  destruct (try_except handler_shutdown _ (dispatcher ep2)) as [r w3] eqn:Hhs.
  simpl in Hr, Hc3, Hsh3. subst r.
  erewrite (tbind_returns (on_dispatcher _)); cycle 1.
  { unfold on_dispatcher. by rewrite Hhs. }
  erewrite (tbind_returns (updates _)); [|reflexivity].
  eexists. split; [reflexivity|]. simpl.
  split; [done|]. split; [done|]. split; [by rewrite Hc3, Hc2|].
  by rewrite Hsh3, Hsh2, Hc2, Ho2.
Qed.

(** X26.  [close] never raises: it queues an abort for the writer thread, calls
    [_shutdown] of the root handler when there is one (its failure is
    logged), closes the socket and marks the connection closed.  A second
    [close] changes nothing: the handler is shut down once. *)
Theorem close_once (acknowledged again : bool) (ep : endpoint) :
  connection_status ep ≠ "closed" →
  ∃ ep1,
    close acknowledged ep = (Returns tt, ep1) ∧
    connection_status ep1 = "closed" ∧
    closed (_sck ep1) = true ∧
    write_thread_queue (conn (dispatcher ep1))
      = (write_thread_queue (conn (dispatcher ep)) ++ [Abort])%list ∧
    shutdowns (dispatcher ep1)
      = (shutdowns (dispatcher ep) ++
         match handler (conn (dispatcher ep)) with
         | Some o =>
             match _shutdown (objs (dispatcher ep) o) with
             | Some _ => [o]
             | None => []
             end
         | None => []
         end)%list ∧
    close again ep1 = (Returns tt, ep1).
Proof.
  intros Hopen.
  destruct (close_closes acknowledged ep Hopen)
    as (ep1 & Hclose & Hst & Hcl & Hq & Hsh).
  exists ep1. repeat (split; [done|]).
  unfold close.
  erewrite (tbind_returns (reads _)); [|reflexivity].
  cbv beta. by rewrite Hst.
Qed.

Lemma close_once_witness :
  let ep := Ex2.endpoint_with Ex.w0 [] [] [] in
  ∃ ep1,
    close true ep = (Returns tt, ep1) ∧
    connection_status ep1 = "closed" ∧
    closed (_sck ep1) = true ∧
    write_thread_queue (conn (dispatcher ep1))
      = (write_thread_queue (conn (dispatcher ep)) ++ [Abort])%list ∧
    shutdowns (dispatcher ep1)
      = (shutdowns (dispatcher ep) ++
         match handler (conn (dispatcher ep)) with
         | Some o =>
             match _shutdown (objs (dispatcher ep) o) with
             | Some _ => [o]
             | None => []
             end
         | None => []
         end)%list ∧
    close false ep1 = (Returns tt, ep1).
Proof.
  refine (close_once true false (Ex2.endpoint_with Ex.w0 [] [] []) _).
  intros H. discriminate H.
Defined.

Lemma serve_loop_not_returns inputs : ∀ ep u,
  (serve_loop inputs ep).1 ≠ Returns u.
Proof.
  induction inputs as [|inp inputs IH]; intros ep u; [done|].
  simpl. unfold mbind, T_bind.
  destruct (on_dispatcher _ ep) as [[a|e|] ep']; [apply IH|done|done].
Qed.

Lemma read_and_dispatch_reads thread condition inp w :
  read_raises inp = None →
  ∃ b, read_and_dispatch thread condition inp w
       = (Ok b, run (ReadAndDispatch thread condition inp) w).
Proof.
  intros Hinp. unfold run.
  destruct inp as [k|e| |e|item]; try done.
  - destruct condition as [[]|]; by eexists.
  - destruct condition as [[]|]; by eexists.
  - destruct (read_and_dispatch_returns thread condition item w) as [b Hb].
    exists b.
    destruct (read_and_dispatch thread condition (Decoded item) w) as [r w'].
    simpl in Hb |- *. by subst.
Qed.

Lemma read_and_dispatch_raises inp e w :
  read_raises inp = Some e →
  read_and_dispatch true None inp w = (Raise e, w).
Proof. destruct inp; try done; by intros [= <-]. Qed.

Lemma serve_loop_stops pre : ∀ stop e post ep,
  Forall (λ i, read_raises i = None) pre →
  read_raises stop = Some e →
  serve_loop (pre ++ stop :: post) ep
    = (Raises e,
       set_dispatcher
         (after (map (ReadAndDispatch true None) pre) (dispatcher ep)) ep).
Proof.
  induction pre as [|inp pre IH]; intros stop e post ep Hpre Hstop.
  - change (serve_loop ([] ++ stop :: post) ep)
      with ((on_dispatcher (read_and_dispatch true None stop)
             ≫= λ _, serve_loop post) ep).
    erewrite tbind_raises; cycle 1.
    { unfold on_dispatcher.
      by rewrite (read_and_dispatch_raises stop e _ Hstop). }
    simpl. by destruct ep.
  - apply Forall_cons in Hpre as [Hinp Hpre].
    rewrite <- app_comm_cons.
    change (serve_loop (inp :: pre ++ stop :: post) ep)
      with ((on_dispatcher (read_and_dispatch true None inp)
             ≫= λ _, serve_loop (pre ++ stop :: post)) ep).
    destruct (read_and_dispatch_reads true None inp (dispatcher ep) Hinp)
      as [b Hb].
    erewrite (tbind_returns (on_dispatcher _)); cycle 1.
    { unfold on_dispatcher. by rewrite Hb. }
    rewrite (IH stop e) by done. simpl. done.
Qed.

(** X27.  [serve] never returns: it ends with an exception, or waits.  It
    dispatches what is read, in order, up to the first read that raises
    (EofError at the end of the stream, or another exception of [read],
    such as the UnicodeDecodeError of a line that is not UTF-8); then it
    closes the connection and lets that exception out.  The frames that the
    dispatching has queued stay queued, and nothing is read after the read
    that raised. *)
Theorem serve_until_read_raises (pre post : list inbound) (stop : inbound)
    (e : exn) (acknowledged : bool) (ep : endpoint) :
  Forall (λ i, read_raises i = None) pre →
  read_raises stop = Some e →
  connection_status ep ≠ "closed" →
  ∃ ep',
    serve (pre ++ stop :: post) acknowledged ep = (Raises e, ep') ∧
    connection_status ep' = "closed" ∧
    closed (_sck ep') = true ∧
    written (dispatcher ep')
      = written (after (map (ReadAndDispatch true None) pre) (dispatcher ep)) ∧
    ∀ inputs u, (serve inputs acknowledged ep).1 ≠ Returns u.
Proof.
  intros Hpre Hstop Hopen.
  set (ep1 := set_dispatcher
                (after (map (ReadAndDispatch true None) pre) (dispatcher ep)) ep).
  destruct (close_closes acknowledged ep1 Hopen)
    as (ep2 & Hclose & Hst & Hcl & Hq & _).
  exists ep2. split; [|split; [done|split; [done|split]]].
  - unfold serve, try_finally.
    rewrite (serve_loop_stops pre stop e post ep Hpre Hstop).
    fold ep1. by rewrite Hclose.
  - unfold written. rewrite Hq, omap_app. simpl. by rewrite app_nil_r.
  - intros inputs u. unfold serve, try_finally.
    pose proof (serve_loop_not_returns inputs ep) as Hn.
    destruct (serve_loop inputs ep) as [[a|e'|] ep3]; [by destruct (Hn a)| |done].
    by destruct (close acknowledged ep3) as [[[]|e2|] ep4].
Qed.

Lemma serve_until_read_raises_witness :
  let ep := Ex2.endpoint_with Ex.w0 [] [] [] in
  let bad := Exc "UnicodeDecodeError" "invalid start byte" in
  ∃ ep',
    serve ([Decoded (VDict Ex2.ping_request)]
             ++ ReadError bad :: [Decoded (VDict Ex2.ping_request)]) true ep
      = (Raises bad, ep') ∧
    connection_status ep' = "closed" ∧
    closed (_sck ep') = true ∧
    written (dispatcher ep')
      = written (after (map (ReadAndDispatch true None)
                          [Decoded (VDict Ex2.ping_request)]) (dispatcher ep)) ∧
    ∀ inputs u, (serve inputs true ep).1 ≠ Returns u.
Proof.
  refine (serve_until_read_raises [Decoded (VDict Ex2.ping_request)]
            [Decoded (VDict Ex2.ping_request)]
            (ReadError (Exc "UnicodeDecodeError" "invalid start byte"))
            (Exc "UnicodeDecodeError" "invalid start byte") true
            (Ex2.endpoint_with Ex.w0 [] [] []) _ eq_refl _).
  - repeat constructor.
  - intros H. discriminate H.
Defined.

(** The writer thread on a queue with an abort, and a socket that takes
    the first line in two pieces: the lines before the abort are on the
    wire, in order, and the item after it stays in the queue. *)
Example write_thread_wire :
  let ep := mkEndpoint
              (with_conn
                 (set_queue [WriteData (VStr "a"); WriteData (VStr "b"); Abort;
                             WriteData (VStr "c")]) Ex.w0)
              (mkSocket None [] [Sent 1; Sent 5; Sent 5] [] false)
              [] [] "open" default_maxtimeout in
  let r := write_thread Ex2.text ep in
  r.1 = Returns tt ∧
  wire (_sck r.2) = (frame "a" ++ frame "b")%list ∧
  _wbuffer r.2 = [] ∧
  write_thread_queue (conn (dispatcher r.2)) = [WriteData (VStr "c")] ∧
  gettimeout (_sck r.2) = Some (60 : Q).
Proof. repeat split. Qed.

(** [serve] on a request and the end of the stream: the request is
    answered, the handler is shut down and the connection closed. *)
Example serve_ping :
  let r := serve [Decoded (VDict Ex2.ping_request); ReadEof 0] true
             (Ex2.endpoint_with Ex.w0 [] [] []) in
  r.1 = Raises (EofError 0) ∧
  written (dispatcher r.2) = [response_frame (VStr "pong") (VInt 6)] ∧
  shutdowns (dispatcher r.2) = [0%nat] ∧
  connection_status r.2 = "closed".
Proof. repeat split. Qed.

(** [serve] on a request, a line that is not UTF-8 and another request:
    the first request is answered, the second is never read. *)
Example serve_bad_line :
  let r := serve [Decoded (VDict Ex2.ping_request);
                  ReadError (Exc "UnicodeDecodeError" "invalid start byte");
                  Decoded (VDict Ex2.ping_request)] true
             (Ex2.endpoint_with Ex.w0 [] [] []) in
  r.1 = Raises (Exc "UnicodeDecodeError" "invalid start byte") ∧
  written (dispatcher r.2) = [response_frame (VStr "pong") (VInt 6)] ∧
  shutdowns (dispatcher r.2) = [0%nat] ∧
  connection_status r.2 = "closed".
Proof. repeat split. Qed.

(** ** A call and its answer *)

Lemma Request__init___state d n w :
  Py.get "id" d = Some (VInt n) →
  plain (VDict d) = true →
  _requests (conn w) !! n = None →
  let ref := fresh (dom (handles w)) in
  Request__init__ d w
    = (Ok ref,
       (write (VDict d)
          (with_conn (set_requests (<[n := ref]> (_requests (conn w))))
             (set_handles
                (<[ref := mkRequest (Some n) (VDict d) [] true]> (handles w))
                w))).2).
Proof.
  intros Hid Hp Hfree ref. unfold Request__init__.
  erewrite (bind_ok (gets _)); [|reflexivity]. cbv zeta. rewrite Hid.
  erewrite (bind_ok (modify _)); [|reflexivity].
  erewrite (bind_ok (addrequest _ _)).
  2:{ unfold addrequest. erewrite (bind_ok (gets _)); [|reflexivity].
      simpl. rewrite Hfree. reflexivity. }
  erewrite bind_ok; [|by apply json_dumps_plain].
  by erewrite bind_ok.
Qed.

(** X28.  A call and its answer.  [proxy], called for a reply (sync type 0,
    where the caller then waits on the handle, or 1) with JSON data on a
    connection where the next id is not pending, queues the request frame
    and makes the handle of a pending request; the peer, whose handler for
    the method returns JSON data, answers it with one response frame for
    the same id; and the dispatch of that frame on the first connection
    gives the response to the handle and takes the id out of the pending
    requests, which are as before the call. *)
Theorem call_round_trip (st : Z) (name : string) (args : list value)
    (kwargs : dict) (a b b2 : world) (req_method req_args req_kw : value)
    (obj : obj_id) (body : list value → dict → result value)
    (av : list value) (k : dict) (r : value) :
  st ∈ [0; 1] →
  forallb plain args = true →
  forallb (λ kv, plain kv.2) kwargs = true →
  _requests (conn a) !! (_id (conn a) + 1) = None →
  let id := _id (conn a) + 1 in
  let request := proxy_data name (Some id) args kwargs in
  resolves request b req_method req_args req_kw obj (Callable body) b2 →
  star_args req_args req_kw = Ok (av, k) →
  body av k = Ok r →
  plain r = true →
  ∃ ref a1 b3 a2,
    proxy st name args kwargs a
      = (Ok (if st =? 0 then ProxyValue ref else ProxyRequest ref), a1) ∧
    written a1 = (written a ++ [VDict request])%list ∧
    dispatch_item_single (VDict request) b = (Ok (VBool true), b3) ∧
    written b3 = (written b ++ [response_frame r (VInt id)])%list ∧
    dispatch_item_single (response_frame r (VInt id)) a1
      = (Ok (VBool true), a2) ∧
    responses <$> handles a2 !! ref = Some [response_frame r (VInt id)] ∧
    _requests (conn a2) = _requests (conn a).
Proof.
  intros Hst Ha Hk Hfree id request Hres Hsa Hbody Hr.
  set (a0 := with_conn (set_id id) a).
  pose proof (Request__init___state request id a0
                (get_id_proxy_data name id args kwargs)
                (plain_proxy_data name (Some id) args kwargs Ha Hk) Hfree)
    as Hreq.
  cbv zeta in Hreq.
  set (ref := fresh (dom (handles a0))) in *.
  set (a1 := (write (VDict request) _).2) in Hreq.
  assert (reply_id request = Some (VInt id)) as Hid.
  { unfold reply_id, request. by rewrite get_id_proxy_data. }
  (* the peer *)
  destruct (resolves_outside _ _ _ _ _ _ _ _ Hres) as (Hw2 & _).
  assert (_send (response_frame r (VInt id)) b2
          = write (response_frame r (VInt id)) b2) as Hsend.
  { unfold _send. erewrite bind_ok; [reflexivity|].
    apply try_except_ok. apply json_dumps_plain. simpl. by rewrite Hr. }
  exists ref, a1, (write (response_frame r (VInt id)) b2).2. eexists.
  split; [|split; [|split; [|split; [|split; [|split]]]]].
  - assert (st = 0 ∨ st = 1) as Hcases.
    { apply elem_of_cons in Hst as [->|Hst]; [by left|].
      apply elem_of_cons in Hst as [->|Hst]; [by right|].
      by apply elem_of_nil in Hst. }
    unfold proxy.
    destruct Hcases as [-> | ->].
    + change (bool_decide (0 ∈ [0; 1; 3])) with true. cbv iota.
      erewrite bind_ok; [|reflexivity]. cbv zeta.
      change (0 =? 2) with false. cbv iota.
      by erewrite bind_ok; [|exact Hreq].
    + change (bool_decide (1 ∈ [0; 1; 3])) with true. cbv iota.
      erewrite bind_ok; [|reflexivity]. cbv zeta.
      change (1 =? 2) with false. cbv iota.
      by erewrite bind_ok; [|exact Hreq].
  - unfold a1. by rewrite written_write.
  - rewrite (dispatch_item_single_resolved _ _ _ _ _ _ _ _ Hres).
    rewrite (setdefault_reply_id request (VInt id) Hid).
    erewrite bind_ok; [reflexivity|].
    unfold call_handler. apply try_except_ok. rewrite Hsa.
    erewrite (bind_ok (lift _)); [|reflexivity]. cbv beta iota. rewrite Hbody.
    erewrite (bind_ok (lift _)); [|reflexivity].
    unfold _send_response. rewrite Hid. exact Hsend.
  - by rewrite written_write, Hw2.
  - unfold dispatch_item_single, response_frame.
    change (Py.setdefault "id" VNone
              [("result", r); ("error", VNone); ("id", VInt id)])
      with [("result", r); ("error", VNone); ("id", VInt id)].
    change (Py.has "method" _) with false. cbv iota.
    change (Py.has "result" _) with true. cbv iota.
    erewrite (bind_ok (lift _)); [|reflexivity].
    erewrite (bind_ok (lift _)); [|reflexivity].
    erewrite (bind_ok (gets _)); [|reflexivity]. cbv beta.
    change (Some id ≫= λ i, _requests (conn a1) !! i)
      with (_requests (conn a1) !! id).
    assert (_requests (conn a1) !! id = Some ref) as ->.
    { unfold a1. simpl. apply lookup_insert_eq. }
    erewrite bind_ok; [reflexivity|].
    unfold setresponse.
    erewrite (bind_ok (gets _)); [|reflexivity]. cbv beta.
    assert (handles a1 !! ref
            = Some (mkRequest (Some id) (VDict request) [] true)) as ->.
    { unfold a1. simpl. apply lookup_insert_eq. }
    erewrite (bind_ok (modify _)); [|reflexivity]. simpl.
    unfold delrequest. erewrite (bind_ok (gets _)); [|reflexivity]. simpl.
    rewrite lookup_insert_eq. reflexivity.
  - simpl. by rewrite lookup_insert_eq.
  - simpl. rewrite delete_insert_eq. by apply delete_id.
Qed.

Lemma call_round_trip_witness :
  ∃ ref a1 b3 a2,
    proxy 1 "echo" [VStr "hi"] [] Ex2.w_peer = (Ok (ProxyRequest ref), a1) ∧
    written a1 = (written Ex2.w_peer ++ [VDict Ex2.echo_request])%list ∧
    dispatch_item_single (VDict Ex2.echo_request) Ex.w0
      = (Ok (VBool true), b3) ∧
    written b3 = (written Ex.w0 ++ [response_frame (VStr "hi") (VInt 1)])%list ∧
    dispatch_item_single (response_frame (VStr "hi") (VInt 1)) a1
      = (Ok (VBool true), a2) ∧
    responses <$> handles a2 !! ref
      = Some [response_frame (VStr "hi") (VInt 1)] ∧
    _requests (conn a2) = _requests (conn Ex2.w_peer).
Proof.
  refine (call_round_trip 1 "echo" [VStr "hi"] [] Ex2.w_peer Ex.w0 Ex.w0
            (VStr "echo") (VList [VStr "hi"]) (VDict []) 0%nat
            (λ a k, match a with
                    | [x] => Ok x
                    | _ => Raise (TypeError "echo() takes exactly 1 argument")
                    end)
            [VStr "hi"] [] (VStr "hi")
            _ eq_refl eq_refl eq_refl _ eq_refl eq_refl eq_refl).
  - apply list_elem_of_further, list_elem_of_here.
  - split; [reflexivity|]. split; [reflexivity|].
    exists Ex.w0. split; reflexivity.
Defined.

(** ** A notification and its silence *)

Lemma proxy_data_no_id name args kwargs :
  Py.has "id" (proxy_data name None args kwargs) = false.
Proof.
  unfold proxy_data. by destruct args as [|x args], kwargs as [|kv kwargs].
Qed.

(** X29.  A notification and its silence.  [proxy], called as a notification
    with JSON data, queues exactly the frame it has built, which has no
    'id' key, takes no id and leaves the pending requests alone; and no
    connection that dispatches this frame queues anything. *)
Theorem notification_round_trip (name : string) (args : list value)
    (kwargs : dict) (a b : world) :
  forallb plain args = true →
  forallb (λ kv, plain kv.2) kwargs = true →
  let request := proxy_data name None args kwargs in
  proxy 2 name args kwargs a = (Ok ProxyNone, (write (VDict request) a).2) ∧
  written (write (VDict request) a).2 = (written a ++ [VDict request])%list ∧
  Py.has "id" request = false ∧
  _id (conn (write (VDict request) a).2) = _id (conn a) ∧
  pending (write (VDict request) a).2 = pending a ∧
  written (dispatch_item_single (VDict request) b).2 = written b.
Proof.
  intros Ha Hk request.
  split; [by apply proxy_notify_frame|]. split; [apply written_write|].
  split; [apply proxy_data_no_id|]. split; [done|]. split; [done|].
  apply keeps_written_dispatch_no_reply, reply_id_setdefault_absent,
    proxy_data_no_id.
Qed.

Lemma notification_round_trip_witness :
  let request := proxy_data "boom" None [] [] in
  proxy 2 "boom" [] [] Ex2.w_peer
    = (Ok ProxyNone, (write (VDict request) Ex2.w_peer).2) ∧
  written (write (VDict request) Ex2.w_peer).2
    = (written Ex2.w_peer ++ [VDict request])%list ∧
  Py.has "id" request = false ∧
  _id (conn (write (VDict request) Ex2.w_peer).2) = _id (conn Ex2.w_peer) ∧
  pending (write (VDict request) Ex2.w_peer).2 = pending Ex2.w_peer ∧
  written (dispatch_item_single (VDict request) Ex.w0).2 = written Ex.w0.
Proof.
  exact (notification_round_trip "boom" [] [] Ex2.w_peer Ex.w0 eq_refl eq_refl).
Defined.
